(** * JobBuddy frontend: the authenticated request pipeline

    A shallow embedding of [src/services/apiClient.ts] (class [ApiClient]:
    [formatUrl], [refreshToken], [request] and the convenience methods) and
    of the [logout] action of [src/store/authStore.ts], together with the
    cooperative scheduler they run on, and the properties of the pipeline
    that the specification states. *)

From Stdlib Require Import String Ascii List ZArith Bool Lia.
Import ListNotations.
Open Scope string_scope.
Open Scope Z_scope.

Set Implicit Arguments.

(* ===================================================================== *)
(** ** JavaScript strings *)
(* ===================================================================== *)

Module Js.

(** [s.startsWith(p)] *)
Fixpoint startsWith (s p : string) {struct p} : bool :=
  match p, s with
  | EmptyString, _ => true
  | String _ _, EmptyString => false
  | String a p', String b s' => Ascii.eqb a b && startsWith s' p'
  end.

(** [s.slice(1)] *)
Definition slice1 (s : string) : string :=
  match s with
  | EmptyString => EmptyString
  | String _ s' => s'
  end.

(** [s.endsWith("/")] *)
Fixpoint endsWithSlash (s : string) : bool :=
  match s with
  | EmptyString => false
  | String c EmptyString => Ascii.eqb c "/"
  | String _ s' => endsWithSlash s'
  end.

(** [s.slice(0, -1)] *)
Fixpoint dropLast (s : string) : string :=
  match s with
  | EmptyString => EmptyString
  | String _ EmptyString => EmptyString
  | String c s' => String c (dropLast s')
  end.

(** [s.includes(p)] *)
Fixpoint includes (s p : string) : bool :=
  startsWith s p ||
  match s with
  | EmptyString => false
  | String _ s' => includes s' p
  end.

(** The white space and line terminators that [trim] removes, among the
    code units a [string] of this development can hold. *)
Definition isWhiteSpace (c : ascii) : bool :=
  let n := nat_of_ascii c in
  (Nat.eqb n 9 || Nat.eqb n 10 || Nat.eqb n 11 || Nat.eqb n 12
   || Nat.eqb n 13 || Nat.eqb n 32 || Nat.eqb n 160)%bool.

Fixpoint trimStart (s : string) : string :=
  match s with
  | EmptyString => EmptyString
  | String c s' => if isWhiteSpace c then trimStart s' else s
  end.

(** [s.trim().startsWith(p)] for a non-empty [p] that does not begin with
    white space: only the leading white space matters. *)
Definition trimStartsWith (s p : string) : bool := startsWith (trimStart s) p.

(** Truthiness of a string: the empty string is falsy. *)
Definition nonEmpty (s : string) : bool :=
  match s with EmptyString => false | _ => true end.

(** [s || null] read as an optional string. *)
Definition orNull (s : string) : option string :=
  if nonEmpty s then Some s else None.

End Js.

(* ===================================================================== *)
(** ** The runtime the client runs on *)
(* ===================================================================== *)

(** JSON values, as [JSON.parse] builds them and [JSON.stringify] reads
    them.  [JNull] is JavaScript's [null]; numbers are kept to the integers. *)
#[local] Unset Elimination Schemes.
Inductive JsonValue : Type :=
| JNull
| JBool (b : bool)
| JNum (n : Z)
| JStr (s : string)
| JArr (items : list JsonValue)
| JObj (fields : list (string * JsonValue)).
#[local] Set Elimination Schemes.

Module Json.

(** Truthiness of a value in a condition or under [||]. *)
Definition truthy (v : JsonValue) : bool :=
  match v with
  | JNull => false
  | JBool b => b
  | JNum n => negb (n =? 0)
  | JStr s => Js.nonEmpty s
  | JArr _ => true
  | JObj _ => true
  end.

Fixpoint lookup (k : string) (fs : list (string * JsonValue)) : option JsonValue :=
  match fs with
  | [] => None
  | (k', v) :: fs' => if String.eqb k k' then Some v else lookup k fs'
  end.

(** [v?.k]: [None] is [undefined].  Only objects carry the properties read
    here ([message], [error], [tokens], [accessToken], [refreshToken]). *)
Definition prop (v : JsonValue) (k : string) : option JsonValue :=
  match v with
  | JObj fs => lookup k fs
  | _ => None
  end.

(** [a || b] where the left operand may be [undefined]. *)
Definition orElse (a : option JsonValue) (b : JsonValue) : JsonValue :=
  match a with
  | Some v => if truthy v then v else b
  | None => b
  end.

End Json.

(* ===================================================================== *)
(** ** Data model *)
(* ===================================================================== *)

(** [type HttpMethod] *)
Inductive HttpMethod : Type := GET | POST | PUT | DELETE | PATCH.

(** [Record<string, string>]: an object with its keys in insertion order. *)
Definition Headers : Type := list (string * string).

(** [obj[k] = v]: an existing key keeps its place. *)
Fixpoint obj_set (k v : string) (obj : Headers) : Headers :=
  match obj with
  | [] => [(k, v)]
  | (k', v') :: rest =>
      if String.eqb k k' then (k, v) :: rest else (k', v') :: obj_set k v rest
  end.

(** [{ ...base, ...extra }] *)
Definition spread (base extra : Headers) : Headers :=
  fold_left (fun acc kv => obj_set (fst kv) (snd kv) acc) extra base.

(** [interface RequestOptions]; [None] is a field left [undefined]. *)
Record RequestOptions : Type := {
  opt_method : option HttpMethod;
  opt_headers : option Headers;
  opt_body : option JsonValue;
  opt_requiresAuth : option bool;
  opt_skipRefreshToken : option bool
}.

(** [interface ApiResponse]; [JNull] is [null]. *)
Record ApiResponse : Type := {
  data : JsonValue;
  error : JsonValue;
  status : Z
}.

(** The [RequestInit] handed to [fetch]. *)
Record RequestInit : Type := {
  init_method : HttpMethod;
  init_headers : Headers;
  init_body : option string
}.

(** What the pipeline reads of a [Response]: [resp_contentType] is
    [headers.get('Content-Type')], [resp_body] the text of the body, [None]
    when reading the body stream fails. *)
Record Response : Type := {
  resp_status : Z;
  resp_statusText : string;
  resp_contentType : option string;
  resp_body : option string
}.

(** [response.ok] *)
Definition resp_ok (r : Response) : bool :=
  (200 <=? resp_status r) && (resp_status r <=? 299).

(** A thrown value, as far as [instanceof Error] and [.message] see it. *)
Inductive Thrown : Type :=
| ErrorObject (message : string)
| NotAnError.

(** [interface User], [interface AuthTokens], and the data fields of
    [interface AuthState].  A token field that is missing is the empty
    string, which the code treats alike (both are falsy). *)
Record User : Type := { user_id : string; user_email : string; user_name : string }.

Record AuthTokens : Type := { accessToken : string; refreshToken : string }.

Record AuthState : Type := {
  user : option User;
  tokens : option AuthTokens;
  isAuthenticated : bool;
  isLoading : bool;
  auth_error : option string
}.

(** [set({ user, tokens, isAuthenticated })]: the other fields are kept. *)
Definition set_session (u : option User) (t : option AuthTokens) (a : bool)
    (st : AuthState) : AuthState :=
  {| user := u; tokens := t; isAuthenticated := a;
     isLoading := isLoading st; auth_error := auth_error st |}.

Definition PromiseId : Type := nat.

(** The private fields of [ApiClient].  Nothing ever pushes to
    [requestsQueue], so it is not kept. *)
Record ClientFields : Type := {
  isRefreshing : bool;
  refreshPromise : option PromiseId
}.

(** A value handed back to a caller outside the client. *)
Inductive Delivered : Type :=
| GotResponse (caller : nat) (r : ApiResponse)
| GotBoolean (caller : nat) (b : bool).

(* ===================================================================== *)
(** ** Asynchronous programs *)
(* ===================================================================== *)

(** The body of an [async] function as a tree of its effects.  [Fetch],
    [ReadBody] and [Await] are the [await] points, where the task is
    suspended; the other nodes run within one turn of the event loop. *)
Inductive Prog (R : Type) : Type :=
| Ret (r : R)
| Throw (e : Thrown)
| GetAuth (k : AuthState -> Prog R)
| SetAuth (f : AuthState -> AuthState) (k : Prog R)
| GetThis (k : ClientFields -> Prog R)
| SetThis (f : ClientFields -> ClientFields) (k : Prog R)
| Fetch (url : string) (init : RequestInit) (k : Response + Thrown -> Prog R)
| ReadBody (r : Response) (k : option string -> Prog R)
| NewPromise (executor : PromiseId -> Prog unit) (k : PromiseId -> Prog R)
| Resolve (p : PromiseId) (v : bool) (k : Prog R)
| Await (p : PromiseId) (k : bool -> Prog R)
| CallLogout (k : Prog R)
| Deliver (d : Delivered) (k : Prog R).

Arguments Throw {R} e.
Arguments GetAuth {R} k.
Arguments GetThis {R} k.
Arguments Fetch {R} url init k.
Arguments ReadBody {R} r k.
Arguments NewPromise {R} executor k.
Arguments Await {R} p k.

Fixpoint bind {A B : Type} (p : Prog A) (f : A -> Prog B) : Prog B :=
  match p with
  | Ret r => f r
  | Throw e => Throw e
  | GetAuth k => GetAuth (fun a => bind (k a) f)
  | SetAuth g k => SetAuth g (bind k f)
  | GetThis k => GetThis (fun c => bind (k c) f)
  | SetThis g k => SetThis g (bind k f)
  | Fetch u i k => Fetch u i (fun o => bind (k o) f)
  | ReadBody r k => ReadBody r (fun t => bind (k t) f)
  | NewPromise ex k => NewPromise ex (fun p => bind (k p) f)
  | Resolve p v k => Resolve p v (bind k f)
  | Await p k => Await p (fun v => bind (k v) f)
  | CallLogout k => CallLogout (bind k f)
  | Deliver d k => Deliver d (bind k f)
  end.

(** [try { p } catch (e) { h e }] *)
Fixpoint try_catch {A : Type} (p : Prog A) (h : Thrown -> Prog A) : Prog A :=
  match p with
  | Ret r => Ret r
  | Throw e => h e
  | GetAuth k => GetAuth (fun a => try_catch (k a) h)
  | SetAuth g k => SetAuth g (try_catch k h)
  | GetThis k => GetThis (fun c => try_catch (k c) h)
  | SetThis g k => SetThis g (try_catch k h)
  | Fetch u i k => Fetch u i (fun o => try_catch (k o) h)
  | ReadBody r k => ReadBody r (fun t => try_catch (k t) h)
  | NewPromise ex k => NewPromise ex (fun p => try_catch (k p) h)
  | Resolve p v k => Resolve p v (try_catch k h)
  | Await p k => Await p (fun v => try_catch (k v) h)
  | CallLogout k => CallLogout (try_catch k h)
  | Deliver d k => Deliver d (try_catch k h)
  end.

(** [try { p } finally { fin }] *)
Fixpoint try_finally {A : Type} (p : Prog A) (fin : Prog unit) : Prog A :=
  match p with
  | Ret r => bind fin (fun _ => Ret r)
  | Throw e => bind fin (fun _ => Throw e)
  | GetAuth k => GetAuth (fun a => try_finally (k a) fin)
  | SetAuth g k => SetAuth g (try_finally k fin)
  | GetThis k => GetThis (fun c => try_finally (k c) fin)
  | SetThis g k => SetThis g (try_finally k fin)
  | Fetch u i k => Fetch u i (fun o => try_finally (k o) fin)
  | ReadBody r k => ReadBody r (fun t => try_finally (k t) fin)
  | NewPromise ex k => NewPromise ex (fun p => try_finally (k p) fin)
  | Resolve p v k => Resolve p v (try_finally k fin)
  | Await p k => Await p (fun v => try_finally (k v) fin)
  | CallLogout k => CallLogout (try_finally k fin)
  | Deliver d k => Deliver d (try_finally k fin)
  end.

Declare Scope prog_scope.
Delimit Scope prog_scope with prog.
Notation "x <- p ;; q" := (bind p (fun x => q))
  (at level 61, p at next level, right associativity) : prog_scope.
Notation "p ;; q" := (bind p (fun _ => q))
  (at level 61, right associativity) : prog_scope.
Open Scope prog_scope.

(** The effects as programs of their own. *)
Definition getState : Prog AuthState := GetAuth (fun st => Ret st).
Definition setState (f : AuthState -> AuthState) : Prog unit := SetAuth f (Ret tt).
Definition getThis : Prog ClientFields := GetThis (fun c => Ret c).
Definition setThis (f : ClientFields -> ClientFields) : Prog unit := SetThis f (Ret tt).
Definition resolve (p : PromiseId) (v : bool) : Prog unit := Resolve p v (Ret tt).
Definition await (p : PromiseId) : Prog bool := Await p (fun v => Ret v).
Definition callLogout : Prog unit := CallLogout (Ret tt).
Definition deliver (d : Delivered) : Prog unit := Deliver d (Ret tt).

(** [await fetch(url, init)]: a rejected fetch throws at the [await]. *)
Definition fetch (url : string) (init : RequestInit) : Prog Response :=
  Fetch url init (fun o =>
    match o with
    | inl response => Ret response
    | inr e => Throw e
    end).

(** What a failed read of the body stream throws; every handler that can
    receive it discards it. *)
Definition bodyError : Thrown := ErrorObject "Failed to read the response body".

(** [await response.text()] *)
Definition text (response : Response) : Prog string :=
  ReadBody response (fun b =>
    match b with
    | Some t => Ret t
    | None => Throw bodyError
    end).

(** What the module reads from its environment: the build-time variable
    [import.meta.env.VITE_API_URL] and the two JSON built-ins.  [JSON_parse]
    answers [None] where [JSON.parse] throws a [SyntaxError]. *)
Class Runtime : Type := {
  VITE_API_URL : option string;
  JSON_parse : string -> option JsonValue;
  JSON_stringify : JsonValue -> string
}.

Module ApiClient.

Section WithRuntime.

Context {rt : Runtime}.

(** [const API_URL = import.meta.env.VITE_API_URL || 'http://localhost:3000/api'] *)
Definition API_URL : string :=
  match VITE_API_URL with
  | Some u => if Js.nonEmpty u then u else "http://localhost:3000/api"
  | None => "http://localhost:3000/api"
  end.

(** [ApiClient.formatUrl], with the names of its two locals. *)
Definition cleanEndpoint (endpoint : string) : string :=
  if Js.startsWith endpoint "/" then Js.slice1 endpoint else endpoint.

Definition baseUrl : string :=
  if Js.endsWithSlash API_URL then Js.dropLast API_URL else API_URL.

Definition formatUrl (endpoint : string) : string :=
  (* If it's a full URL, use it as is *)
  if Js.startsWith endpoint "http" then endpoint
  else baseUrl ++ "/" ++ cleanEndpoint endpoint.

(** [await response.json()]: the body read and parsed. *)
Definition json (response : Response) : Prog JsonValue :=
  t <- text response ;;
  match JSON_parse t with
  | Some v => Ret v
  | None => Throw (ErrorObject "Unexpected token in JSON")
  end.

(** [JSON.parse(s)] inside a [try] *)
Definition parse (s : string) : Prog JsonValue :=
  match JSON_parse s with
  | Some v => Ret v
  | None => Throw (ErrorObject "Unexpected token in JSON")
  end.

(* --------------------------------------------------------------------- *)
(** *** [ApiClient]: reading and writing the store *)
(* --------------------------------------------------------------------- *)

(** [authState.tokens?.accessToken || null] *)
Definition accessToken_of (st : AuthState) : option string :=
  match tokens st with
  | Some t => Js.orNull (accessToken t)
  | None => None
  end.

(** [authState.tokens?.refreshToken || null] *)
Definition refreshToken_of (st : AuthState) : option string :=
  match tokens st with
  | Some t => Js.orNull (refreshToken t)
  | None => None
  end.

(** [ApiClient.getAuthToken] *)
Definition getAuthToken : Prog (option string) :=
  authState <- getState ;; Ret (accessToken_of authState).

(** [ApiClient.getRefreshToken] *)
Definition getRefreshToken : Prog (option string) :=
  authState <- getState ;; Ret (refreshToken_of authState).

(** [ApiClient.updateTokens] *)
Definition updateTokens (newTokens : option AuthTokens) : Prog unit :=
  authState <- getState ;;
  setState (set_session (user authState) newTokens (isAuthenticated authState)).

(** [ApiClient.processQueue]: [requestsQueue] is always empty, so no
    callback runs. *)
Definition processQueue (success : bool) : Prog unit := Ret tt.

(** [data.tokens] as the store keeps it: reading a property of [null]
    throws; a value that is not an object has no token fields.  [AuthTokens]
    declares both fields as strings, and the store below keeps strings: a
    field that is not a string is read as a missing one here, where the code
    would keep the value as it came.  The theorems that read tokens from a
    response body are stated for bodies of the declared type
    ([Typed.tokenFields]). *)
Definition stringField (fs : list (string * JsonValue)) (k : string) : string :=
  match Json.lookup k fs with
  | Some (JStr s) => s
  | _ => EmptyString
  end.

Definition tokensOf (data : JsonValue) : Prog (option AuthTokens) :=
  match data with
  | JNull => Throw (ErrorObject "Cannot read properties of null (reading 'tokens')")
  | _ =>
      match Json.prop data "tokens" with
      | Some (JObj fs) =>
          Ret (Some {| accessToken := stringField fs "accessToken";
                       refreshToken := stringField fs "refreshToken" |})
      | _ => Ret None
      end
  end.

(* --------------------------------------------------------------------- *)
(** *** [ApiClient.refreshToken] *)
(* --------------------------------------------------------------------- *)

Definition jsonHeaders : Headers := [("Content-Type", "application/json")].

Definition refreshInit (rt0 : string) : RequestInit :=
  {| init_method := POST;
     init_headers := jsonHeaders;
     init_body := Some (JSON_stringify (JObj [("refreshToken", JStr rt0)])) |}.

(** The [async (resolve) => { try ... catch ... finally ... }] handed to
    [new Promise]; [p] is the promise that [resolve] settles. *)
Definition refreshExecutor (p : PromiseId) : Prog unit :=
  try_finally
    (try_catch
       (stored <- getRefreshToken ;;
        match stored with
        | None =>
            (* No refresh token available, logout *)
            callLogout ;; resolve p false
        | Some rt0 =>
            response <- fetch (formatUrl "users/refresh-token") (refreshInit rt0) ;;
            if negb (resp_ok response) then
              (* Refresh token is invalid, logout *)
              callLogout ;; resolve p false
            else
              data <- json response ;;
              newTokens <- tokensOf data ;;
              updateTokens newTokens ;;
              resolve p true
        end)
       (fun _ => callLogout ;; resolve p false))
    (setThis (fun _ => {| isRefreshing := false; refreshPromise := None |})).

(** [ApiClient.refreshToken].  A [refreshPromise] that is [null] is awaited
    to [null], which the caller reads as a failure. *)
Definition awaitRefreshPromise : Prog bool :=
  this <- getThis ;;
  match refreshPromise this with
  | Some p => await p
  | None => Ret false
  end.

Definition refreshToken : Prog bool :=
  this <- getThis ;;
  if isRefreshing this then awaitRefreshPromise
  else
    setThis (fun c => {| isRefreshing := true; refreshPromise := refreshPromise c |}) ;;
    NewPromise refreshExecutor (fun p =>
      setThis (fun c => {| isRefreshing := isRefreshing c; refreshPromise := Some p |}) ;;
      success <- awaitRefreshPromise ;;
      processQueue success ;;
      Ret success).

(* --------------------------------------------------------------------- *)
(** *** [ApiClient.request] *)
(* --------------------------------------------------------------------- *)

Definition or_default {A : Type} (o : option A) (d : A) : A :=
  match o with Some a => a | None => d end.

(** [if (body) { requestOptions.body = JSON.stringify(body) }], for a body
    that is a JSON value, which [JSON.stringify] prints.  The parameter is
    typed [any]: a body on which [JSON.stringify] throws (a cyclic object,
    a BigInt) is not a [JsonValue], and what the first call, which stands
    before the [try], does with it is outside this development. *)
Definition bodyOf (body : option JsonValue) : option string :=
  match body with
  | Some v => if Json.truthy v then Some (JSON_stringify v) else None
  | None => None
  end.

(** The test that sends a response to the JSON branch. *)
Definition isJsonResponse (contentType : option string) (responseText : option string) : bool :=
  match contentType with
  | Some ct =>
      Js.nonEmpty ct &&
      (Js.includes ct "application/json"
       || Js.includes ct "text/json"
       || match responseText with
          | Some t => Js.nonEmpty t && Js.trimStartsWith t "{"
          | None => false
          end)
  | None => false
  end.

(** [if (responseText)] *)
Definition truthyText (responseText : option string) : option string :=
  match responseText with
  | Some t => Js.orNull t
  | None => None
  end.

(** The "Parse response" block: the pair of [data] and [error] that it
    leaves. *)
Definition parseResponse (response : Response) (responseText : option string)
    : Prog (JsonValue * JsonValue) :=
  try_catch
    (let contentType := resp_contentType response in
     if isJsonResponse contentType responseText then
       try_catch
         (parsed <- match truthyText responseText with
                    | Some t => parse t
                    | None => json response
                    end ;;
          Ret (parsed, JNull))
         (fun _ => Ret (JNull, JStr "Invalid JSON response"))
     else
       Ret (match truthyText responseText with
            | Some t => JObj [("message", JStr t)]
            | None => JNull
            end, JNull))
    (fun _ => Ret (JNull, JNull)).

(** [data?.message || data?.error || response.statusText || 'An error occurred'] *)
Definition errorMessage (d : JsonValue) (response : Response) : JsonValue :=
  Json.orElse (Json.prop d "message")
    (Json.orElse (Json.prop d "error")
       (if Js.nonEmpty (resp_statusText response)
        then JStr (resp_statusText response)
        else JStr "An error occurred")).

Definition authRequired : ApiResponse :=
  {| data := JNull; error := JStr "Authentication required"; status := 401 |}.

Definition authFailed : ApiResponse :=
  {| data := JNull; error := JStr "Authentication failed. Please log in again.";
     status := 401 |}.

(** The result of the outer [catch]. *)
Definition networkFailure (e : Thrown) : ApiResponse :=
  {| data := JNull;
     error := JStr (match e with ErrorObject m => m | NotAnError => "Network error" end);
     status := 0 |}.

Definition request (endpoint : string) (options : RequestOptions) : Prog ApiResponse :=
  let method := or_default (opt_method options) GET in
  let headers := or_default (opt_headers options) [] in
  let body := opt_body options in
  let requiresAuth := or_default (opt_requiresAuth options) true in
  let skipRefreshToken := or_default (opt_skipRefreshToken options) false in
  (* Prepare URL *)
  let url := formatUrl endpoint in
  (* Prepare headers *)
  let requestHeaders := spread jsonHeaders headers in
  (* Add auth token if required *)
  prepared <- (if requiresAuth then
                 token <- getAuthToken ;;
                 match token with
                 | Some t => Ret (inl (obj_set "Authorization" ("Bearer " ++ t) requestHeaders))
                 | None => Ret (inr authRequired)
                 end
               else Ret (inl requestHeaders)) ;;
  match prepared with
  | inr early => Ret early
  | inl requestHeaders =>
      let requestOptions :=
        {| init_method := method; init_headers := requestHeaders;
           init_body := bodyOf body |} in
      try_catch
        ((* Make the request *)
         response <- fetch url requestOptions ;;
         let status0 := resp_status response in
         responseText <- try_catch (t <- text response ;; Ret (Some t))
                                   (fun _ => Ret None) ;;
         (* Handle token refresh if unauthorized *)
         refreshed <-
           (if (status0 =? 401) && requiresAuth && negb skipRefreshToken then
              refreshSuccess <- refreshToken ;;
              if negb refreshSuccess then Ret (inr authFailed)
              else
                (* Retry the request with the new token *)
                token <- getAuthToken ;;
                match token with
                | Some t =>
                    let newHeaders :=
                      spread [("Content-Type", "application/json");
                              ("Authorization", "Bearer " ++ t)] headers in
                    let newRequestOptions :=
                      {| init_method := method; init_headers := newHeaders;
                         init_body := bodyOf body |} in
                    response' <- fetch url newRequestOptions ;;
                    Ret (inl response')
                | None => Ret (inl response)
                end
            else Ret (inl response)) ;;
         match refreshed with
         | inr early => Ret early
         | inl response =>
             (* Parse response *)
             parsed <- parseResponse response responseText ;;
             let '(d, e) := parsed in
             (* Check if response is not ok *)
             let e' := if negb (resp_ok response) then errorMessage d response else e in
             Ret {| data := d; error := e'; status := resp_status response |}
         end)
        (fun e => Ret (networkFailure e))
  end.

(** [ApiClient.post] *)
Definition post (endpoint : string) (body : JsonValue) (options : RequestOptions)
    : Prog ApiResponse :=
  request endpoint
    {| opt_method := Some POST;
       opt_headers := opt_headers options;
       opt_body := Some body;
       opt_requiresAuth := opt_requiresAuth options;
       opt_skipRefreshToken := opt_skipRefreshToken options |}.

Definition noOptions : RequestOptions :=
  {| opt_method := None; opt_headers := None; opt_body := None;
     opt_requiresAuth := None; opt_skipRefreshToken := None |}.

End WithRuntime.

End ApiClient.

(* ===================================================================== *)
(** ** [useAuthStore]: the [logout] action *)
(* ===================================================================== *)

Module AuthStore.

Section WithRuntime.

Context {rt : Runtime}.

Definition logout : Prog unit :=
  try_finally
    (try_catch
       (st <- getState ;;
        (* Only attempt logout if we have tokens *)
        match ApiClient.accessToken_of st with
        | Some _ => ApiClient.post "users/logout" (JObj []) ApiClient.noOptions ;; Ret tt
        | None => Ret tt
        end)
       (fun _ => Ret tt))
    (setState (set_session None None false)).

End WithRuntime.

End AuthStore.

(* ===================================================================== *)
(** ** The event loop *)
(* ===================================================================== *)

(** A suspended task: what it waits for and how it goes on.  [io] numbers
    the network operations in the order they were started. *)
Inductive Task : Type :=
| WaitFetch (io : nat) (k : Response + Thrown -> Prog unit)
| WaitBody (io : nat) (r : Response) (k : option string -> Prog unit)
| WaitPromise (p : PromiseId) (k : bool -> Prog unit).

(** A [fetch] call as the backend sees it. *)
Record NetCall : Type := {
  call_io : nat;
  call_url : string;
  call_init : RequestInit
}.

(** The whole page: the store, the client singleton, the promises created
    so far ([None] while pending), the suspended tasks in the order they
    were suspended, the [fetch] calls issued, the values handed back to
    callers, and the rejections nobody handled. *)
Record Sys : Type := {
  store : AuthState;
  this : ClientFields;
  promises : list (option bool);
  tasks : list Task;
  next_io : nat;
  network : list NetCall;
  delivered : list Delivered;
  unhandled : list Thrown
}.

Definition upd_store (f : AuthState -> AuthState) (s : Sys) : Sys :=
  {| store := f (store s); this := this s; promises := promises s;
     tasks := tasks s; next_io := next_io s; network := network s;
     delivered := delivered s; unhandled := unhandled s |}.

Definition upd_this (f : ClientFields -> ClientFields) (s : Sys) : Sys :=
  {| store := store s; this := f (this s); promises := promises s;
     tasks := tasks s; next_io := next_io s; network := network s;
     delivered := delivered s; unhandled := unhandled s |}.

Definition set_tasks (ts : list Task) (s : Sys) : Sys :=
  {| store := store s; this := this s; promises := promises s;
     tasks := ts; next_io := next_io s; network := network s;
     delivered := delivered s; unhandled := unhandled s |}.

(** Suspend on a network operation: it takes the next number. *)
Definition suspend_io (t : nat -> Task) (s : Sys) : Sys :=
  {| store := store s; this := this s; promises := promises s;
     tasks := tasks s ++ [t (next_io s)]; next_io := S (next_io s);
     network := network s; delivered := delivered s; unhandled := unhandled s |}.

Definition suspend (t : Task) (s : Sys) : Sys :=
  set_tasks (tasks s ++ [t]) s.

Definition log_call (url : string) (init : RequestInit) (s : Sys) : Sys :=
  {| store := store s; this := this s; promises := promises s;
     tasks := tasks s; next_io := next_io s;
     network := network s ++ [{| call_io := next_io s; call_url := url; call_init := init |}];
     delivered := delivered s; unhandled := unhandled s |}.

Definition add_promise (s : Sys) : Sys :=
  {| store := store s; this := this s; promises := promises s ++ [None];
     tasks := tasks s; next_io := next_io s; network := network s;
     delivered := delivered s; unhandled := unhandled s |}.

(** [resolve(v)]: a promise that is already settled keeps its value. *)
Fixpoint settle_at (p : nat) (v : bool) (ps : list (option bool)) : list (option bool) :=
  match ps, p with
  | [], _ => []
  | None :: rest, O => Some v :: rest
  | Some w :: rest, O => Some w :: rest
  | x :: rest, S p' => x :: settle_at p' v rest
  end.

Definition settle (p : PromiseId) (v : bool) (s : Sys) : Sys :=
  {| store := store s; this := this s; promises := settle_at p v (promises s);
     tasks := tasks s; next_io := next_io s; network := network s;
     delivered := delivered s; unhandled := unhandled s |}.

Definition add_delivered (d : Delivered) (s : Sys) : Sys :=
  {| store := store s; this := this s; promises := promises s;
     tasks := tasks s; next_io := next_io s; network := network s;
     delivered := delivered s ++ [d]; unhandled := unhandled s |}.

Definition add_unhandled (e : Thrown) (s : Sys) : Sys :=
  {| store := store s; this := this s; promises := promises s;
     tasks := tasks s; next_io := next_io s; network := network s;
     delivered := delivered s; unhandled := unhandled s ++ [e] |}.

Arguments upd_store f s /.
Arguments upd_this f s /.
Arguments set_tasks ts s /.
Arguments suspend_io t s /.
Arguments suspend t s /.
Arguments log_call url init s /.
Arguments add_promise s /.
Arguments settle p v s /.
Arguments add_delivered d s /.
Arguments add_unhandled e s /.

(** One turn of a task: it runs until it finishes or reaches an [await].
    [new Promise(executor)] runs the executor at once, up to its own first
    [await], before the creator goes on.  [startLogout] is what a call of
    [logout()] does within the turn. *)
Fixpoint run_with (startLogout : Sys -> Sys) (p : Prog unit) (s : Sys) : Sys :=
  match p with
  | Ret _ => s
  | Throw e => add_unhandled e s
  | GetAuth k => run_with startLogout (k (store s)) s
  | SetAuth f k => run_with startLogout k (upd_store f s)
  | GetThis k => run_with startLogout (k (this s)) s
  | SetThis f k => run_with startLogout k (upd_this f s)
  | Fetch url init k => suspend_io (fun io => WaitFetch io k) (log_call url init s)
  | ReadBody r k => suspend_io (fun io => WaitBody io r k) s
  | NewPromise executor k =>
      let p := length (promises s) in
      let s1 := run_with startLogout (executor p) (add_promise s) in
      run_with startLogout (k p) s1
  | Resolve p v k => run_with startLogout k (settle p v s)
  | Await p k => suspend (WaitPromise p k) s
  | CallLogout k => run_with startLogout k (startLogout s)
  | Deliver d k => run_with startLogout k (add_delivered d s)
  end.

Section Loop.

Context {rt : Runtime}.

(** [logout()] called and not awaited: its first turn runs inside the
    caller's.  That turn ends at the [fetch] of [users/logout] or with the
    store cleared, before any further call of [logout] (see
    [logout_first_turn]), so what a nested call would do is immaterial. *)
Definition startLogout (s : Sys) : Sys :=
  run_with (fun s' => s') AuthStore.logout s.

Definition run (p : Prog unit) (s : Sys) : Sys := run_with startLogout p s.

(** The first task, in suspension order, whose promise is settled. *)
Fixpoint take_ready (ps : list (option bool)) (ts : list Task)
    : option (Prog unit * list Task) :=
  match ts with
  | [] => None
  | t :: rest =>
      let later :=
        match take_ready ps rest with
        | Some (q, rest') => Some (q, t :: rest')
        | None => None
        end in
      match t with
      | WaitPromise p k =>
          match nth_error ps p with
          | Some (Some v) => Some (k v, rest)
          | _ => later
          end
      | _ => later
      end
  end.

(** The microtask queue: tasks whose promise is settled are resumed, one
    turn each, until none is left. *)
Fixpoint drain (fuel : nat) (s : Sys) : Sys :=
  match fuel with
  | O => s
  | S fuel' =>
      match take_ready (promises s) (tasks s) with
      | Some (q, rest) => drain fuel' (run q (set_tasks rest s))
      | None => s
      end
  end.

(** A turn started from outside (a call, or a network completion) followed
    by the microtasks it made ready.  A task resumed from a promise never
    waits on a promise again in this client, so a pass per suspended
    task is enough. *)
Definition turn (p : Prog unit) (s : Sys) : Sys :=
  let s' := run p s in
  drain (S (length (tasks s'))) s'.

Fixpoint take_fetch (io : nat) (ts : list Task)
    : option ((Response + Thrown -> Prog unit) * list Task) :=
  match ts with
  | [] => None
  | t :: rest =>
      let later :=
        match take_fetch io rest with
        | Some (k, rest') => Some (k, t :: rest')
        | None => None
        end in
      match t with
      | WaitFetch io' k => if Nat.eqb io io' then Some (k, rest) else later
      | _ => later
      end
  end.

Fixpoint take_body (io : nat) (ts : list Task)
    : option (Prog unit * list Task) :=
  match ts with
  | [] => None
  | t :: rest =>
      let later :=
        match take_body io rest with
        | Some (q, rest') => Some (q, t :: rest')
        | None => None
        end in
      match t with
      | WaitBody io' r k => if Nat.eqb io io' then Some (k (resp_body r), rest) else later
      | _ => later
      end
  end.

(** What happens to the page from outside: a caller starts an async
    function, a [fetch] settles (with a response, or rejected), a body read
    completes. *)
Inductive Event : Type :=
| Start (p : Prog unit)
| FetchSettles (io : nat) (outcome : Response + Thrown)
| BodyRead (io : nat).

Definition step (s : Sys) (ev : Event) : Sys :=
  match ev with
  | Start p => turn p s
  | FetchSettles io outcome =>
      match take_fetch io (tasks s) with
      | Some (k, rest) => turn (k outcome) (set_tasks rest s)
      | None => s
      end
  | BodyRead io =>
      match take_body io (tasks s) with
      | Some (q, rest) => turn q (set_tasks rest s)
      | None => s
      end
  end.

Definition exec (s : Sys) (evs : list Event) : Sys := fold_left step evs s.

(** A caller outside the client: [const r = await apiClient.request(...)]. *)
Definition callRequest (caller : nat) (endpoint : string) (options : RequestOptions)
    : Prog unit :=
  r <- ApiClient.request endpoint options ;; deliver (GotResponse caller r).

(** The same for the coordinator on its own. *)
Definition callRefreshToken (caller : nat) : Prog unit :=
  b <- ApiClient.refreshToken ;; deliver (GotBoolean caller b).

(** A freshly loaded page holding the persisted session [st]. *)
Definition page (st : AuthState) : Sys :=
  {| store := st;
     this := {| isRefreshing := false; refreshPromise := None |};
     promises := []; tasks := []; next_io := O; network := [];
     delivered := []; unhandled := [] |}.

End Loop.

(* ===================================================================== *)
(** ** A concrete runtime *)
(* ===================================================================== *)

(** A reader and a printer for the JSON texts of the scenarios below:
    objects, arrays, strings with the one-letter escapes, integers and the
    three literals.  It is not the whole of [JSON.parse]: a number with a
    fraction or an exponent is not read, and the scenarios use no object
    with a repeated key.  The general theorems are stated over any
    [Runtime] and do not depend on it. *)
Module Browser.

(** The double quote. *)
Definition dquote : ascii := "034"%char.

Definition isSpace (c : ascii) : bool :=
  let n := nat_of_ascii c in
  (Nat.eqb n 32 || Nat.eqb n 9 || Nat.eqb n 10 || Nat.eqb n 13)%bool.

Fixpoint skipSpace (s : string) : string :=
  match s with
  | String c s' => if isSpace c then skipSpace s' else s
  | EmptyString => s
  end.

Definition digitOf (c : ascii) : option Z :=
  let n := nat_of_ascii c in
  if (Nat.leb 48 n && Nat.leb n 57)%bool then Some (Z.of_nat (n - 48)) else None.

Fixpoint readDigits (acc : Z) (s : string) : Z * string :=
  match s with
  | String c s' =>
      match digitOf c with
      | Some d => readDigits (10 * acc + d) s'
      | None => (acc, s)
      end
  | EmptyString => (acc, s)
  end.

(** The characters of a string literal after its opening quote. *)
Fixpoint readString (s : string) : option (string * string) :=
  match s with
  | EmptyString => None
  | String c s' =>
      if Ascii.eqb c dquote then Some (EmptyString, s')
      else if Ascii.eqb c "\" then
        match s' with
        | String e s'' =>
            let put (x : ascii) :=
              match readString s'' with
              | Some (t, rest) => Some (String x t, rest)
              | None => None
              end in
            if Ascii.eqb e dquote then put dquote
            else if Ascii.eqb e "\" then put "\"%char
            else if Ascii.eqb e "/" then put "/"%char
            else if Ascii.eqb e "n" then put (ascii_of_nat 10)
            else if Ascii.eqb e "t" then put (ascii_of_nat 9)
            else if Ascii.eqb e "r" then put (ascii_of_nat 13)
            else None
        | EmptyString => None
        end
      else if Nat.ltb (nat_of_ascii c) 32 then None
      else
        match readString s' with
        | Some (t, rest) => Some (String c t, rest)
        | None => None
        end
  end.

Definition readNumber (s : string) : option (JsonValue * string) :=
  match s with
  | String c s' =>
      if Ascii.eqb c "-" then
        match s' with
        | String d _ =>
            match digitOf d with
            | Some _ => let '(n, rest) := readDigits 0 s' in Some (JNum (- n), rest)
            | None => None
            end
        | EmptyString => None
        end
      else
        match digitOf c with
        | Some _ => let '(n, rest) := readDigits 0 s in Some (JNum n, rest)
        | None => None
        end
  | EmptyString => None
  end.

Fixpoint readValue (fuel : nat) (s : string) : option (JsonValue * string) :=
  match fuel with
  | O => None
  | S fuel' =>
      let readItems :=
        fix readItems (n : nat) (s : string) : option (list JsonValue * string) :=
          match n with
          | O => None
          | S n' =>
              match readValue fuel' s with
              | Some (v, rest) =>
                  match skipSpace rest with
                  | String c rest' =>
                      if Ascii.eqb c "," then
                        match readItems n' rest' with
                        | Some (vs, rest'') => Some (v :: vs, rest'')
                        | None => None
                        end
                      else if Ascii.eqb c "]" then Some ([v], rest')
                      else None
                  | EmptyString => None
                  end
              | None => None
              end
          end in
      let readFields :=
        fix readFields (n : nat) (s : string)
            : option (list (string * JsonValue) * string) :=
          match n with
          | O => None
          | S n' =>
              match skipSpace s with
              | String q s1 =>
                  if Ascii.eqb q dquote then
                    match readString s1 with
                    | Some (k, s2) =>
                        match skipSpace s2 with
                        | String colon s3 =>
                            if Ascii.eqb colon ":" then
                              match readValue fuel' s3 with
                              | Some (v, s4) =>
                                  match skipSpace s4 with
                                  | String c s5 =>
                                      if Ascii.eqb c "," then
                                        match readFields n' s5 with
                                        | Some (fs, s6) => Some ((k, v) :: fs, s6)
                                        | None => None
                                        end
                                      else if Ascii.eqb c "}" then Some ([(k, v)], s5)
                                      else None
                                  | EmptyString => None
                                  end
                              | None => None
                              end
                            else None
                        | EmptyString => None
                        end
                    | None => None
                    end
                  else None
              | EmptyString => None
              end
          end in
      match skipSpace s with
      | EmptyString => None
      | String c s' =>
          if Ascii.eqb c "{" then
            match skipSpace s' with
            | String c' s'' =>
                if Ascii.eqb c' "}" then Some (JObj [], s'')
                else
                  match readFields fuel' s' with
                  | Some (fs, rest) => Some (JObj fs, rest)
                  | None => None
                  end
            | EmptyString => None
            end
          else if Ascii.eqb c "[" then
            match skipSpace s' with
            | String c' s'' =>
                if Ascii.eqb c' "]" then Some (JArr [], s'')
                else
                  match readItems fuel' s' with
                  | Some (vs, rest) => Some (JArr vs, rest)
                  | None => None
                  end
            | EmptyString => None
            end
          else if Ascii.eqb c dquote then
            match readString s' with
            | Some (t, rest) => Some (JStr t, rest)
            | None => None
            end
          else if Js.startsWith (String c s') "true" then
            Some (JBool true, Js.slice1 (Js.slice1 (Js.slice1 s')))
          else if Js.startsWith (String c s') "false" then
            Some (JBool false, Js.slice1 (Js.slice1 (Js.slice1 (Js.slice1 s'))))
          else if Js.startsWith (String c s') "null" then
            Some (JNull, Js.slice1 (Js.slice1 (Js.slice1 s')))
          else readNumber (String c s')
      end
  end.

Definition parse (s : string) : option JsonValue :=
  match readValue (S (String.length s)) s with
  | Some (v, rest) =>
      match skipSpace rest with
      | EmptyString => Some v
      | String _ _ => None
      end
  | None => None
  end.

Fixpoint quoteChars (s : string) : string :=
  match s with
  | EmptyString => EmptyString
  | String c s' =>
      if (Ascii.eqb c dquote || Ascii.eqb c "\")%bool
      then String "\" (String c (quoteChars s'))
      else String c (quoteChars s')
  end.

Definition quote (s : string) : string :=
  String dquote (quoteChars s ++ String dquote EmptyString).

Fixpoint digits (fuel : nat) (n : Z) (acc : string) : string :=
  match fuel with
  | O => acc
  | S fuel' =>
      let acc' := String (ascii_of_nat (48 + Z.to_nat (n mod 10))) acc in
      if n / 10 =? 0 then acc' else digits fuel' (n / 10) acc'
  end.

Definition printNumber (n : Z) : string :=
  if n <? 0 then "-" ++ digits (Z.to_nat (- n)) (- n) EmptyString
  else digits (S (Z.to_nat n)) n EmptyString.

Fixpoint print (v : JsonValue) : string :=
  match v with
  | JNull => "null"
  | JBool true => "true"
  | JBool false => "false"
  | JNum n => printNumber n
  | JStr s => quote s
  | JArr vs =>
      let printItems :=
        fix printItems (vs : list JsonValue) : string :=
          match vs with
          | [] => EmptyString
          | [v] => print v
          | v :: rest => print v ++ "," ++ printItems rest
          end in
      "[" ++ printItems vs ++ "]"
  | JObj fs =>
      let printFields :=
        fix printFields (fs : list (string * JsonValue)) : string :=
          match fs with
          | [] => EmptyString
          | [(k, v)] => quote k ++ ":" ++ print v
          | (k, v) :: rest => quote k ++ ":" ++ print v ++ "," ++ printFields rest
          end in
      "{" ++ printFields fs ++ "}"
  end.

(** The page of the scenarios: its base URL is [http://host/api]. *)
Definition runtime : Runtime :=
  {| VITE_API_URL := Some "http://host/api";
     JSON_parse := parse;
     JSON_stringify := print |}.

End Browser.

(* ===================================================================== *)
(** ** Properties of programs *)
(* ===================================================================== *)

(** No path through the program ends in an exception, whatever the store,
    the network and the promises answer; [E] is what is asked of the
    executors it hands to [new Promise]. *)
Inductive NoThrowWith (E : Prog unit -> Prop) (R : Type) : Prog R -> Prop :=
| NT_Ret (r : R) : NoThrowWith E (Ret r)
| NT_GetAuth (k : AuthState -> Prog R) :
    (forall st, NoThrowWith E (k st)) -> NoThrowWith E (GetAuth k)
| NT_SetAuth f (k : Prog R) : NoThrowWith E k -> NoThrowWith E (SetAuth f k)
| NT_GetThis (k : ClientFields -> Prog R) :
    (forall c, NoThrowWith E (k c)) -> NoThrowWith E (GetThis k)
| NT_SetThis f (k : Prog R) : NoThrowWith E k -> NoThrowWith E (SetThis f k)
| NT_Fetch url init (k : Response + Thrown -> Prog R) :
    (forall o, NoThrowWith E (k o)) -> NoThrowWith E (Fetch url init k)
| NT_ReadBody r (k : option string -> Prog R) :
    (forall t, NoThrowWith E (k t)) -> NoThrowWith E (ReadBody r k)
| NT_NewPromise ex (k : PromiseId -> Prog R) :
    (forall p, E (ex p)) -> (forall p, NoThrowWith E (k p)) ->
    NoThrowWith E (NewPromise ex k)
| NT_Resolve p v (k : Prog R) : NoThrowWith E k -> NoThrowWith E (Resolve p v k)
| NT_Await p (k : bool -> Prog R) :
    (forall v, NoThrowWith E (k v)) -> NoThrowWith E (Await p k)
| NT_CallLogout (k : Prog R) : NoThrowWith E k -> NoThrowWith E (CallLogout k)
| NT_Deliver d (k : Prog R) : NoThrowWith E k -> NoThrowWith E (Deliver d k).

(** An executor that never throws and creates no promise of its own. *)
Definition ExecutorNoThrow : Prog unit -> Prop :=
  NoThrowWith (fun _ => False) (R := unit).

(** A program that never throws, and whose executors never throw. *)
Definition NoThrow {R : Type} : Prog R -> Prop := NoThrowWith ExecutorNoThrow (R := R).


(** Along every path, the program awaits at most [fetches] calls of
    [fetch] of its own and waits for the refresh coordinator at most
    [refreshes] times, and it does not turn to the coordinator once its last
    [fetch] is spent. *)
Inductive Attempts : nat -> nat -> Prog ApiResponse -> Prop :=
| At_Ret f w r : Attempts f w (Ret r)
| At_Throw f w e : Attempts f w (Throw e)
| At_GetAuth f w k : (forall st, Attempts f w (k st)) -> Attempts f w (GetAuth k)
| At_SetAuth f w g k : Attempts f w k -> Attempts f w (SetAuth g k)
| At_GetThis f w k : (forall c, Attempts f w (k c)) -> Attempts f w (GetThis k)
| At_SetThis f w g k : Attempts f w k -> Attempts f w (SetThis g k)
| At_Fetch f w url init k :
    (forall o, Attempts f (Nat.min w f) (k o)) -> Attempts (S f) w (Fetch url init k)
| At_ReadBody f w r k : (forall t, Attempts f w (k t)) -> Attempts f w (ReadBody r k)
| At_NewPromise f w ex k :
    (forall p, Attempts f (S w) (k p)) -> Attempts f (S w) (NewPromise ex k)
| At_Resolve f w p v k : Attempts f w k -> Attempts f w (Resolve p v k)
| At_Await f w p k : (forall v, Attempts f w (k v)) -> Attempts f (S w) (Await p k)
| At_CallLogout f w k : Attempts f w k -> Attempts f w (CallLogout k)
| At_Deliver f w d k : Attempts f w k -> Attempts f w (Deliver d k).

(** A task that touches neither the store nor the client's fields nor any
    promise: it only talks to the network and to its caller. *)
Inductive StoreBlind : Prog unit -> Prop :=
| SB_Ret u : StoreBlind (Ret u)
| SB_Throw e : StoreBlind (Throw e)
| SB_Fetch url init k : (forall o, StoreBlind (k o)) -> StoreBlind (Fetch url init k)
| SB_ReadBody r k : (forall t, StoreBlind (k t)) -> StoreBlind (ReadBody r k)
| SB_Deliver d k : StoreBlind k -> StoreBlind (Deliver d k).

Definition blindTask (t : Task) : Prop :=
  match t with
  | WaitFetch _ k => forall o, StoreBlind (k o)
  | WaitBody _ _ k => forall b, StoreBlind (k b)
  | WaitPromise _ _ => False
  end.

(** An event that starts nothing but store-blind tasks. *)
Definition blindEvent (ev : Event) : Prop :=
  match ev with
  | Start p => StoreBlind p
  | _ => True
  end.

(** The same page with another session in its store. *)
Definition with_store (st : AuthState) (s : Sys) : Sys := upd_store (fun _ => st) s.

(** Tasks and events that cannot throw, and a page on which nothing was
    thrown and nothing suspended can throw. *)
Definition calmTask (t : Task) : Prop :=
  match t with
  | WaitFetch _ k => forall o, NoThrow (k o)
  | WaitBody _ _ k => forall b, NoThrow (k b)
  | WaitPromise _ k => forall v, NoThrow (k v)
  end.

Definition calmEvent (ev : Event) : Prop :=
  match ev with
  | Start p => NoThrow p
  | _ => True
  end.

Definition calm (s : Sys) : Prop := unhandled s = [] /\ Forall calmTask (tasks s).

(** The decoding rule in the words of the specification. *)
Module Spec.

(** The body's first character that is not white space. *)
Definition firstNonWhite (t : string) : option ascii :=
  match Js.trimStart t with
  | String c _ => Some c
  | EmptyString => None
  end.

Definition startsWithBrace (t : string) : bool :=
  match firstNonWhite t with
  | Some c => Ascii.eqb "{" c
  | None => false
  end.

(** "The content type indicates JSON". *)
Definition namesJson (contentType : option string) : bool :=
  match contentType with
  | Some ct => Js.includes ct "application/json" || Js.includes ct "text/json"
  | None => false
  end.

(** "... when the content type indicates JSON or the body's first
    non-whitespace character is [{]". *)
Definition decodesAsStated (r : Response) (t : string) : bool :=
  namesJson (resp_contentType r) || startsWithBrace t.

(** The same rule behind the guard that the code puts before it: a
    [Content-Type] header must be there, and not empty. *)
Definition decodesAsJson (r : Response) (t : string) : bool :=
  match resp_contentType r with
  | Some ct =>
      Js.nonEmpty ct &&
      (Js.includes ct "application/json" || Js.includes ct "text/json"
       || startsWithBrace t)
  | None => false
  end.

End Spec.

(* ===================================================================== *)
(** ** Scenarios *)
(* ===================================================================== *)

Module Scenario.

#[local] Existing Instance Browser.runtime.

(** A logged-in session. *)
Definition alice : User :=
  {| user_id := "u1"; user_email := "alice@example.org"; user_name := "Alice" |}.

Definition session (access refresh : string) : AuthState :=
  {| user := Some alice;
     tokens := Some {| accessToken := access; refreshToken := refresh |};
     isAuthenticated := true; isLoading := false; auth_error := None |}.

Definition jsonResponse (code : Z) (reason : string) (body : JsonValue) : Response :=
  {| resp_status := code; resp_statusText := reason;
     resp_contentType := Some "application/json";
     resp_body := Some (Browser.print body) |}.

(** The backend's answers. *)
Definition unauthorized : Response :=
  jsonResponse 401 "Unauthorized" (JObj [("message", JStr "jwt expired")]).

Definition unauthorizedEmpty : Response :=
  {| resp_status := 401; resp_statusText := "Unauthorized";
     resp_contentType := None; resp_body := Some EmptyString |}.

Definition forbidden : Response :=
  jsonResponse 403 "Forbidden" (JObj [("message", JStr "invalid refresh token")]).

Definition newTokens : Response :=
  jsonResponse 200 "OK"
    (JObj [("tokens", JObj [("accessToken", JStr "a2"); ("refreshToken", JStr "r2")])]).

Definition okTrue : Response := jsonResponse 200 "OK" (JObj [("ok", JBool true)]).

(** [apiClient.get('items')] by caller 0 on a page holding the pair
    [a1], [r1]. *)
Definition getItems : Event := Start (callRequest 0 "items" ApiClient.noOptions).

(** First call 401, refresh succeeds, retried call 200 with [{ok: true}]. *)
Definition refreshAndRetry (first : Response) : list Event :=
  [ getItems;
    FetchSettles 0 (inl first); BodyRead 1;
    FetchSettles 2 (inl newTokens); BodyRead 3;
    FetchSettles 4 (inl okTrue); BodyRead 5 ].

(** First call 401, the refresh call itself 403. *)
Definition refreshRefused : list Event :=
  [ getItems;
    FetchSettles 0 (inl unauthorized); BodyRead 1;
    FetchSettles 2 (inl forbidden) ].

(** ... and then the [users/logout] call, sent with the stale access
    token, is answered 401 as well. *)
Definition logoutUnauthorized : list Event :=
  refreshRefused ++ [ FetchSettles 3 (inl unauthorized); BodyRead 4 ].

Definition isExchange (c : NetCall) : bool :=
  String.eqb (call_url c) "http://host/api/users/refresh-token".

(** A page that holds no session. *)
Definition loggedOut : AuthState :=
  {| user := None; tokens := None; isAuthenticated := false;
     isLoading := false; auth_error := None |}.

(** A refresh answered 200 with a body that carries no tokens. *)
Definition noTokens : Response := jsonResponse 200 "OK" (JObj []).

(** A body that looks like JSON, sent without a [Content-Type]. *)
Definition bareJson : Response :=
  {| resp_status := 200; resp_statusText := "OK";
     resp_contentType := None;
     resp_body := Some (Browser.print (JObj [("a", JNum 1)])) |}.

Definition publicOptions : RequestOptions :=
  {| opt_method := None; opt_headers := None; opt_body := None;
     opt_requiresAuth := Some false; opt_skipRefreshToken := None |}.

End Scenario.

(* ===================================================================== *)
(** ** More of the client and of the store *)
(* ===================================================================== *)

(** [String(v)], as [new Error(v)] applies it to its argument.  For a
    finite number [String(n)] and [JSON.stringify(n)] are the same text, so
    a number is printed by the runtime. *)
Module JsConvert.

Section WithRuntime.

Context {rt : Runtime}.

Fixpoint toString (v : JsonValue) : string :=
  match v with
  | JNull => "null"
  | JBool true => "true"
  | JBool false => "false"
  | JNum n => JSON_stringify (JNum n)
  | JStr s => s
  | JArr items =>
      (* [Array.prototype.join]: [null] is printed as the empty string *)
      let joinItems :=
        fix joinItems (vs : list JsonValue) : string :=
          match vs with
          | [] => EmptyString
          | v :: rest =>
              let cell := match v with JNull => EmptyString | _ => toString v end in
              match rest with
              | [] => cell
              | _ :: _ => cell ++ "," ++ joinItems rest
              end
          end in
      joinItems items
  | JObj _ => "[object Object]"
  end.

End WithRuntime.

End JsConvert.

(** The convenience methods of [ApiClient] beside [post]. *)
Module ApiMethods.

Section WithRuntime.

Context {rt : Runtime}.

Definition withMethod (m : HttpMethod) (options : RequestOptions) : RequestOptions :=
  {| opt_method := Some m;
     opt_headers := opt_headers options;
     opt_body := opt_body options;
     opt_requiresAuth := opt_requiresAuth options;
     opt_skipRefreshToken := opt_skipRefreshToken options |}.

Definition withMethodAndBody (m : HttpMethod) (body : JsonValue) (options : RequestOptions)
    : RequestOptions :=
  {| opt_method := Some m;
     opt_headers := opt_headers options;
     opt_body := Some body;
     opt_requiresAuth := opt_requiresAuth options;
     opt_skipRefreshToken := opt_skipRefreshToken options |}.

(** [ApiClient.get] *)
Definition get (endpoint : string) (options : RequestOptions) : Prog ApiResponse :=
  ApiClient.request endpoint (withMethod GET options).

(** [ApiClient.put] *)
Definition put (endpoint : string) (body : JsonValue) (options : RequestOptions)
    : Prog ApiResponse :=
  ApiClient.request endpoint (withMethodAndBody PUT body options).

(** [ApiClient.patch] *)
Definition patch (endpoint : string) (body : JsonValue) (options : RequestOptions)
    : Prog ApiResponse :=
  ApiClient.request endpoint (withMethodAndBody PATCH body options).

(** [ApiClient.delete] *)
Definition delete (endpoint : string) (options : RequestOptions) : Prog ApiResponse :=
  ApiClient.request endpoint (withMethod DELETE options).

End WithRuntime.

End ApiMethods.

(** The answers whose session fields have the types that [interface User]
    and [interface AuthTokens] declare.  The store keeps [data.tokens] and
    [data.user] as they come; the record types of this development hold
    strings, so an answer with a token or a user field of another type is
    outside them. *)
Module Typed.

(** The field is a string, or the object has no such field. *)
Definition stringOrAbsent (fs : list (string * JsonValue)) (k : string) : bool :=
  match Json.lookup k fs with
  | None => true
  | Some (JStr _) => true
  | Some _ => false
  end.

(** [data.tokens] is absent, [null], or an object whose [accessToken] and
    [refreshToken] are strings where present. *)
Definition tokenFields (d : JsonValue) : bool :=
  match Json.prop d "tokens" with
  | None => true
  | Some JNull => true
  | Some (JObj fs) => stringOrAbsent fs "accessToken" && stringOrAbsent fs "refreshToken"
  | Some _ => false
  end.

(** [data.user] is absent, falsy, or an object whose [id], [email] and
    [name] are strings where present. *)
Definition userFields (d : JsonValue) : bool :=
  match Json.prop d "user" with
  | None => true
  | Some (JObj fs) =>
      stringOrAbsent fs "id" && stringOrAbsent fs "email" && stringOrAbsent fs "name"
  | Some v => negb (Json.truthy v)
  end.

End Typed.

(** [useAuthStore]: the [login], [register] and [clearError] actions. *)
Module AuthActions.

Section WithRuntime.

Context {rt : Runtime}.

(** [{ requiresAuth: false }] *)
Definition publicCall : RequestOptions :=
  {| opt_method := None; opt_headers := None; opt_body := None;
     opt_requiresAuth := Some false; opt_skipRefreshToken := None |}.

(** [data?.tokens] as the store keeps it: the two string fields of an
    object, nothing for any other value.  The store types both fields as
    strings; a field that is not a string is read as a missing one. *)
Definition tokensIn (d : JsonValue) : option AuthTokens :=
  match Json.prop d "tokens" with
  | Some (JObj fs) =>
      Some {| accessToken := ApiClient.stringField fs "accessToken";
              refreshToken := ApiClient.stringField fs "refreshToken" |}
  | _ => None
  end.

(** [data.user] as the store keeps it: the three string fields, empty
    where the value does not carry them; [None] for a falsy value. *)
Definition userIn (d : JsonValue) : option User :=
  match Json.prop d "user" with
  | Some v =>
      if Json.truthy v then
        match v with
        | JObj fs =>
            Some {| user_id := ApiClient.stringField fs "id";
                    user_email := ApiClient.stringField fs "email";
                    user_name := ApiClient.stringField fs "name" |}
        | _ => Some {| user_id := EmptyString; user_email := EmptyString;
                       user_name := EmptyString |}
        end
      else None
  | None => None
  end.

(** [set({ isLoading: true, error: null })] *)
Definition startLoading (st : AuthState) : AuthState :=
  {| user := user st; tokens := tokens st; isAuthenticated := isAuthenticated st;
     isLoading := true; auth_error := None |}.

(** [set({ user, tokens, isAuthenticated: true, isLoading: false })] *)
Definition signedIn (u : option User) (t : option AuthTokens) (st : AuthState) : AuthState :=
  {| user := u; tokens := t; isAuthenticated := true;
     isLoading := false; auth_error := auth_error st |}.

(** [set({ error: message, isLoading: false })] *)
Definition failedWith (message : string) (st : AuthState) : AuthState :=
  {| user := user st; tokens := tokens st; isAuthenticated := isAuthenticated st;
     isLoading := false; auth_error := Some message |}.

(** The body that [login] and [register] share, from the [set] that starts
    loading to the [catch]: the two differ in the endpoint, in the body they
    post and in what they log. *)
Definition authenticate (endpoint : string) (body : JsonValue) : Prog unit :=
  try_catch
    (setState startLoading ;;
     result <- ApiClient.post endpoint body publicCall ;;
     if Json.truthy (error result) then
       Throw (ErrorObject (JsConvert.toString (error result)))
     else
       match tokensIn (data result) with
       | Some t =>
           if Js.nonEmpty (accessToken t) then
             match userIn (data result) with
             | Some u =>
                 (* Log successful auth *)
                 setState (signedIn (Some u) (Some t))
             | None => Throw (ErrorObject "Invalid response data")
             end
           else Throw (ErrorObject "No authentication token received")
       | None => Throw (ErrorObject "No authentication token received")
       end)
    (fun e =>
       setState (failedWith match e with
                            | ErrorObject m => m
                            | NotAnError => "An unknown error occurred"
                            end)).

(** [login] *)
Definition login (email password : string) : Prog unit :=
  authenticate "users/login"
    (JObj [("email", JStr email); ("password", JStr password)]).

(** [register] *)
Definition register (name email password : string) : Prog unit :=
  authenticate "users/register"
    (JObj [("name", JStr name); ("email", JStr email); ("password", JStr password)]).

(** [clearError] *)
Definition clearError : Prog unit :=
  setState (fun st =>
    {| user := user st; tokens := tokens st; isAuthenticated := isAuthenticated st;
       isLoading := isLoading st; auth_error := None |}).

End WithRuntime.

End AuthActions.

(* ===================================================================== *)
(** ** [lib/api.ts]: the path formatter of the lower-level client *)
(* ===================================================================== *)

Module Api.

(** [s.endsWith(p)] *)
Fixpoint endsWith (s p : string) : bool :=
  String.eqb s p ||
  match s with
  | EmptyString => false
  | String _ s' => endsWith s' p
  end.

Section WithRuntime.

Context {rt : Runtime}.

(** [const API_URL = import.meta.env.VITE_API_URL || 'http://127.0.0.1:8081/api'] *)
Definition API_URL : string :=
  match VITE_API_URL with
  | Some u => if Js.nonEmpty u then u else "http://127.0.0.1:8081/api"
  | None => "http://127.0.0.1:8081/api"
  end.

(** [formatApiPath], with the name of its local. *)
Definition formattedPath (path : string) : string :=
  (* If path doesn't start with /, add it *)
  if Js.startsWith path "/" then path else "/" ++ path.

Definition formatApiPath (path : string) : string :=
  (* If the API_URL already includes '/api', don't add it again *)
  if endsWith API_URL "/api" then API_URL ++ formattedPath path
  else API_URL ++ "/api" ++ formattedPath path.

End WithRuntime.

End Api.

(* ===================================================================== *)
(** ** [lib/utils.ts]: the e-mail check *)
(* ===================================================================== *)

(** Regular expressions over code units, matched by derivatives;
    [matches] is [test] for a pattern anchored at both ends. *)
Module Regex.

Inductive re : Type :=
| Never
| Empty
| Class (p : ascii -> bool)
| Seq (r1 r2 : re)
| Alt (r1 r2 : re)
| Star (r : re).

(** [r+] and [r{2,}] *)
Definition Plus (r : re) : re := Seq r (Star r).
Definition AtLeastTwo (r : re) : re := Seq r (Seq r (Star r)).

Fixpoint nullable (r : re) : bool :=
  match r with
  | Never => false
  | Empty => true
  | Class _ => false
  | Seq r1 r2 => nullable r1 && nullable r2
  | Alt r1 r2 => nullable r1 || nullable r2
  | Star _ => true
  end.

Fixpoint deriv (c : ascii) (r : re) : re :=
  match r with
  | Never => Never
  | Empty => Never
  | Class p => if p c then Empty else Never
  | Seq r1 r2 =>
      if nullable r1 then Alt (Seq (deriv c r1) r2) (deriv c r2)
      else Seq (deriv c r1) r2
  | Alt r1 r2 => Alt (deriv c r1) (deriv c r2)
  | Star r1 => Seq (deriv c r1) (Star r1)
  end.

Fixpoint matches (r : re) (s : string) : bool :=
  match s with
  | EmptyString => nullable r
  | String c s' => matches (deriv c r) s'
  end.

(** The strings a pattern stands for. *)
Inductive Lang : re -> string -> Prop :=
| L_Empty : Lang Empty EmptyString
| L_Class p c : p c = true -> Lang (Class p) (String c EmptyString)
| L_Seq r1 r2 s1 s2 : Lang r1 s1 -> Lang r2 s2 -> Lang (Seq r1 r2) (s1 ++ s2)
| L_AltL r1 r2 s : Lang r1 s -> Lang (Alt r1 r2) s
| L_AltR r1 r2 s : Lang r2 s -> Lang (Alt r1 r2) s
| L_StarNil r : Lang (Star r) EmptyString
| L_StarCons r s1 s2 : Lang r s1 -> Lang (Star r) s2 -> Lang (Star r) (s1 ++ s2).

End Regex.

Module Utils.

Definition inRange (lo hi : nat) (c : ascii) : bool :=
  (Nat.leb lo (nat_of_ascii c) && Nat.leb (nat_of_ascii c) hi)%bool.

(** [[a-zA-Z]] *)
Definition isLetter (c : ascii) : bool := inRange 97 122 c || inRange 65 90 c.

(** [[a-zA-Z0-9]] *)
Definition isAlnum (c : ascii) : bool := isLetter c || inRange 48 57 c.

(** [[a-zA-Z0-9._%+-]] *)
Definition isLocalChar (c : ascii) : bool :=
  isAlnum c || Ascii.eqb c "." || Ascii.eqb c "_" || Ascii.eqb c "%"
  || Ascii.eqb c "+" || Ascii.eqb c "-".

(** [[a-zA-Z0-9.-]] *)
Definition isDomainChar (c : ascii) : bool :=
  isAlnum c || Ascii.eqb c "." || Ascii.eqb c "-".

(** [/^[a-zA-Z0-9._%+-]+@[a-zA-Z0-9.-]+\.[a-zA-Z]{2,}$/] *)
Definition emailRegex : Regex.re :=
  Regex.Seq (Regex.Plus (Regex.Class isLocalChar))
    (Regex.Seq (Regex.Class (fun c => Ascii.eqb c "@"))
       (Regex.Seq (Regex.Plus (Regex.Class isDomainChar))
          (Regex.Seq (Regex.Class (fun c => Ascii.eqb c "."))
             (Regex.AtLeastTwo (Regex.Class isLetter))))).

(** [validateEmail] *)
Definition validateEmail (email : string) : bool := Regex.matches emailRegex email.

(** Every character of the string is in the class. *)
Fixpoint allChars (p : ascii -> bool) (s : string) : bool :=
  match s with
  | EmptyString => true
  | String c s' => p c && allChars p s'
  end.

End Utils.

(* ===================================================================== *)
(** ** [store/emailSettingsStore.ts]: the list of templates *)
(* ===================================================================== *)

Module TemplateStore.

(** [enum EmailTemplateType] *)
Inductive EmailTemplateType : Type := JOB_APPLICATION | FOLLOW_UP.

(** [interface EmailTemplate]; a [Date] is kept as its time value. *)
Record EmailTemplate : Type := {
  template_id : option string;
  name : string;
  type : EmailTemplateType;
  subject : string;
  body : string;
  isDefault : bool;
  createdAt : option Z;
  updatedAt : option Z
}.

(** [t._id === other] on optional strings: [undefined] equals [undefined]
    only. *)
Definition sameId (a b : option string) : bool :=
  match a, b with
  | Some x, Some y => String.eqb x y
  | None, None => true
  | _, _ => false
  end.

(** The part of the state that the template actions touch. *)
Record State : Type := {
  templates : list EmailTemplate;
  selectedTemplate : option EmailTemplate
}.

(** [setTemplates] *)
Definition setTemplates (ts : list EmailTemplate) (st : State) : State :=
  {| templates := ts; selectedTemplate := selectedTemplate st |}.

(** [addTemplate] *)
Definition addTemplate (template : EmailTemplate) (st : State) : State :=
  {| templates := templates st ++ [template];
     selectedTemplate := selectedTemplate st |}.

(** [updateTemplate] *)
Definition updateTemplate (template : EmailTemplate) (st : State) : State :=
  {| templates :=
       map (fun t => if sameId (template_id t) (template_id template) then template else t)
           (templates st);
     selectedTemplate := selectedTemplate st |}.

(** [deleteTemplate] *)
Definition deleteTemplate (templateId : string) (st : State) : State :=
  {| templates :=
       filter (fun t => negb (sameId (template_id t) (Some templateId))) (templates st);
     selectedTemplate := selectedTemplate st |}.

(** [setSelectedTemplate] *)
Definition setSelectedTemplate (template : option EmailTemplate) (st : State) : State :=
  {| templates := templates st; selectedTemplate := template |}.

End TemplateStore.

(* ===================================================================== *)
(** ** The store of applications *)
(* ===================================================================== *)

Module ApplicationStore.

Inductive IntervalType : Type := days | hours | minutes.

Inductive Status : Type := draft | sent.

Record AutoFollowUp : Type := {
  enabled : bool;
  intervalType : IntervalType;
  interval : Z;
  maxFollowUps : Z
}.

(** [interface Application] *)
Record Application : Type := {
  id : string;
  recipient : string;
  subject : string;
  position : string;
  company : string;
  sentDate : string;
  fullName : string;
  portfolio : option string;
  linkedIn : option string;
  lastFollowUp : option string;
  followUpCount : Z;
  autoFollowUp : AutoFollowUp;
  status : Status
}.

(** [Omit<Application, 'id' | 'followUpCount' | 'autoFollowUp' | 'status'>] *)
Record NewApplication : Type := {
  new_recipient : string;
  new_subject : string;
  new_position : string;
  new_company : string;
  new_sentDate : string;
  new_fullName : string;
  new_portfolio : option string;
  new_linkedIn : option string;
  new_lastFollowUp : option string
}.

(** The record that [addApplication] builds; [newId] is what
    [crypto.randomUUID()] returns. *)
Definition created (newId : string) (application : NewApplication) : Application :=
  {| id := newId;
      recipient := new_recipient application;
      subject := new_subject application;
      position := new_position application;
      company := new_company application;
      sentDate := new_sentDate application;
      fullName := new_fullName application;
      portfolio := new_portfolio application;
      linkedIn := new_linkedIn application;
      lastFollowUp := new_lastFollowUp application;
      followUpCount := 0;
      autoFollowUp := {| enabled := false; intervalType := days;
                         interval := 2; maxFollowUps := 5 |};
      status := sent |}.

(** [addApplication]; the action returns [newId]. *)
Definition addApplication (newId : string) (application : NewApplication)
    (applications : list Application) : list Application :=
  applications ++ [created newId application].

(** [n + 1] on a JS number whose value is the integer [n].  The sum is
    exact from -2^53 up to, and not including, 2^53.  Beyond, numbers are
    two apart (four apart from 2^54 on) and the sum is rounded to the
    nearest of them, to the one with the even mantissa when it lies halfway:
    [2^53 + 1] is [2^53]. *)
Definition plusOne (n : Z) : Z :=
  if (- 2 ^ 53 <=? n) && (n <? 2 ^ 53) then n + 1
  else if 2 ^ 54 <=? Z.abs n then n
  else if Z.even (n / 2) then n else n + 2.

(** [{ ...app, followUpCount: app.followUpCount + 1, lastFollowUp: now }] *)
Definition followedUp (now : string) (app : Application) : Application :=
  {| id := id app; recipient := recipient app; subject := subject app;
     position := position app; company := company app;
     sentDate := sentDate app; fullName := fullName app;
     portfolio := portfolio app; linkedIn := linkedIn app;
     lastFollowUp := Some now;
     followUpCount := plusOne (followUpCount app);
     autoFollowUp := autoFollowUp app; status := status app |}.

(** [incrementFollowUpCount]; [now] is [new Date().toISOString()]. *)
Definition incrementFollowUpCount (now : string) (appId : string)
    (applications : list Application) : list Application :=
  map (fun app => if String.eqb (id app) appId then followedUp now app else app)
      applications.

(** [removeApplication] *)
Definition removeApplication (appId : string) (applications : list Application)
    : list Application :=
  filter (fun app => negb (String.eqb (id app) appId)) applications.

(** [getApplication]; [None] is [undefined]. *)
Definition getApplication (appId : string) (applications : list Application)
    : option Application :=
  find (fun app => String.eqb (id app) appId) applications.

End ApplicationStore.

(* ===================================================================== *)
(** ** What a program returns, and what a request carries *)
(* ===================================================================== *)

(** Every value the program can return satisfies [P]. *)
Inductive Returns (P : ApiResponse -> Prop) : Prog ApiResponse -> Prop :=
| Rt_Ret r : P r -> Returns P (Ret r)
| Rt_Throw e : Returns P (Throw e)
| Rt_GetAuth k : (forall st, Returns P (k st)) -> Returns P (GetAuth k)
| Rt_SetAuth f k : Returns P k -> Returns P (SetAuth f k)
| Rt_GetThis k : (forall c, Returns P (k c)) -> Returns P (GetThis k)
| Rt_SetThis f k : Returns P k -> Returns P (SetThis f k)
| Rt_Fetch url init k : (forall o, Returns P (k o)) -> Returns P (Fetch url init k)
| Rt_ReadBody r k : (forall t, Returns P (k t)) -> Returns P (ReadBody r k)
| Rt_NewPromise ex k : (forall p, Returns P (k p)) -> Returns P (NewPromise ex k)
| Rt_Resolve p v k : Returns P k -> Returns P (Resolve p v k)
| Rt_Await p k : (forall v, Returns P (k v)) -> Returns P (Await p k)
| Rt_CallLogout k : Returns P k -> Returns P (CallLogout k)
| Rt_Deliver d k : Returns P k -> Returns P (Deliver d k).

(** [obj[k]]: the value under a key, [None] when the object has no such
    key. *)
Fixpoint obj_get (k : string) (obj : Headers) : option string :=
  match obj with
  | [] => None
  | (k', v) :: rest => if String.eqb k k' then Some v else obj_get k rest
  end.

(** The value that a key ends with when the pairs are written one after
    the other. *)
Fixpoint lastBinding (k : string) (pairs : Headers) : option string :=
  match pairs with
  | [] => None
  | (k', v) :: rest =>
      match lastBinding k rest with
      | Some w => Some w
      | None => if String.eqb k k' then Some v else None
      end
  end.

(** What every result of [request] satisfies. *)
Definition wellShaped (r : ApiResponse) : Prop :=
  ((200 <=? status r) && (status r <=? 299) = false ->
   error r <> JNull
   /\ (Json.truthy (error r) = true \/ (status r = 0 /\ data r = JNull)))
  /\ ((200 <=? status r) && (status r <=? 299) = true ->
      error r = JNull
      \/ (error r = JStr "Invalid JSON response" /\ data r = JNull)).

(** The values of the examples below. *)
Module Examples.

#[local] Existing Instance Browser.runtime.

(** What [users/login] answers to the right password. *)
Definition welcomeData : JsonValue :=
  JObj [("user", JObj [("id", JStr "u1"); ("email", JStr "alice@example.org");
                       ("name", JStr "Alice")]);
        ("tokens", JObj [("accessToken", JStr "a1"); ("refreshToken", JStr "r1")])].

Definition welcome : Response := Scenario.jsonResponse 200 "OK" welcomeData.


(** The pair that a refresh brings. *)
Definition freshData : JsonValue :=
  JObj [("tokens", JObj [("accessToken", JStr "a2"); ("refreshToken", JStr "r2")])].

Definition freshPair : AuthTokens := {| accessToken := "a2"; refreshToken := "r2" |}.

(** A caller that passes an [Authorization] header of its own. *)
Definition withOwnCredentials : RequestOptions :=
  {| opt_method := None;
     opt_headers := Some [("Authorization", "Basic dXNlcjpwdw==")];
     opt_body := None; opt_requiresAuth := None; opt_skipRefreshToken := None |}.

(** A page on which a refresh is in flight. *)
Definition refreshing : Sys :=
  exec (page (Scenario.session "a1" "r1")) [Start (callRefreshToken 0)].

(** A store that holds a user but no tokens. *)
Definition staleUser : AuthState :=
  {| user := Some Scenario.alice; tokens := None; isAuthenticated := true;
     isLoading := false; auth_error := None |}.

Definition coverLetter : TemplateStore.EmailTemplate :=
  {| TemplateStore.template_id := Some "t1";
     TemplateStore.name := "Cover letter";
     TemplateStore.type := TemplateStore.JOB_APPLICATION;
     TemplateStore.subject := "Application";
     TemplateStore.body := "Dear team";
     TemplateStore.isDefault := false;
     TemplateStore.createdAt := None;
     TemplateStore.updatedAt := None |}.

(** A follow-up template under another id, and one not yet saved. *)
Definition reminder : TemplateStore.EmailTemplate :=
  {| TemplateStore.template_id := Some "t2";
     TemplateStore.name := "Reminder";
     TemplateStore.type := TemplateStore.FOLLOW_UP;
     TemplateStore.subject := "Following up";
     TemplateStore.body := "Dear team, again";
     TemplateStore.isDefault := true;
     TemplateStore.createdAt := None;
     TemplateStore.updatedAt := None |}.

Definition unsaved : TemplateStore.EmailTemplate :=
  {| TemplateStore.template_id := None;
     TemplateStore.name := "Draft";
     TemplateStore.type := TemplateStore.JOB_APPLICATION;
     TemplateStore.subject := EmptyString;
     TemplateStore.body := EmptyString;
     TemplateStore.isDefault := false;
     TemplateStore.createdAt := None;
     TemplateStore.updatedAt := None |}.

Definition twoTemplates : TemplateStore.State :=
  {| TemplateStore.templates := [reminder; unsaved];
     TemplateStore.selectedTemplate := Some reminder |}.

End Examples.

(* ===================================================================== *)
(** ** The refresh coordinator as a protocol *)
(* ===================================================================== *)

(** Who may touch [isRefreshing], create a promise or resolve one, and
    when.  Three kinds of programs run on the page: callers of the client,
    the executor that a refresh hands to [new Promise], and programs that
    leave the coordinator alone until they first suspend. *)
Module Coordinator.

Section WithRuntime.

Context {rt : Runtime}.

(** The address of the exchange. *)
Definition refreshUrl : string := ApiClient.formatUrl "users/refresh-token".

Definition isExchange (c : NetCall) : bool := String.eqb (call_url c) refreshUrl.

(** The exchanges sent so far, and the promises not yet settled. *)
Definition exchanges (s : Sys) : nat := length (filter isExchange (network s)).

Definition isPending (o : option bool) : bool :=
  match o with None => true | Some _ => false end.

Definition unsettled (ps : list (option bool)) : nat := length (filter isPending ps).

(** What a caller knows of [isRefreshing] at a point of its turn. *)
Inductive Knows : Type := Unknown | Idle | Busy.

Definition learn (c : ClientFields) : Knows :=
  if isRefreshing c then Busy else Idle.

(** How far the executor of a promise has come: nothing sent yet, the
    exchange sent, the promise resolved, the fields reset. *)
Inductive Stage : Type := Fresh | Sent | Resolved | Done.

(** The executor of promise [p]: it sends at most one request, resolves
    [p] once, resets [isRefreshing] after that and ends only then; it may
    call [logout()] on the way. *)
Inductive Executor (p : PromiseId) : Stage -> Prog unit -> Prop :=
| Ex_Ret (r : unit) : Executor p Done (Ret r)
| Ex_GetAuth g (k : AuthState -> Prog unit) :
    (forall st, Executor p g (k st)) -> Executor p g (GetAuth k)
| Ex_SetAuth g f (k : Prog unit) : Executor p g k -> Executor p g (SetAuth f k)
| Ex_Fetch url init (k : Response + Thrown -> Prog unit) :
    (forall o, Executor p Sent (k o)) -> Executor p Fresh (Fetch url init k)
| Ex_ReadBody r (k : option string -> Prog unit) :
    (forall t, Executor p Sent (k t)) -> Executor p Sent (ReadBody r k)
| Ex_ResolveFresh v (k : Prog unit) :
    Executor p Resolved k -> Executor p Fresh (Resolve p v k)
| Ex_ResolveSent v (k : Prog unit) :
    Executor p Resolved k -> Executor p Sent (Resolve p v k)
| Ex_CallLogout g (k : Prog unit) : Executor p g k -> Executor p g (CallLogout k)
| Ex_Reset f (k : Prog unit) :
    (forall c, isRefreshing (f c) = false) ->
    Executor p Done k -> Executor p Resolved (SetThis f k).

(** A caller of the client.  It sets [isRefreshing] only when it has just
    read it as false, creates a promise only right after setting it, and
    writes that promise to [refreshPromise] as soon as it has it; it
    resolves nothing and never clears the flag; its own requests do not go
    to the exchange's address; what it does after waiting for a promise
    leaves the coordinator alone. *)
Inductive Caller : Knows -> Prog unit -> Prop :=
| Ca_Ret m (r : unit) : Caller m (Ret r)
| Ca_Throw m e : Caller m (Throw e)
| Ca_GetAuth m (k : AuthState -> Prog unit) :
    (forall st, Caller m (k st)) -> Caller m (GetAuth k)
| Ca_SetAuth m f (k : Prog unit) : Caller m k -> Caller m (SetAuth f k)
| Ca_GetThis m (k : ClientFields -> Prog unit) :
    (forall c, Caller (learn c) (k c)) -> Caller m (GetThis k)
| Ca_Claim f ex register (k : PromiseId -> Prog unit) :
    (forall c, isRefreshing (f c) = true) ->
    (forall p, Executor p Fresh (ex p)) ->
    (forall p c, isRefreshing (register p c) = isRefreshing c
                 /\ refreshPromise (register p c) = Some p) ->
    (forall p, Caller Unknown (k p)) ->
    Caller Idle (SetThis f (NewPromise ex (fun p => SetThis (register p) (k p))))
| Ca_Fetch m url init (k : Response + Thrown -> Prog unit) :
    url <> refreshUrl ->
    (forall o, Caller Unknown (k o)) -> Caller m (Fetch url init k)
| Ca_ReadBody m r (k : option string -> Prog unit) :
    (forall t, Caller Unknown (k t)) -> Caller m (ReadBody r k)
| Ca_Await m p (k : bool -> Prog unit) :
    (forall v, Passive (k v)) -> Caller m (Await p k)
| Ca_Deliver m d (k : Prog unit) : Caller m k -> Caller m (Deliver d k)

(** A program that leaves the coordinator alone until it suspends. *)
with Passive : Prog unit -> Prop :=
| Pa_Ret (r : unit) : Passive (Ret r)
| Pa_Throw e : Passive (Throw e)
| Pa_GetAuth (k : AuthState -> Prog unit) :
    (forall st, Passive (k st)) -> Passive (GetAuth k)
| Pa_SetAuth f (k : Prog unit) : Passive k -> Passive (SetAuth f k)
| Pa_Fetch url init (k : Response + Thrown -> Prog unit) :
    url <> refreshUrl ->
    (forall o, Caller Unknown (k o)) -> Passive (Fetch url init k)
| Pa_ReadBody r (k : option string -> Prog unit) :
    (forall t, Caller Unknown (k t)) -> Passive (ReadBody r k)
| Pa_Await p (k : bool -> Prog unit) :
    (forall v, Passive (k v)) -> Passive (Await p k)
| Pa_Deliver d (k : Prog unit) : Passive k -> Passive (Deliver d k).

(** The suspended tasks of a caller and of the executor of [p]. *)
Definition callerTask (t : Task) : Prop :=
  match t with
  | WaitFetch _ k => forall o, Caller Unknown (k o)
  | WaitBody _ _ k => forall b, Caller Unknown (k b)
  | WaitPromise _ k => forall v, Passive (k v)
  end.

Definition executorTask (p : PromiseId) (t : Task) : Prop :=
  match t with
  | WaitFetch _ k => forall o, Executor p Sent (k o)
  | WaitBody _ _ k => forall b, Executor p Sent (k b)
  | WaitPromise _ _ => False
  end.

(** The tasks of a page: callers, and the executor of [p] among them when
    the owner is [Some p]. *)
Inductive Tasks : option PromiseId -> list Task -> Prop :=
| Ts_nil : Tasks None []
| Ts_caller o t ts : callerTask t -> Tasks o ts -> Tasks o (t :: ts)
| Ts_executor p t ts : executorTask p t -> Tasks None ts -> Tasks (Some p) (t :: ts).

(** The page between two turns: a refresh is in flight exactly when
    [isRefreshing] is set; then one promise is unsettled, it is the one in
    [refreshPromise], and its executor is suspended; otherwise no promise
    is unsettled.  Every exchange belongs to a promise. *)
Definition coherent (s : Sys) : Prop :=
  exists o,
    Tasks o (tasks s)
    /\ (exchanges s <= length (promises s))%nat
    /\ match o with
       | None => isRefreshing (this s) = false /\ unsettled (promises s) = 0%nat
       | Some p =>
           isRefreshing (this s) = true
           /\ refreshPromise (this s) = Some p
           /\ nth_error (promises s) p = Some None
           /\ unsettled (promises s) = 1%nat
       end.

(** The page when the executor of [p] has run up to its end or to its
    next [await]: as between two turns, but for [refreshPromise], which is
    what it was. *)
Definition paused (p : PromiseId) (before s : Sys) : Prop :=
  exists o,
    Tasks o (tasks s)
    /\ (exchanges s <= length (promises s))%nat
    /\ match o with
       | None => isRefreshing (this s) = false /\ unsettled (promises s) = 0%nat
       | Some p' =>
           p' = p /\ this s = this before
           /\ isRefreshing (this s) = true
           /\ nth_error (promises s) p = Some None
           /\ unsettled (promises s) = 1%nat
       end.

(** The page while the executor of [p] runs. *)
Definition running (p : PromiseId) (g : Stage) (s : Sys) : Prop :=
  Tasks None (tasks s)
  /\ match g with
     | Fresh =>
         isRefreshing (this s) = true /\ nth_error (promises s) p = Some None
         /\ unsettled (promises s) = 1%nat
         /\ (S (exchanges s) <= length (promises s))%nat
     | Sent =>
         isRefreshing (this s) = true /\ nth_error (promises s) p = Some None
         /\ unsettled (promises s) = 1%nat
         /\ (exchanges s <= length (promises s))%nat
     | Resolved =>
         isRefreshing (this s) = true /\ unsettled (promises s) = 0%nat
         /\ (exchanges s <= length (promises s))%nat
     | Done =>
         isRefreshing (this s) = false /\ unsettled (promises s) = 0%nat
         /\ (exchanges s <= length (promises s))%nat
     end.

(** What a turn may be of without disturbing the coordinator: the fields,
    the promises and the exchanges are left alone, and the tasks it leaves
    behind are callers. *)
Definition benign (h : Sys -> Sys) : Prop :=
  forall s,
    this (h s) = this s /\ promises (h s) = promises s
    /\ exchanges (h s) = exchanges s
    /\ exists new, tasks (h s) = (tasks s ++ new)%list /\ Forall callerTask new.

(** The calls that the application makes. *)
Inductive clientCall : Prog unit -> Prop :=
| call_request caller endpoint options :
    ApiClient.formatUrl endpoint <> refreshUrl ->
    clientCall (callRequest caller endpoint options)
| call_refreshToken caller : clientCall (callRefreshToken caller)
| call_logout : clientCall AuthStore.logout
| call_login email password : clientCall (AuthActions.login email password)
| call_register name email password :
    clientCall (AuthActions.register name email password).

Definition clientEvent (ev : Event) : Prop :=
  match ev with
  | Start p => clientCall p
  | _ => True
  end.

End WithRuntime.

End Coordinator.
(* ===================================================================== *)
(** ** The concrete runtime reads what it prints *)
(* ===================================================================== *)

Example parse_ok :
  Browser.parse ("{" ++ Browser.quote "ok" ++ ":true}") = Some (JObj [("ok", JBool true)]).
Proof. reflexivity. Qed.

Example parse_nested :
  Browser.parse (" { " ++ Browser.quote "tokens" ++ " : {" ++ Browser.quote "accessToken"
                 ++ ":" ++ Browser.quote "a2" ++ ", " ++ Browser.quote "refreshToken" ++ ":"
                 ++ Browser.quote "r2" ++ "}, " ++ Browser.quote "n" ++ ": [1, -20, null] } ")
  = Some (JObj [("tokens", JObj [("accessToken", JStr "a2"); ("refreshToken", JStr "r2")]);
                ("n", JArr [JNum 1; JNum (-20); JNull])]).
Proof. reflexivity. Qed.

Example parse_bad : Browser.parse "Unauthorized" = None.
Proof. reflexivity. Qed.

Example print_ok :
  Browser.parse
    (Browser.print (JObj [("refreshToken", JStr "r1"); ("n", JArr [JNum 10; JNum (-7); JBool false])]))
  = Some (JObj [("refreshToken", JStr "r1"); ("n", JArr [JNum 10; JNum (-7); JBool false])]).
Proof. reflexivity. Qed.

(* ===================================================================== *)
(** ** The request formatter *)
(* ===================================================================== *)

Section Formatter.

Context {rt : Runtime}.

Lemma startsWith_slash_http (p : string) : Js.startsWith ("/" ++ p) "http" = false.
Proof. reflexivity. Qed.

Lemma cleanEndpoint_slash (p : string) : ApiClient.cleanEndpoint ("/" ++ p) = p.
Proof. reflexivity. Qed.

Lemma formatUrl_absolute (x : string) :
  Js.startsWith x "http" = true -> ApiClient.formatUrl x = x.
Proof. intros H. unfold ApiClient.formatUrl. now rewrite H. Qed.

Lemma formatUrl_relative (p : string) :
  Js.startsWith p "http" = false ->
  ApiClient.formatUrl p = ApiClient.baseUrl ++ "/" ++ ApiClient.cleanEndpoint p.
Proof. intros H. unfold ApiClient.formatUrl. now rewrite H. Qed.

(** C9 (as amended).  [formatUrl] returns an absolute URL (one that starts
    with [http]) unchanged, so formatting it twice is formatting it once;
    a relative path [p] is formatted to the base URL without its trailing
    slash, one slash, and [p] without its leading slash; and when [p] has no
    leading slash of its own, [p] and ['/' + p] are formatted alike. *)
Theorem formatUrl_normalizes (x p : string)
    (Habs : Js.startsWith x "http" = true)
    (Hrel : Js.startsWith p "http" = false) :
  ApiClient.formatUrl x = x
  /\ ApiClient.formatUrl (ApiClient.formatUrl x) = ApiClient.formatUrl x
  /\ ApiClient.formatUrl p =
       (if Js.endsWithSlash ApiClient.API_URL
        then Js.dropLast ApiClient.API_URL else ApiClient.API_URL)
       ++ "/" ++ (if Js.startsWith p "/" then Js.slice1 p else p)
  /\ (Js.startsWith p "/" = false ->
      ApiClient.formatUrl p = ApiClient.formatUrl ("/" ++ p)).
Proof.
  pose proof (formatUrl_absolute x Habs) as Hx.
  repeat split.
  - exact Hx.
  - now rewrite Hx.
  - now rewrite (formatUrl_relative p Hrel).
  - intros Hns.
    rewrite (formatUrl_relative p Hrel).
    rewrite (formatUrl_relative _ (startsWith_slash_http p)).
    rewrite cleanEndpoint_slash.
    unfold ApiClient.cleanEndpoint. now rewrite Hns.
Qed.

End Formatter.

(* ===================================================================== *)
(** ** The pipeline as a program *)
(* ===================================================================== *)

Create HintDb prog discriminated.

#[export] Hint Unfold
  ApiClient.tokensOf ApiClient.parseResponse ApiClient.parse ApiClient.json
  ApiClient.refreshToken ApiClient.awaitRefreshPromise ApiClient.getAuthToken
  ApiClient.getRefreshToken ApiClient.updateTokens ApiClient.processQueue
  ApiClient.request ApiClient.post ApiClient.refreshExecutor AuthStore.logout
  fetch text getState setState getThis setThis resolve await callLogout deliver
  : prog.

(** Case analysis on whatever the program branches on next. *)
Ltac split_match :=
  match goal with
  | |- context [match ?x with _ => _ end] =>
      first
        [ is_var x; destruct x
        | lazymatch x with
          | context [match _ with _ => _ end] => fail
          | _ => destruct x eqn:?
          end ]
  end.

Ltac nothrow_step :=
  first
    [ apply NT_Ret
    | apply NT_GetAuth; intro
    | apply NT_SetAuth
    | apply NT_GetThis; intro
    | apply NT_SetThis
    | apply NT_Fetch; intro
    | apply NT_ReadBody; intro
    | apply NT_NewPromise; intro
    | apply NT_Resolve
    | apply NT_Await; intro
    | apply NT_CallLogout
    | apply NT_Deliver
    | split_match
    | progress autounfold with prog ].

Ltac nothrow := repeat (nothrow_step; cbn).

Ltac attempts_step :=
  first
    [ apply At_Ret
    | apply At_Throw
    | apply At_GetAuth; intro
    | apply At_SetAuth
    | apply At_GetThis; intro
    | apply At_SetThis
    | apply At_Fetch; intro
    | apply At_ReadBody; intro
    | apply At_NewPromise; intro
    | apply At_Resolve
    | apply At_Await; intro
    | apply At_CallLogout
    | apply At_Deliver
    | split_match
    | progress autounfold with prog ].

Ltac blind_step :=
  first
    [ apply SB_Ret
    | apply SB_Throw
    | apply SB_Fetch; intro
    | apply SB_ReadBody; intro
    | apply SB_Deliver
    | rewrite Bool.andb_false_r
    | split_match
    | progress autounfold with prog ].


Section Pipeline.

Context {rt : Runtime}.

(* --------------------------------------------------------------------- *)
(** *** Nothing is thrown *)
(* --------------------------------------------------------------------- *)

Lemma refreshExecutor_no_throw (p : PromiseId) : ExecutorNoThrow (ApiClient.refreshExecutor p).
Proof. nothrow. Qed.

Lemma refreshToken_no_throw : NoThrow ApiClient.refreshToken.
Proof. nothrow. Qed.


Lemma logout_no_throw : NoThrow AuthStore.logout.
Proof. nothrow. Qed.


Lemma executor_is_no_throw (q : Prog unit) : ExecutorNoThrow q -> NoThrow q.
Proof. induction 1; constructor; auto; contradiction. Qed.

(** A turn of a program that cannot throw keeps the page calm. *)
Lemma run_calm_with (E : Prog unit -> Prop) (h : Sys -> Sys)
    (HE : forall q, E q -> forall s, calm s -> calm (run_with h q s))
    (Hh : forall s, calm s -> calm (h s))
    (Hsub : forall q : Prog unit, NoThrowWith E q -> NoThrow q)
    (p : Prog unit) :
  NoThrowWith E p -> forall s, calm s -> calm (run_with h p s).
Proof.
  induction 1 as [r|k Hk IH|f k Hk IH|k Hk IH|f k Hk IH|url init k Hk IH|r k Hk IH
                 |ex k Hex Hk IH|p v k Hk IH|p k Hk IH|k Hk IH|d k Hk IH];
    intros s [Hu Ht]; cbn.
  - split; assumption.
  - apply IH. split; assumption.
  - apply IH. split; assumption.
  - apply IH. split; assumption.
  - apply IH. split; assumption.
  - split; [exact Hu|]. apply Forall_app. split; [exact Ht|].
    constructor; [|constructor]. intros o. apply Hsub, Hk.
  - split; [exact Hu|]. apply Forall_app. split; [exact Ht|].
    constructor; [|constructor]. intros o. apply Hsub, Hk.
  - apply IH. apply HE; [apply Hex|]. split; assumption.
  - apply IH. split; assumption.
  - split; [exact Hu|]. apply Forall_app. split; [exact Ht|].
    constructor; [|constructor]. intros o. apply Hsub, Hk.
  - apply IH. apply Hh. split; assumption.
  - apply IH. split; assumption.
Qed.

Lemma run_calm (h : Sys -> Sys) (Hh : forall s, calm s -> calm (h s)) (p : Prog unit) :
  NoThrow p -> forall s, calm s -> calm (run_with h p s).
Proof.
  apply (run_calm_with (E := ExecutorNoThrow)); auto.
  intros q Hq.
  apply (run_calm_with (E := fun _ => False)); auto.
  - intros ? [].
  - apply executor_is_no_throw.
Qed.

(** The first turn of [logout()] ends before it could call [logout] again:
    what a nested call would do does not matter. *)
Lemma logout_first_turn (h1 h2 : Sys -> Sys) (s : Sys) :
  run_with h1 AuthStore.logout s = run_with h2 AuthStore.logout s.
Proof.
  unfold AuthStore.logout. cbn.
  destruct (ApiClient.accessToken_of (store s)) as [a|] eqn:Ha; cbn; [|reflexivity].
  unfold ApiClient.or_default. cbn. rewrite Ha. reflexivity.
Qed.

Lemma startLogout_calm (s : Sys) : calm s -> calm (startLogout s).
Proof. apply run_calm; [auto|]. apply logout_no_throw. Qed.

Lemma take_ready_calm ps ts q rest :
  Forall calmTask ts -> take_ready ps ts = Some (q, rest) ->
  NoThrow q /\ Forall calmTask rest.
Proof.
  intros H. revert q rest.
  induction H as [|t ts Ht Hts IH]; cbn; intros q rest E; [discriminate|].
  destruct (take_ready ps ts) as [[q' rest']|].
  - destruct (IH _ _ eq_refl) as [Hq Hr].
    destruct t; cbn in Ht; try (inversion E; subst; auto; fail).
    destruct (nth_error ps p) as [[v|]|]; inversion E; subst; auto.
  - destruct t; cbn in Ht; try discriminate.
    destruct (nth_error ps p) as [[v|]|]; inversion E; subst; auto.
Qed.

Lemma take_fetch_calm io ts k rest :
  Forall calmTask ts -> take_fetch io ts = Some (k, rest) ->
  (forall o, NoThrow (k o)) /\ Forall calmTask rest.
Proof.
  intros H. revert k rest.
  induction H as [|t ts Ht Hts IH]; cbn; intros k rest E; [discriminate|].
  destruct (take_fetch io ts) as [[k' rest']|].
  - destruct (IH _ _ eq_refl) as [Hk Hr].
    destruct t; cbn in Ht; try (inversion E; subst; auto; fail).
    destruct (Nat.eqb io io0); inversion E; subst; auto.
  - destruct t; cbn in Ht; try discriminate.
    destruct (Nat.eqb io io0); inversion E; subst; auto.
Qed.

Lemma take_body_calm io ts q rest :
  Forall calmTask ts -> take_body io ts = Some (q, rest) ->
  NoThrow q /\ Forall calmTask rest.
Proof.
  intros H. revert q rest.
  induction H as [|t ts Ht Hts IH]; cbn; intros q rest E; [discriminate|].
  destruct (take_body io ts) as [[q' rest']|].
  - destruct (IH _ _ eq_refl) as [Hk Hr].
    destruct t; cbn in Ht; try (inversion E; subst; auto; fail).
    destruct (Nat.eqb io io0); inversion E; subst; auto.
  - destruct t; cbn in Ht; try discriminate.
    destruct (Nat.eqb io io0); inversion E; subst; auto.
Qed.

Lemma drain_calm n : forall s, calm s -> calm (drain n s).
Proof.
  induction n as [|n IH]; intros s Hs; cbn; [exact Hs|].
  destruct (take_ready (promises s) (tasks s)) as [[q rest]|] eqn:E; [|exact Hs].
  destruct Hs as [Hu Ht].
  destruct (take_ready_calm _ Ht E) as [Hq Hr].
  apply IH. apply run_calm; [apply startLogout_calm|exact Hq|].
  split; assumption.
Qed.

Lemma turn_calm p s : NoThrow p -> calm s -> calm (turn p s).
Proof.
  intros Hp Hs. unfold turn. apply drain_calm.
  apply run_calm; [apply startLogout_calm|exact Hp|exact Hs].
Qed.

Lemma step_calm ev s : calmEvent ev -> calm s -> calm (step s ev).
Proof.
  intros Hev Hs. destruct ev as [p|io o|io]; cbn [step].
  - apply turn_calm; assumption.
  - destruct (take_fetch io (tasks s)) as [[k rest]|] eqn:E; [|exact Hs].
    destruct Hs as [Hu Ht]. destruct (take_fetch_calm _ Ht E) as [Hk Hr].
    apply turn_calm; [apply Hk|split; assumption].
  - destruct (take_body io (tasks s)) as [[q rest]|] eqn:E; [|exact Hs].
    destruct Hs as [Hu Ht]. destruct (take_body_calm _ Ht E) as [Hq Hr].
    apply turn_calm; [exact Hq|split; assumption].
Qed.

Lemma exec_calm evs : Forall calmEvent evs -> forall s, calm s -> calm (exec s evs).
Proof.
  induction 1 as [|ev evs Hev Hevs IH]; intros s Hs; [exact Hs|].
  cbn [exec fold_left]. apply IH. apply step_calm; assumption.
Qed.

(* --------------------------------------------------------------------- *)
(** *** One call, turn by turn *)
(* --------------------------------------------------------------------- *)

Lemma exec_cons (s : Sys) (ev : Event) (evs : list Event) :
  exec s (ev :: evs) = exec (step s ev) evs.
Proof. reflexivity. Qed.

Lemma exec_nil (s : Sys) : exec s [] = s.
Proof. reflexivity. Qed.

(** Take the next event of the trace and run its turn. *)
Ltac next_event := rewrite exec_cons; unfold step at 1, turn, run; cbn -[exec].

(* --------------------------------------------------------------------- *)
(** *** No exception escapes *)
(* --------------------------------------------------------------------- *)


Lemma nth_error_snoc {A : Type} (l : list A) (x : A) :
  nth_error (l ++ [x]) (length l) = Some x.
Proof. induction l; simpl; auto. Qed.

Lemma settle_at_snoc (ps : list (option bool)) (v : bool) :
  settle_at (length ps) v (ps ++ [None]) = (ps ++ [Some v])%list.
Proof.
  induction ps as [|x ps IH]; simpl; [reflexivity|].
  destruct x; now rewrite IH.
Qed.

(** C7.  With [requiresAuth] true (the default) and no access token in the
    store, the call ends within its first turn: the caller gets
    [{data: null, error: "Authentication required", status: 401}] and nothing
    else changes; in particular no [fetch] is issued. *)
Theorem request_without_token (caller : nat) (endpoint : string)
    (options : RequestOptions) (s : Sys)
    (Hauth : ApiClient.or_default (opt_requiresAuth options) true = true)
    (Hnone : ApiClient.accessToken_of (store s) = None) :
  run (callRequest caller endpoint options) s
  = add_delivered
      (GotResponse caller
         {| data := JNull; error := JStr "Authentication required"; status := 401 |}) s
  /\ network (run (callRequest caller endpoint options) s) = network s
  /\ tasks (run (callRequest caller endpoint options) s) = tasks s.
Proof.
  assert (run (callRequest caller endpoint options) s
          = add_delivered (GotResponse caller ApiClient.authRequired) s) as E.
  { unfold run, callRequest, ApiClient.request.
    rewrite Hauth. cbn. rewrite Hnone. reflexivity. }
  rewrite E. repeat split.
Qed.

(** C5 (as amended).  [refreshToken()] called while no refresh token is
    stored and no refresh is in flight: it sends no refresh-token exchange
    and returns false - the promise it creates is settled with false before
    it waits for it, and what it hands to its caller is what that promise
    holds; the client is left idle.  The only call that can go out is the
    [POST users/logout] that [logout()] sends when an access token is still
    stored, and then the session is still in the store.  When no access
    token is stored either, no [fetch] is issued at all and the session is
    cleared at once: tokens and user absent, [isAuthenticated] false.  On a
    page with no other suspended task the caller has its answer within the
    same turn. *)
Theorem refresh_without_refresh_token (caller : nat) (s : Sys)
    (Hidle : isRefreshing (this s) = false)
    (Hnone : ApiClient.refreshToken_of (store s) = None) :
  let p := length (promises s) in
  let s' := run (callRefreshToken caller) s in
  exists (started : list Task) (k : bool -> Prog unit),
    promises s' = (promises s ++ [Some false])%list
    /\ tasks s' = (tasks s ++ started ++ [WaitPromise p k])%list
    /\ (forall v s2, run (k v) s2 = add_delivered (GotBoolean caller v) s2)
    /\ delivered s' = delivered s
    /\ this s' = {| isRefreshing := false; refreshPromise := Some p |}
    /\ match ApiClient.accessToken_of (store s) with
       | Some a =>
           network s'
           = (network s ++
              [{| call_io := next_io s;
                  call_url := ApiClient.formatUrl "users/logout";
                  call_init :=
                    {| init_method := POST;
                       init_headers := [("Content-Type", "application/json");
                                        ("Authorization", ("Bearer " ++ a)%string)];
                       init_body := Some (JSON_stringify (JObj [])) |} |}])%list
           /\ store s' = store s
           /\ length started = 1%nat
       | None =>
           network s' = network s
           /\ store s' = set_session None None false (store s)
           /\ started = []
       end
    /\ (tasks s = [] ->
        delivered (turn (callRefreshToken caller) s)
        = (delivered s ++ [GotBoolean caller false])%list).
Proof.
  destruct s as [st [refreshing rp] ps ts io net del unh]. simpl in *. subst.
  unfold turn, run, callRefreshToken, ApiClient.refreshToken.
  cbn.
  unfold ApiClient.refreshExecutor. cbn. rewrite Hnone. cbn.
  unfold startLogout, AuthStore.logout. cbn.
  destruct (ApiClient.accessToken_of st) as [a|] eqn:Ha; cbn.
  - unfold ApiClient.or_default. cbn. rewrite Ha. cbn.
    rewrite settle_at_snoc.
    eexists [_], _. split; [reflexivity|]. split; [rewrite <- app_assoc; reflexivity|].
    split; [intros; reflexivity|]. split; [reflexivity|]. split; [reflexivity|].
    split; [repeat split|].
    intros ->. cbn. rewrite nth_error_snoc. cbn. reflexivity.
  - rewrite settle_at_snoc.
    eexists [], _. split; [reflexivity|]. split; [reflexivity|].
    split; [intros; reflexivity|]. split; [reflexivity|]. split; [reflexivity|].
    split; [repeat split|].
    intros ->. cbn. rewrite nth_error_snoc. cbn. reflexivity.
Qed.

(* --------------------------------------------------------------------- *)
(** *** Reading the body *)
(* --------------------------------------------------------------------- *)

Lemma trimStartsWith_brace (t : string) :
  Js.nonEmpty t && Js.trimStartsWith t "{" = Spec.startsWithBrace t.
Proof.
  unfold Js.trimStartsWith, Spec.startsWithBrace, Spec.firstNonWhite.
  destruct t as [|c t]; [reflexivity|].
  cbn [Js.nonEmpty andb].
  destruct (Js.trimStart (String c t)) as [|d u]; [reflexivity|].
  cbn [Js.startsWith]. now rewrite Bool.andb_true_r.
Qed.

(** The test of the code is the rule of the specification behind the guard
    on the content type. *)
Lemma isJsonResponse_spec (r : Response) (t : string) :
  ApiClient.isJsonResponse (resp_contentType r) (Some t) = Spec.decodesAsJson r t.
Proof.
  unfold ApiClient.isJsonResponse, Spec.decodesAsJson.
  destruct (resp_contentType r); [|reflexivity].
  now rewrite trimStartsWith_brace.
Qed.

(** C6 (as amended).  A response that the pipeline does not answer with a
    refresh, and whose body can be read as the text [t]: the body is
    JSON-decoded exactly when a non-empty [Content-Type] is present and
    either it names JSON or the first character of [t] that is not white
    space is [{]; otherwise it is kept as opaque text ([{message: t}], or
    [null] when [t] is empty).  A parse failure is never thrown: [data] is
    [null], and for a status in 200-299 [error] is
    ["Invalid JSON response"]; for another status [error] is the message
    drawn from the body or the status text, as for any failed request. *)
Theorem body_decoding (caller : nat) (endpoint : string) (options : RequestOptions)
    (st : AuthState) (r : Response) (t : string)
    (Hsent : ApiClient.or_default (opt_requiresAuth options) true = true ->
             ApiClient.accessToken_of st <> None)
    (Hplain : (resp_status r =? 401)
              && ApiClient.or_default (opt_requiresAuth options) true
              && negb (ApiClient.or_default (opt_skipRefreshToken options) false) = false)
    (Hbody : resp_body r = Some t) :
  let d :=
    if Spec.decodesAsJson r t
    then match JSON_parse t with Some v => v | None => JNull end
    else if Js.nonEmpty t then JObj [("message", JStr t)] else JNull in
  let e :=
    if negb (resp_ok r) then ApiClient.errorMessage d r
    else if Spec.decodesAsJson r t
         then match JSON_parse t with
              | Some _ => JNull
              | None => JStr "Invalid JSON response"
              end
         else JNull in
  delivered (exec (page st)
               [Start (callRequest caller endpoint options);
                FetchSettles 0 (inl r); BodyRead 1; BodyRead 2])
  = [GotResponse caller {| data := d; error := e; status := resp_status r |}].
Proof.
  intros d e. subst d e.
  rewrite <- isJsonResponse_spec.
  unfold page, callRequest, ApiClient.request.
  destruct (ApiClient.or_default (opt_requiresAuth options) true) eqn:Hreq.
  - destruct (ApiClient.accessToken_of st) as [tok|] eqn:Htok;
      [|exfalso; now apply Hsent].
    next_event. rewrite Htok. cbn -[exec].
    next_event. next_event. rewrite Hbody. cbn -[exec]. rewrite Hplain. cbn -[exec].
    unfold ApiClient.parseResponse, ApiClient.truthyText, ApiClient.parse.
    destruct (ApiClient.isJsonResponse (resp_contentType r) (Some t)) eqn:Hj;
      cbn -[exec].
    + destruct t as [|c0 t0]; cbn -[exec].
      * next_event. rewrite Hbody. cbn -[exec].
        destruct (JSON_parse EmptyString); cbn; destruct (resp_ok r); reflexivity.
      * destruct (JSON_parse (String c0 t0)); cbn -[exec]; next_event;
          cbn; destruct (resp_ok r); reflexivity.
    + destruct t as [|c0 t0]; cbn -[exec]; next_event;
        cbn; destruct (resp_ok r); reflexivity.
  - next_event.
    next_event. next_event. rewrite Hbody. cbn -[exec]. rewrite Hplain. cbn -[exec].
    unfold ApiClient.parseResponse, ApiClient.truthyText, ApiClient.parse.
    destruct (ApiClient.isJsonResponse (resp_contentType r) (Some t)) eqn:Hj;
      cbn -[exec].
    + destruct t as [|c0 t0]; cbn -[exec].
      * next_event. rewrite Hbody. cbn -[exec].
        destruct (JSON_parse EmptyString); cbn; destruct (resp_ok r); reflexivity.
      * destruct (JSON_parse (String c0 t0)); cbn -[exec]; next_event;
          cbn; destruct (resp_ok r); reflexivity.
    + destruct t as [|c0 t0]; cbn -[exec]; next_event;
        cbn; destruct (resp_ok r); reflexivity.
Qed.

(* --------------------------------------------------------------------- *)
(** *** The retry *)
(* --------------------------------------------------------------------- *)

Lemma request_attempts (endpoint : string) (options : RequestOptions) :
  Attempts 2 1 (ApiClient.request endpoint options).
Proof. repeat (attempts_step; cbn). Qed.

(** C3 (as amended).  On every path the request awaits at most two
    [fetch] calls of its own - the original and one reissue - and turns to
    the refresh coordinator at most once, never after the reissue.  When
    the first answer is 401 and the refresh succeeds with a body whose
    [tokens] are of the declared type: if it leaves a non-empty access token
    [a'] in the store, the request is reissued exactly once, to the same URL
    with the same method and body and with headers rebuilt around
    [Authorization: Bearer a'], and whatever the status of the second answer
    (a 401 included), it is the status of the result; if it leaves none (the
    body carries no tokens, or an empty [accessToken]), the request is not
    reissued and the status of the result is the 401 of the first answer.
    Either way nothing more is fetched, refreshed or left pending. *)
Theorem retry_at_most_once (caller : nat) (endpoint : string) (options : RequestOptions)
    (st : AuthState) (a r0 : string) (first refreshed second : Response)
    (tb : string) (dj : JsonValue) (newTokens : option AuthTokens)
    (Hauth : ApiClient.or_default (opt_requiresAuth options) true = true)
    (Hskip : ApiClient.or_default (opt_skipRefreshToken options) false = false)
    (Htok : ApiClient.accessToken_of st = Some a)
    (Hrt : ApiClient.refreshToken_of st = Some r0)
    (H401 : resp_status first = 401)
    (Hok : resp_ok refreshed = true)
    (Hrb : resp_body refreshed = Some tb)
    (Hparse : JSON_parse tb = Some dj)
    (Htyped : Typed.tokenFields dj = true)
    (Htokens : ApiClient.tokensOf dj = Ret newTokens) :
  Attempts 2 1 (ApiClient.request endpoint options)
  /\ match ApiClient.accessToken_of
             (set_session (user st) newTokens (isAuthenticated st) st) with
     | Some a' =>
         let s := exec (page st)
                    [Start (callRequest caller endpoint options);
                     FetchSettles 0 (inl first); BodyRead 1;
                     FetchSettles 2 (inl refreshed); BodyRead 3;
                     FetchSettles 4 (inl second); BodyRead 5] in
         map call_url (network s)
         = [ApiClient.formatUrl endpoint; ApiClient.formatUrl "users/refresh-token";
            ApiClient.formatUrl endpoint]
         /\ map call_init (skipn 2 (network s))
            = [{| init_method := ApiClient.or_default (opt_method options) GET;
                  init_headers :=
                    spread [("Content-Type", "application/json");
                            ("Authorization", "Bearer " ++ a')]
                           (ApiClient.or_default (opt_headers options) []);
                  init_body := ApiClient.bodyOf (opt_body options) |}]
         /\ (exists d e,
               delivered s
               = [GotResponse caller
                    {| data := d; error := e; status := resp_status second |}])
         /\ tasks s = []
         /\ promises s = [Some true]
     | None =>
         let s := exec (page st)
                    [Start (callRequest caller endpoint options);
                     FetchSettles 0 (inl first); BodyRead 1;
                     FetchSettles 2 (inl refreshed); BodyRead 3; BodyRead 4] in
         map call_url (network s)
         = [ApiClient.formatUrl endpoint; ApiClient.formatUrl "users/refresh-token"]
         /\ (exists d e,
               delivered s
               = [GotResponse caller
                    {| data := d; error := e; status := resp_status first |}])
         /\ tasks s = []
         /\ promises s = [Some true]
     end.
Proof.
  clear Htyped.
  split; [apply request_attempts|].
  assert (ApiClient.accessToken_of
            (set_session (user st) newTokens (isAuthenticated st) st)
          = match newTokens with
            | Some tk => Js.orNull (accessToken tk)
            | None => None
            end) as Hstored by reflexivity.
  rewrite Hstored. clear Hstored.
  unfold page, callRequest, ApiClient.request.
  rewrite Hauth, Hskip.
  destruct newTokens as [[[|ch acc] ref]|]; cbn [Js.orNull Js.nonEmpty accessToken];
    cbv zeta.
  - (* an empty access token *)
    next_event. rewrite Htok. cbn -[exec].
    next_event. rewrite H401. cbn -[exec].
    next_event.
    destruct (resp_body first) as [t1|] eqn:Hb1; cbn -[exec];
      unfold ApiClient.refreshExecutor; cbn -[exec]; rewrite Hrt; cbn -[exec];
      (next_event; rewrite Hok; cbn -[exec]);
      (next_event; rewrite Hrb; cbn -[exec]; rewrite Hparse; cbn -[exec];
       rewrite Htokens; cbn -[exec]);
      unfold ApiClient.parseResponse, ApiClient.truthyText, ApiClient.parse.
    + destruct (ApiClient.isJsonResponse (resp_contentType first) (Some t1));
        [destruct (Js.orNull t1) as [t1'|]; [destruct (JSON_parse t1')|]|];
        cbn -[exec]; next_event; try rewrite Hb1; cbn -[exec];
        try (destruct (JSON_parse t1); cbn -[exec]);
        rewrite ?exec_nil; cbn; rewrite ?H401; repeat split; eauto.
    + destruct (ApiClient.isJsonResponse (resp_contentType first) None);
        cbn -[exec]; next_event; try rewrite Hb1; cbn -[exec];
        rewrite ?exec_nil; cbn; rewrite ?H401; repeat split; eauto.
  - (* a new access token *)
    next_event. rewrite Htok. cbn -[exec].
    next_event. rewrite H401. cbn -[exec].
    next_event.
    destruct (resp_body first) as [t1|] eqn:Hb1; cbn -[exec];
      unfold ApiClient.refreshExecutor; cbn -[exec]; rewrite Hrt; cbn -[exec];
      (next_event; rewrite Hok; cbn -[exec]);
      (next_event; rewrite Hrb; cbn -[exec]; rewrite Hparse; cbn -[exec];
       rewrite Htokens; cbn -[exec]);
      next_event; unfold ApiClient.parseResponse, ApiClient.truthyText, ApiClient.parse.
    + destruct (ApiClient.isJsonResponse (resp_contentType second) (Some t1));
        [destruct (Js.orNull t1) as [t1'|]; [destruct (JSON_parse t1')|]|];
        cbn -[exec]; next_event;
        try (destruct (resp_body second) as [t2|]; cbn -[exec];
             [destruct (JSON_parse t2)|]; cbn -[exec]);
        rewrite exec_nil; cbn; repeat split; eauto.
    + destruct (ApiClient.isJsonResponse (resp_contentType second) None);
        cbn -[exec]; next_event;
        try (destruct (resp_body second) as [t2|]; cbn -[exec];
             [destruct (JSON_parse t2)|]; cbn -[exec]);
        rewrite exec_nil; cbn; repeat split; eauto.
  - (* no tokens at all *)
    next_event. rewrite Htok. cbn -[exec].
    next_event. rewrite H401. cbn -[exec].
    next_event.
    destruct (resp_body first) as [t1|] eqn:Hb1; cbn -[exec];
      unfold ApiClient.refreshExecutor; cbn -[exec]; rewrite Hrt; cbn -[exec];
      (next_event; rewrite Hok; cbn -[exec]);
      (next_event; rewrite Hrb; cbn -[exec]; rewrite Hparse; cbn -[exec];
       rewrite Htokens; cbn -[exec]);
      unfold ApiClient.parseResponse, ApiClient.truthyText, ApiClient.parse.
    + destruct (ApiClient.isJsonResponse (resp_contentType first) (Some t1));
        [destruct (Js.orNull t1) as [t1'|]; [destruct (JSON_parse t1')|]|];
        cbn -[exec]; next_event; try rewrite Hb1; cbn -[exec];
        try (destruct (JSON_parse t1); cbn -[exec]);
        rewrite ?exec_nil; cbn; rewrite ?H401; repeat split; eauto.
    + destruct (ApiClient.isJsonResponse (resp_contentType first) None);
        cbn -[exec]; next_event; try rewrite Hb1; cbn -[exec];
        rewrite ?exec_nil; cbn; rewrite ?H401; repeat split; eauto.
Qed.

(* --------------------------------------------------------------------- *)
(** *** Requests that need no authentication *)
(* --------------------------------------------------------------------- *)

Lemma callRequest_blind (caller : nat) (endpoint : string) (options : RequestOptions) :
  opt_requiresAuth options = Some false ->
  StoreBlind (callRequest caller endpoint options).
Proof.
  intros H. unfold callRequest, ApiClient.request. rewrite H.
  cbn. repeat (blind_step; cbn).
Qed.

(** The turn of a store-blind task does not depend on the store, and
    leaves it alone. *)
Lemma run_blind (h : Sys -> Sys) (p : Prog unit) :
  StoreBlind p ->
  forall st s,
    run_with h p (with_store st s) = with_store st (run_with h p s)
    /\ (Forall blindTask (tasks s) -> Forall blindTask (tasks (run_with h p s))).
Proof.
  induction 1 as [u|e|url init k Hk IH|r k Hk IH|d k Hk IH]; intros st s; cbn.
  - auto.
  - auto.
  - split; [reflexivity|]. intros Hs. apply Forall_app. split; [assumption|].
    constructor; [exact Hk|constructor].
  - split; [reflexivity|]. intros Hs. apply Forall_app. split; [assumption|].
    constructor; [exact Hk|constructor].
  - destruct (IH st (add_delivered d s)) as [E F]. split; [exact E|exact F].
Qed.

Lemma take_ready_blind ps ts : Forall blindTask ts -> take_ready ps ts = None.
Proof.
  induction 1 as [|t ts Ht Hts IH]; cbn; [reflexivity|].
  rewrite IH. destruct t; cbn in Ht; [reflexivity|reflexivity|contradiction].
Qed.

Lemma drain_blind n s : Forall blindTask (tasks s) -> drain n s = s.
Proof.
  intros H. destruct n; cbn; [reflexivity|].
  now rewrite (take_ready_blind (promises s) H).
Qed.

Lemma turn_blind p st s :
  StoreBlind p -> Forall blindTask (tasks s) ->
  turn p (with_store st s) = with_store st (turn p s)
  /\ Forall blindTask (tasks (turn p s)).
Proof.
  intros Hp Hs. unfold turn, run.
  destruct (run_blind startLogout Hp st s) as [E F].
  rewrite E. specialize (F Hs).
  assert (Forall blindTask (tasks (with_store st (run_with startLogout p s)))) as F'
    by exact F.
  rewrite !drain_blind by assumption.
  auto.
Qed.

Lemma take_fetch_blind io ts k rest :
  Forall blindTask ts -> take_fetch io ts = Some (k, rest) ->
  (forall o, StoreBlind (k o)) /\ Forall blindTask rest.
Proof.
  intros H. revert k rest.
  induction H as [|t ts Ht Hts IH]; cbn; intros k rest E; [discriminate|].
  destruct (take_fetch io ts) as [[k' rest']|].
  - destruct (IH _ _ eq_refl) as [Hk Hr].
    destruct t; cbn in Ht.
    + destruct (Nat.eqb io io0); inversion E; subst; auto.
    + inversion E; subst; auto.
    + contradiction.
  - destruct t; cbn in Ht; try discriminate.
    destruct (Nat.eqb io io0); inversion E; subst; auto.
Qed.

Lemma take_body_blind io ts q rest :
  Forall blindTask ts -> take_body io ts = Some (q, rest) ->
  StoreBlind q /\ Forall blindTask rest.
Proof.
  intros H. revert q rest.
  induction H as [|t ts Ht Hts IH]; cbn; intros q rest E; [discriminate|].
  destruct (take_body io ts) as [[q' rest']|].
  - destruct (IH _ _ eq_refl) as [Hk Hr].
    destruct t; cbn in Ht.
    + inversion E; subst; auto.
    + destruct (Nat.eqb io io0); inversion E; subst; auto.
    + contradiction.
  - destruct t; cbn in Ht; try discriminate.
    destruct (Nat.eqb io io0); inversion E; subst; auto.
Qed.

Lemma step_blind ev st s :
  blindEvent ev -> Forall blindTask (tasks s) ->
  step (with_store st s) ev = with_store st (step s ev)
  /\ Forall blindTask (tasks (step s ev)).
Proof.
  intros Hev Hs. destruct ev as [p|io o|io]; cbn [step].
  - apply turn_blind; assumption.
  - cbn [with_store upd_store tasks].
    destruct (take_fetch io (tasks s)) as [[k rest]|] eqn:E; [|auto].
    destruct (take_fetch_blind _ Hs E) as [Hk Hr].
    exact (@turn_blind (k o) st (set_tasks rest s) (Hk o) Hr).
  - cbn [with_store upd_store tasks].
    destruct (take_body io (tasks s)) as [[q rest]|] eqn:E; [|auto].
    destruct (take_body_blind _ Hs E) as [Hq Hr].
    exact (@turn_blind q st (set_tasks rest s) Hq Hr).
Qed.

Lemma exec_blind evs :
  Forall blindEvent evs ->
  forall st s, Forall blindTask (tasks s) ->
    exec (with_store st s) evs = with_store st (exec s evs).
Proof.
  induction 1 as [|ev evs Hev Hevs IH]; intros st s Hs; [reflexivity|].
  cbn [exec fold_left].
  destruct (@step_blind ev st s Hev Hs) as [E F].
  rewrite E. apply IH. exact F.
Qed.

(** C10.  A request made with [requiresAuth: false] does not depend on the
    stored credentials.  Two pages that differ only in their store, on
    which the same call is made and the network answers alike (other
    unauthenticated calls may be started meanwhile), issue the same [fetch]
    calls and hand the same results to their callers.  The call is sent with
    the JSON content type and the caller's headers only, no [Authorization]
    header being drawn from the store; and a 401 answer is the final result:
    no promise is created, the coordinator's fields and the store are left
    as they were, and nothing more is fetched. *)
Theorem unauthenticated_request_ignores_store (caller : nat) (endpoint : string)
    (options : RequestOptions) (st1 st2 : AuthState) (evs : list Event)
    (unauthorized : Response)
    (Hno : opt_requiresAuth options = Some false)
    (Hevs : Forall blindEvent evs)
    (H401 : resp_status unauthorized = 401) :
  let call := Start (callRequest caller endpoint options) in
  (network (exec (page st1) (call :: evs)) = network (exec (page st2) (call :: evs))
   /\ delivered (exec (page st1) (call :: evs)) = delivered (exec (page st2) (call :: evs)))
  /\ network (exec (page st1) [call])
     = [{| call_io := 0;
           call_url := ApiClient.formatUrl endpoint;
           call_init :=
             {| init_method := ApiClient.or_default (opt_method options) GET;
                init_headers :=
                  spread [("Content-Type", "application/json")]
                         (ApiClient.or_default (opt_headers options) []);
                init_body := ApiClient.bodyOf (opt_body options) |} |}]
  /\ let s := exec (page st1)
                [call; FetchSettles 0 (inl unauthorized); BodyRead 1; BodyRead 2] in
     (exists d e,
        delivered s = [GotResponse caller {| data := d; error := e; status := 401 |}])
     /\ length (network s) = 1%nat
     /\ promises s = []
     /\ this s = {| isRefreshing := false; refreshPromise := None |}
     /\ store s = st1.
Proof.
  intros call.
  assert (Hcall : blindEvent call) by (apply callRequest_blind; exact Hno).
  split; [|split].
  - assert (exec (page st2) (call :: evs)
            = with_store st2 (exec (page st1) (call :: evs))) as E.
    { change (page st2) with (with_store st2 (page st1)).
      apply exec_blind; [constructor; assumption|constructor]. }
    rewrite E. split; reflexivity.
  - subst call. unfold callRequest, ApiClient.request. rewrite Hno. reflexivity.
  - subst call. unfold page, callRequest, ApiClient.request. rewrite Hno.
    next_event. next_event. next_event.
    rewrite Bool.andb_false_r. cbn -[exec].
    unfold ApiClient.parseResponse, ApiClient.truthyText, ApiClient.parse.
    destruct (resp_body unauthorized) as [t1|] eqn:Hb; cbn -[exec].
    + destruct (ApiClient.isJsonResponse (resp_contentType unauthorized) (Some t1));
        [destruct (Js.orNull t1) as [t1'|]; [destruct (JSON_parse t1')|]|];
        cbn -[exec]; next_event;
        try (rewrite Hb; cbn -[exec]; destruct (JSON_parse t1)); cbn -[exec];
        rewrite exec_nil; cbn; rewrite H401; repeat split; eauto.
    + destruct (ApiClient.isJsonResponse (resp_contentType unauthorized) None);
        cbn -[exec]; next_event;
        try (rewrite Hb; cbn -[exec]);
        rewrite exec_nil; cbn; rewrite H401; repeat split; eauto.
Qed.

End Pipeline.
(* ===================================================================== *)
(** ** The scenarios, run *)
(* ===================================================================== *)

Section Scenarios.

#[local] Existing Instance Browser.runtime.

Import Scenario.

(** The formatter at [http://host/api]: [/health] and [health] are both
    [http://host/api/health], and an absolute URL is left alone. *)
Lemma formatUrl_normalizes_witness :
  Js.startsWith "https://example.org/v1" "http" = true
  /\ Js.startsWith "health" "http" = false
  /\ ApiClient.formatUrl "https://example.org/v1" = "https://example.org/v1"
  /\ ApiClient.formatUrl "health" = "http://host/api/health"
  /\ ApiClient.formatUrl "/health" = "http://host/api/health".
Proof.
  assert (Js.startsWith "https://example.org/v1" "http" = true) as Habs by reflexivity.
  assert (Js.startsWith "health" "http" = false) as Hrel by reflexivity.
  destruct (formatUrl_normalizes "https://example.org/v1" "health" Habs Hrel)
    as (Hx & _ & Hp & Hslash).
  split; [exact Habs|]. split; [exact Hrel|]. split; [exact Hx|].
  split; [exact Hp|].
  exact (eq_trans (eq_sym (Hslash eq_refl)) Hp).
Defined.

(** A relative path that already begins with a slash: [/foo] is formatted
    to [http://host/api/foo], but ['/' + '/foo'] to [http://host/api//foo]. *)
Lemma formatUrl_leading_slash_differs :
  Js.startsWith "/foo" "http" = false
  /\ ApiClient.formatUrl "/foo" = "http://host/api/foo"
  /\ ApiClient.formatUrl ("/" ++ "/foo") = "http://host/api//foo"
  /\ ApiClient.formatUrl "/foo" <> ApiClient.formatUrl ("/" ++ "/foo").
Proof. repeat split. vm_compute. discriminate. Qed.

(** C1 (the code at the failing input).  The first call is answered 401
    with the body [{message: "jwt expired"}], the refresh succeeds, and the
    retried call is answered 200 with [{ok: true}]: the caller gets status
    200 and, as [data], the body of the first response. *)
Theorem retry_parses_the_first_body :
  delivered (exec (page (session "a1" "r1")) (refreshAndRetry unauthorized))
  = [GotResponse 0
       {| data := JObj [("message", JStr "jwt expired")];
          error := JNull; status := 200 |}]
  /\ resp_body okTrue = Some (Browser.print (JObj [("ok", JBool true)]))
  /\ Browser.parse (Browser.print (JObj [("ok", JBool true)]))
     = Some (JObj [("ok", JBool true)]).
Proof. repeat split. Qed.

(** When the first response has an empty body, the retried body is read. *)
Example retry_after_empty_401 :
  delivered (exec (page (session "a1" "r1")) (refreshAndRetry unauthorizedEmpty))
  = [GotResponse 0
       {| data := JObj [("ok", JBool true)]; error := JNull; status := 200 |}].
Proof. reflexivity. Qed.

(** C4 (the code at the failing input).  The refresh call is answered 403.
    The caller gets [{data: null, error: "Authentication failed. Please log
    in again.", status: 401}] and the request was not retried, but at that
    moment the store still holds the session: [logout()] was started, not
    awaited, and it clears the store only after its own [users/logout]
    call, which is still in flight. *)
Theorem refresh_refused_session_not_yet_cleared :
  let s := exec (page (session "a1" "r1")) refreshRefused in
  delivered s
  = [GotResponse 0
       {| data := JNull;
          error := JStr "Authentication failed. Please log in again.";
          status := 401 |}]
  /\ promises s = [Some false]
  /\ map call_url (network s)
     = ["http://host/api/items"; "http://host/api/users/refresh-token";
        "http://host/api/users/logout"]
  /\ ApiClient.accessToken_of (store s) = Some "a1"
  /\ store s = session "a1" "r1"
  /\ length (tasks s) = 1%nat.
Proof. repeat split. Qed.

(** Once the [users/logout] call settles with anything but a 401, the
    session is cleared. *)
Example refresh_refused_then_logout_settles :
  let s := exec (page (session "a1" "r1"))
             (refreshRefused ++ [FetchSettles 3 (inl okTrue); BodyRead 4]) in
  tokens (store s) = None /\ user (store s) = None /\ tasks s = [].
Proof. repeat split. Qed.

(** After a refresh is over, the next 401 starts another.  One invocation,
    answered 401; the refresh call is refused; the [users/logout] call that
    the un-awaited [logout()] sends through the same pipeline with the stale
    access token is answered 401 too, and starts a refresh of its own,
    once the first is settled and the client is idle again: over time the
    backend sees two exchanges, both with the refresh token [r1], never two
    at once. *)
Example logout_starts_a_second_refresh :
  let s := exec (page (session "a1" "r1")) logoutUnauthorized in
  map call_url (network s)
  = ["http://host/api/items"; "http://host/api/users/refresh-token";
     "http://host/api/users/logout"; "http://host/api/users/refresh-token"]
  /\ length (filter isExchange (network s)) = 2%nat
  /\ map (fun c => init_body (call_init c)) (filter isExchange (network s))
     = [Some (Browser.print (JObj [("refreshToken", JStr "r1")]));
        Some (Browser.print (JObj [("refreshToken", JStr "r1")]))]
  /\ this s = {| isRefreshing := true; refreshPromise := Some 1%nat |}.
Proof. repeat split. Qed.

(** Two invocations answered 401 while the one refresh is in flight: one
    exchange, and both are retried with the new token. *)
Example two_callers_share_one_refresh :
  let s := exec (page (session "a1" "r1"))
             [ Start (callRequest 0 "items" ApiClient.noOptions);
               Start (callRequest 1 "drafts" ApiClient.noOptions);
               FetchSettles 0 (inl unauthorizedEmpty); BodyRead 2;
               FetchSettles 1 (inl unauthorizedEmpty); BodyRead 4;
               FetchSettles 3 (inl newTokens); BodyRead 5;
               FetchSettles 6 (inl okTrue); FetchSettles 7 (inl okTrue);
               BodyRead 8; BodyRead 9 ] in
  map call_url (network s)
  = ["http://host/api/items"; "http://host/api/drafts";
     "http://host/api/users/refresh-token";
     "http://host/api/items"; "http://host/api/drafts"]
  /\ delivered s
     = [GotResponse 0 {| data := JObj [("ok", JBool true)]; error := JNull; status := 200 |};
        GotResponse 1 {| data := JObj [("ok", JBool true)]; error := JNull; status := 200 |}]
  /\ promises s = [Some true].
Proof. repeat split. Qed.

(** Logged out, the call is answered at once and nothing is sent. *)
Lemma request_without_token_witness :
  ApiClient.or_default (opt_requiresAuth ApiClient.noOptions) true = true
  /\ ApiClient.accessToken_of (store (page loggedOut)) = None
  /\ delivered (run (callRequest 0 "items" ApiClient.noOptions) (page loggedOut))
     = [GotResponse 0
          {| data := JNull; error := JStr "Authentication required"; status := 401 |}]
  /\ network (run (callRequest 0 "items" ApiClient.noOptions) (page loggedOut)) = [].
Proof.
  assert (ApiClient.or_default (opt_requiresAuth ApiClient.noOptions) true = true)
    as Hauth by reflexivity.
  assert (ApiClient.accessToken_of (store (page loggedOut)) = None) as Hnone
    by reflexivity.
  destruct (request_without_token 0 "items" ApiClient.noOptions (page loggedOut)
              Hauth Hnone) as (E & N & _).
  split; [exact Hauth|]. split; [exact Hnone|]. split.
  - exact (f_equal delivered E).
  - exact N.
Defined.



(** Two ways in which the claim fails.  With no refresh token but an access
    token in the store, [refreshToken()] returns false after sending
    [POST users/logout], and the store still holds the session when it
    returns.  And while a refresh is in flight, a logout that clears the
    store leaves no refresh token behind; [refreshToken()] called then joins
    the refresh in flight, returns true when that succeeds, and the session
    ends with the new pair. *)
Lemma refresh_without_refresh_token_fails :
  (ApiClient.refreshToken_of (session "a1" EmptyString) = None
   /\ (let s := exec (page (session "a1" EmptyString)) [Start (callRefreshToken 0)] in
       delivered s = [GotBoolean 0 false]
       /\ map call_url (network s) = ["http://host/api/users/logout"]
       /\ map (fun c => init_method (call_init c)) (network s) = [POST]
       /\ store s = session "a1" EmptyString))
  /\ (let s1 := exec (page (session "a1" "r1"))
                  [Start (callRefreshToken 0); Start AuthStore.logout;
                   FetchSettles 1 (inl okTrue); BodyRead 2] in
      ApiClient.refreshToken_of (store s1) = None
      /\ isRefreshing (this s1) = true
      /\ let s2 := exec s1 [Start (callRefreshToken 1);
                            FetchSettles 0 (inl newTokens); BodyRead 3] in
         delivered s2 = [GotBoolean 0 true; GotBoolean 1 true]
         /\ map call_url (network s2)
            = ["http://host/api/users/refresh-token"; "http://host/api/users/logout"]
         /\ tokens (store s2) = Some {| accessToken := "a2"; refreshToken := "r2" |}).
Proof. repeat split. Qed.

(** A store that holds a user but no tokens, as a refresh answered without
    tokens leaves it: nothing is sent and the session is cleared.  And the
    store of the first failure above, where the logout call goes out. *)
Lemma refresh_without_refresh_token_witness :
  (isRefreshing (this (page Examples.staleUser)) = false
   /\ ApiClient.refreshToken_of (store (page Examples.staleUser)) = None
   /\ ApiClient.accessToken_of (store (page Examples.staleUser)) = None
   /\ network (run (callRefreshToken 0) (page Examples.staleUser)) = []
   /\ store (run (callRefreshToken 0) (page Examples.staleUser)) = loggedOut
   /\ promises (run (callRefreshToken 0) (page Examples.staleUser)) = [Some false]
   /\ delivered (turn (callRefreshToken 0) (page Examples.staleUser)) = [GotBoolean 0 false])
  /\ (isRefreshing (this (page (session "a1" EmptyString))) = false
      /\ ApiClient.refreshToken_of (store (page (session "a1" EmptyString))) = None
      /\ ApiClient.accessToken_of (store (page (session "a1" EmptyString))) = Some "a1"
      /\ map call_url (network (run (callRefreshToken 0) (page (session "a1" EmptyString))))
         = ["http://host/api/users/logout"]
      /\ store (run (callRefreshToken 0) (page (session "a1" EmptyString)))
         = session "a1" EmptyString
      /\ promises (run (callRefreshToken 0) (page (session "a1" EmptyString)))
         = [Some false]).
Proof.
  split.
  - assert (isRefreshing (this (page Examples.staleUser)) = false) as Hidle by reflexivity.
    assert (ApiClient.refreshToken_of (store (page Examples.staleUser)) = None) as Hnone
      by reflexivity.
    destruct (refresh_without_refresh_token 0 (page Examples.staleUser) Hidle Hnone)
      as (started & k & P & _ & _ & _ & _ & (N & S & _) & D).
    split; [exact Hidle|]. split; [exact Hnone|]. split; [reflexivity|].
    split; [exact N|]. split; [exact S|]. split; [exact P|]. exact (D eq_refl).
  - assert (isRefreshing (this (page (session "a1" EmptyString))) = false) as Hidle
      by reflexivity.
    assert (ApiClient.refreshToken_of (store (page (session "a1" EmptyString))) = None)
      as Hnone by reflexivity.
    destruct (refresh_without_refresh_token 0 (page (session "a1" EmptyString))
                Hidle Hnone)
      as (started & k & P & _ & _ & _ & _ & (N & S & _) & _).
    split; [exact Hidle|]. split; [exact Hnone|]. split; [reflexivity|].
    split; [exact (f_equal (map call_url) N)|]. split; [exact S|]. exact P.
Defined.

(** A body that begins with [{] but comes without a [Content-Type]: the
    rule of the specification would decode it, the pipeline hands it back as
    opaque text. *)
Lemma json_without_content_type_is_text :
  Spec.decodesAsStated bareJson (Browser.print (JObj [("a", JNum 1)])) = true
  /\ Browser.parse (Browser.print (JObj [("a", JNum 1)])) = Some (JObj [("a", JNum 1)])
  /\ delivered
       (exec (page (session "a1" "r1"))
          [getItems; FetchSettles 0 (inl bareJson); BodyRead 1; BodyRead 2])
     = [GotResponse 0
          {| data := JObj [("message", JStr (Browser.print (JObj [("a", JNum 1)])))];
             error := JNull; status := 200 |}].
Proof. repeat split. Qed.

(** A JSON answer is decoded. *)
Lemma body_decoding_witness :
  (ApiClient.or_default (opt_requiresAuth ApiClient.noOptions) true = true ->
   ApiClient.accessToken_of (session "a1" "r1") <> None)
  /\ (resp_status okTrue =? 401)
     && ApiClient.or_default (opt_requiresAuth ApiClient.noOptions) true
     && negb (ApiClient.or_default (opt_skipRefreshToken ApiClient.noOptions) false)
     = false
  /\ resp_body okTrue = Some (Browser.print (JObj [("ok", JBool true)]))
  /\ delivered
       (exec (page (session "a1" "r1"))
          [getItems; FetchSettles 0 (inl okTrue); BodyRead 1; BodyRead 2])
     = [GotResponse 0
          {| data := JObj [("ok", JBool true)]; error := JNull; status := 200 |}].
Proof.
  assert (ApiClient.or_default (opt_requiresAuth ApiClient.noOptions) true = true ->
          ApiClient.accessToken_of (session "a1" "r1") <> None) as Hsent
    by (intros _; discriminate).
  assert ((resp_status okTrue =? 401)
          && ApiClient.or_default (opt_requiresAuth ApiClient.noOptions) true
          && negb (ApiClient.or_default (opt_skipRefreshToken ApiClient.noOptions) false)
          = false) as Hplain by reflexivity.
  assert (resp_body okTrue = Some (Browser.print (JObj [("ok", JBool true)]))) as Hbody
    by reflexivity.
  split; [exact Hsent|]. split; [exact Hplain|]. split; [exact Hbody|].
  exact (body_decoding 0 "items" ApiClient.noOptions (session "a1" "r1") okTrue
           Hsent Hplain Hbody).
Defined.

(** The refresh is answered 200 with a body without tokens: [refreshToken()]
    resolves to true, the store is left without tokens, and the request is
    not reissued; the first answer is the result. *)
Lemma refresh_without_tokens_is_not_retried :
  let s := exec (page (session "a1" "r1"))
             [getItems; FetchSettles 0 (inl unauthorizedEmpty); BodyRead 1;
              FetchSettles 2 (inl noTokens); BodyRead 3] in
  promises s = [Some true]
  /\ map call_url (network s)
     = ["http://host/api/items"; "http://host/api/users/refresh-token"]
  /\ delivered s
     = [GotResponse 0 {| data := JNull; error := JStr "Unauthorized"; status := 401 |}]
  /\ tasks s = [].
Proof. repeat split. Qed.

(** The refresh brings the pair [a2], [r2]; the reissued call carries [a2]
    and its answer is the result. *)
Lemma retry_at_most_once_witness :
  ApiClient.or_default (opt_requiresAuth ApiClient.noOptions) true = true
  /\ ApiClient.or_default (opt_skipRefreshToken ApiClient.noOptions) false = false
  /\ ApiClient.accessToken_of (session "a1" "r1") = Some "a1"
  /\ ApiClient.refreshToken_of (session "a1" "r1") = Some "r1"
  /\ resp_status unauthorized = 401
  /\ resp_ok newTokens = true
  /\ resp_body newTokens = Some (Browser.print Examples.freshData)
  /\ JSON_parse (Browser.print Examples.freshData) = Some Examples.freshData
  /\ Typed.tokenFields Examples.freshData = true
  /\ ApiClient.tokensOf Examples.freshData = Ret (Some Examples.freshPair)
  /\ map (fun c => init_headers (call_init c))
       (skipn 2 (network (exec (page (session "a1" "r1")) (refreshAndRetry unauthorized))))
     = [[("Content-Type", "application/json"); ("Authorization", "Bearer a2")]]
  /\ delivered (exec (page (session "a1" "r1")) (refreshAndRetry unauthorizedEmpty))
     = [GotResponse 0 {| data := JObj [("ok", JBool true)]; error := JNull; status := 200 |}].
Proof.
  assert (ApiClient.or_default (opt_requiresAuth ApiClient.noOptions) true = true)
    as Hauth by reflexivity.
  assert (ApiClient.or_default (opt_skipRefreshToken ApiClient.noOptions) false = false)
    as Hskip by reflexivity.
  assert (ApiClient.accessToken_of (session "a1" "r1") = Some "a1") as Htok by reflexivity.
  assert (ApiClient.refreshToken_of (session "a1" "r1") = Some "r1") as Hrt by reflexivity.
  assert (resp_status unauthorized = 401) as H401 by reflexivity.
  assert (resp_ok newTokens = true) as Hok by reflexivity.
  assert (resp_body newTokens = Some (Browser.print Examples.freshData)) as Hrb
    by reflexivity.
  assert (JSON_parse (Browser.print Examples.freshData) = Some Examples.freshData)
    as Hparse by reflexivity.
  assert (Typed.tokenFields Examples.freshData = true) as Htyped by reflexivity.
  assert (ApiClient.tokensOf Examples.freshData = Ret (Some Examples.freshPair))
    as Htokens by reflexivity.
  destruct (@retry_at_most_once Browser.runtime 0 "items" ApiClient.noOptions
              (session "a1" "r1") "a1" "r1" unauthorized newTokens okTrue
              (Browser.print Examples.freshData) Examples.freshData
              (Some Examples.freshPair)
              Hauth Hskip Htok Hrt H401 Hok Hrb Hparse Htyped Htokens)
    as (_ & _ & Hinit & _).
  repeat (split; [assumption|]).
  split.
  - change (refreshAndRetry unauthorized)
      with [Start (callRequest 0 "items" ApiClient.noOptions);
            FetchSettles 0 (inl unauthorized); BodyRead 1;
            FetchSettles 2 (inl newTokens); BodyRead 3;
            FetchSettles 4 (inl okTrue); BodyRead 5].
    rewrite <- map_map with (f := call_init) (g := init_headers).
    rewrite Hinit. reflexivity.
  - reflexivity.
Defined.

(** A login-like call, made on a logged-in page and on a logged-out one. *)
Lemma unauthenticated_request_ignores_store_witness :
  opt_requiresAuth publicOptions = Some false
  /\ Forall blindEvent [FetchSettles 0 (inl unauthorized); BodyRead 1]
  /\ resp_status unauthorized = 401
  /\ delivered
       (exec (page (session "a1" "r1"))
          [Start (callRequest 0 "users/login" publicOptions);
           FetchSettles 0 (inl unauthorized); BodyRead 1])
     = delivered
         (exec (page loggedOut)
            [Start (callRequest 0 "users/login" publicOptions);
             FetchSettles 0 (inl unauthorized); BodyRead 1]).
Proof.
  assert (opt_requiresAuth publicOptions = Some false) as Hno by reflexivity.
  assert (Forall blindEvent [FetchSettles 0 (inl unauthorized); BodyRead 1]) as Hevs
    by (repeat constructor).
  assert (resp_status unauthorized = 401) as H401 by reflexivity.
  destruct (unauthenticated_request_ignores_store 0 "users/login" publicOptions
              (session "a1" "r1") loggedOut unauthorized Hno Hevs H401)
    as ((_ & D) & _).
  split; [exact Hno|]. split; [exact Hevs|]. split; [exact H401|]. exact D.
Defined.

End Scenarios.
(* ===================================================================== *)
(** ** One refresh at a time *)
(* ===================================================================== *)

Section SingleFlight.

Context {rt : Runtime}.

Import Coordinator.

Lemma unsettled_snoc (ps : list (option bool)) (o : option bool) :
  unsettled (ps ++ [o]) = (unsettled ps + (if isPending o then 1 else 0))%nat.
Proof.
  unfold unsettled. rewrite filter_app, length_app. cbn.
  destruct (isPending o); reflexivity.
Qed.

Lemma settle_at_length (p : nat) (v : bool) (ps : list (option bool)) :
  length (settle_at p v ps) = length ps.
Proof.
  revert p. induction ps as [|[w|] ps IH]; intros [|p]; cbn; auto.
Qed.

Lemma settle_at_unsettled (p : nat) (v : bool) (ps : list (option bool)) :
  nth_error ps p = Some None ->
  S (unsettled (settle_at p v ps)) = unsettled ps.
Proof.
  revert p. induction ps as [|[w|] ps IH]; intros [|p] H; cbn in *;
    try discriminate; try reflexivity.
  - apply IH. exact H.
  - unfold unsettled in *. cbn. f_equal. apply IH. exact H.
Qed.

Lemma exchanges_log_call (url : string) (init : RequestInit) (s : Sys) :
  exchanges (log_call url init s)
  = (exchanges s + (if String.eqb url refreshUrl then 1 else 0))%nat.
Proof.
  unfold exchanges.
  change (network (log_call url init s))
    with (network s ++ [{| call_io := next_io s; call_url := url; call_init := init |}])%list.
  rewrite filter_app, length_app. cbn [filter]. unfold isExchange at 2. cbn [call_url].
  destruct (String.eqb url refreshUrl); reflexivity.
Qed.

Lemma Tasks_callers (o : option PromiseId) (ts new : list Task) :
  Tasks o ts -> Forall callerTask new -> Tasks o (ts ++ new).
Proof.
  intros H Hnew. induction H; cbn.
  - induction Hnew; constructor; assumption.
  - now constructor.
  - now constructor.
Qed.

Lemma Tasks_executor (p : PromiseId) (ts : list Task) (t : Task) :
  Tasks None ts -> executorTask p t -> Tasks (Some p) (ts ++ [t]).
Proof.
  intros H Ht. remember None as o eqn:E. induction H; cbn.
  - apply Ts_executor; [exact Ht|constructor].
  - apply Ts_caller; auto.
  - discriminate.
Qed.

(** Taking a task out leaves callers, or takes the executor away. *)
Lemma take_fetch_Tasks (io : nat) (ts : list Task) :
  forall o k rest,
    Tasks o ts -> take_fetch io ts = Some (k, rest) ->
    ((forall x, Caller Unknown (k x)) /\ Tasks o rest)
    \/ (exists p, o = Some p /\ (forall x, Executor p Sent (k x)) /\ Tasks None rest).
Proof.
  induction ts as [|t ts IH]; intros o k rest H E; [discriminate|].
  cbn in E.
  assert (forall o', Tasks o' ts ->
            match take_fetch io ts with
            | Some (k0, rest') => Some (k0, t :: rest')
            | None => None
            end = Some (k, rest) ->
            exists rest', rest = t :: rest' /\ take_fetch io ts = Some (k, rest')) as Hlater.
  { intros o' _ E'. destruct (take_fetch io ts) as [[k0 rest']|]; [|discriminate].
    injection E' as <- <-. now exists rest'. }
  inversion H as [|o' t' ts' Ht Hts|p t' ts' Ht Hts]; subst.
  - (* a caller at the head *)
    destruct t as [io' k'|io' r k'|q k'].
    + destruct (Nat.eqb io io').
      * injection E as <- <-. left. split; assumption.
      * destruct (Hlater _ Hts E) as (rest' & -> & E').
        destruct (IH _ _ _ Hts E') as [[Hk Hr]|(p & -> & Hk & Hr)].
        -- left. split; [exact Hk|now constructor].
        -- right. exists p. split; [reflexivity|]. split; [exact Hk|now constructor].
    + destruct (Hlater _ Hts E) as (rest' & -> & E').
      destruct (IH _ _ _ Hts E') as [[Hk Hr]|(p & -> & Hk & Hr)].
      * left. split; [exact Hk|now constructor].
      * right. exists p. split; [reflexivity|]. split; [exact Hk|now constructor].
    + destruct (Hlater _ Hts E) as (rest' & -> & E').
      destruct (IH _ _ _ Hts E') as [[Hk Hr]|(p & -> & Hk & Hr)].
      * left. split; [exact Hk|now constructor].
      * right. exists p. split; [reflexivity|]. split; [exact Hk|now constructor].
  - (* the executor at the head *)
    destruct t as [io' k'|io' r k'|q k'].
    + destruct (Nat.eqb io io').
      * injection E as <- <-. right. exists p. repeat split; assumption.
      * destruct (Hlater _ Hts E) as (rest' & -> & E').
        destruct (IH _ _ _ Hts E') as [[Hk Hr]|(p' & Hp' & _)]; [|discriminate].
        left. split; [exact Hk|now apply Ts_executor].
    + destruct (Hlater _ Hts E) as (rest' & -> & E').
      destruct (IH _ _ _ Hts E') as [[Hk Hr]|(p' & Hp' & _)]; [|discriminate].
      left. split; [exact Hk|now apply Ts_executor].
    + destruct Ht.
Qed.

Lemma take_body_Tasks (io : nat) (ts : list Task) :
  forall o q rest,
    Tasks o ts -> take_body io ts = Some (q, rest) ->
    (Caller Unknown q /\ Tasks o rest)
    \/ (exists p, o = Some p /\ Executor p Sent q /\ Tasks None rest).
Proof.
  induction ts as [|t ts IH]; intros o q rest H E; [discriminate|].
  cbn in E.
  assert (forall o', Tasks o' ts ->
            match take_body io ts with
            | Some (q0, rest') => Some (q0, t :: rest')
            | None => None
            end = Some (q, rest) ->
            exists rest', rest = t :: rest' /\ take_body io ts = Some (q, rest')) as Hlater.
  { intros o' _ E'. destruct (take_body io ts) as [[q0 rest']|]; [|discriminate].
    injection E' as <- <-. now exists rest'. }
  inversion H as [|o' t' ts' Ht Hts|p t' ts' Ht Hts]; subst.
  - destruct t as [io' k'|io' r k'|p' k'].
    + destruct (Hlater _ Hts E) as (rest' & -> & E').
      destruct (IH _ _ _ Hts E') as [[Hk Hr]|(p & -> & Hk & Hr)].
      * left. split; [exact Hk|now constructor].
      * right. exists p. split; [reflexivity|]. split; [exact Hk|now constructor].
    + destruct (Nat.eqb io io').
      * injection E as <- <-. left. split; [apply Ht|assumption].
      * destruct (Hlater _ Hts E) as (rest' & -> & E').
        destruct (IH _ _ _ Hts E') as [[Hk Hr]|(p & -> & Hk & Hr)].
        -- left. split; [exact Hk|now constructor].
        -- right. exists p. split; [reflexivity|]. split; [exact Hk|now constructor].
    + destruct (Hlater _ Hts E) as (rest' & -> & E').
      destruct (IH _ _ _ Hts E') as [[Hk Hr]|(p & -> & Hk & Hr)].
      * left. split; [exact Hk|now constructor].
      * right. exists p. split; [reflexivity|]. split; [exact Hk|now constructor].
  - destruct t as [io' k'|io' r k'|p' k'].
    + destruct (Hlater _ Hts E) as (rest' & -> & E').
      destruct (IH _ _ _ Hts E') as [[Hk Hr]|(p0 & Hp0 & _)]; [|discriminate].
      left. split; [exact Hk|now apply Ts_executor].
    + destruct (Nat.eqb io io').
      * injection E as <- <-. right. exists p. split; [reflexivity|].
        split; [apply Ht|assumption].
      * destruct (Hlater _ Hts E) as (rest' & -> & E').
        destruct (IH _ _ _ Hts E') as [[Hk Hr]|(p0 & Hp0 & _)]; [|discriminate].
        left. split; [exact Hk|now apply Ts_executor].
    + destruct Ht.
Qed.

Lemma take_ready_Tasks (ps : list (option bool)) (ts : list Task) :
  forall o q rest,
    Tasks o ts -> take_ready ps ts = Some (q, rest) -> Passive q /\ Tasks o rest.
Proof.
  induction ts as [|t ts IH]; intros o q rest H E; [discriminate|].
  cbn in E.
  assert (forall o', Tasks o' ts ->
            match take_ready ps ts with
            | Some (q0, rest') => Some (q0, t :: rest')
            | None => None
            end = Some (q, rest) ->
            exists rest', rest = t :: rest' /\ take_ready ps ts = Some (q, rest')) as Hlater.
  { intros o' _ E'. destruct (take_ready ps ts) as [[q0 rest']|]; [|discriminate].
    injection E' as <- <-. now exists rest'. }
  inversion H as [|o' t' ts' Ht Hts|p t' ts' Ht Hts]; subst.
  - destruct t as [io' k'|io' r k'|p' k'].
    + destruct (Hlater _ Hts E) as (rest' & -> & E').
      destruct (IH _ _ _ Hts E') as [Hq Hr]. split; [exact Hq|now constructor].
    + destruct (Hlater _ Hts E) as (rest' & -> & E').
      destruct (IH _ _ _ Hts E') as [Hq Hr]. split; [exact Hq|now constructor].
    + destruct (nth_error ps p') as [[v|]|].
      * injection E as <- <-. split; [apply Ht|assumption].
      * destruct (Hlater _ Hts E) as (rest' & -> & E').
        destruct (IH _ _ _ Hts E') as [Hq Hr]. split; [exact Hq|now constructor].
      * destruct (Hlater _ Hts E) as (rest' & -> & E').
        destruct (IH _ _ _ Hts E') as [Hq Hr]. split; [exact Hq|now constructor].
  - destruct t as [io' k'|io' r k'|p' k'].
    + destruct (Hlater _ Hts E) as (rest' & -> & E').
      destruct (IH _ _ _ Hts E') as [Hq Hr]. split; [exact Hq|now apply Ts_executor].
    + destruct (Hlater _ Hts E) as (rest' & -> & E').
      destruct (IH _ _ _ Hts E') as [Hq Hr]. split; [exact Hq|now apply Ts_executor].
    + destruct Ht.
Qed.


(* --------------------------------------------------------------------- *)
(** *** A turn keeps the page coherent *)
(* --------------------------------------------------------------------- *)

Lemma benign_id : benign (fun s => s).
Proof.
  intros s. repeat split. exists []. split; [now rewrite app_nil_r|constructor].
Qed.

Lemma run_passive (q : Prog unit) :
  Passive q -> forall h, benign (run_with h q).
Proof.
  intros Hq h. induction Hq as [r|e|k Hk IH|f k Hk IH|url init k Hurl Hk|r k Hk|p k Hk
                              |d k Hk IH]; intros s; cbn [run_with].
  - apply benign_id.
  - repeat split. exists []. split; [cbn; now rewrite app_nil_r|constructor].
  - apply IH.
  - apply (IH (upd_store f s)).
  - split; [reflexivity|]. split; [reflexivity|]. split.
    + change (exchanges (log_call url init s) = exchanges s).
      rewrite exchanges_log_call. apply String.eqb_neq in Hurl. rewrite Hurl. lia.
    + eexists. split; [reflexivity|]. constructor; [exact Hk|constructor].
  - repeat split. eexists. split; [reflexivity|]. constructor; [exact Hk|constructor].
  - repeat split. eexists. split; [reflexivity|]. constructor; [exact Hk|constructor].
  - apply (IH (add_delivered d s)).
Qed.

Lemma paused_from (p : PromiseId) (s1 s s' : Sys) :
  paused p s1 s' -> this s1 = this s -> paused p s s'.
Proof.
  intros (o & Ht & He & Ho) E. exists o. split; [exact Ht|]. split; [exact He|].
  destruct o as [p'|]; [|exact Ho]. rewrite <- E. exact Ho.
Qed.

Lemma paused_coherent (p : PromiseId) (s s' : Sys) :
  paused p s s' -> refreshPromise (this s) = Some p -> coherent s'.
Proof.
  intros (o & Ht & He & Ho) Hp. exists o. split; [exact Ht|]. split; [exact He|].
  destruct o as [p'|]; [|exact Ho].
  destruct Ho as (-> & Hthis & Hf & Hn & Hu). rewrite Hthis in Hf |- *.
  repeat split; assumption.
Qed.

Lemma run_executor (h : Sys -> Sys) (Hh : benign h) (p : PromiseId) (g : Stage)
    (q : Prog unit) :
  Executor p g q ->
  forall s, running p g s ->
    paused p s (run_with h q s)
    /\ length (promises (run_with h q s)) = length (promises s)
    /\ (exchanges (run_with h q s) <= S (exchanges s))%nat
    /\ (g <> Fresh -> exchanges (run_with h q s) = exchanges s).
Proof.
  intros Hq. induction Hq as [r|g k Hk IH|g f k Hk IH|url init k Hk _|r k Hk _
                              |v k Hk IH|v k Hk IH|g k Hk IH|f k Hf Hk IH];
    intros s Hs; cbn [run_with].
  - destruct Hs as (Ht & Hf & Hu & He).
    split; [|split; [reflexivity|split; [lia|reflexivity]]].
    exists None. repeat split; assumption.
  - apply IH. exact Hs.
  - destruct (IH (upd_store f s) Hs) as (C & L & E1 & E2).
    split; [exact (@paused_from p _ s _ C eq_refl)|]. repeat split; assumption.
  - destruct Hs as (Ht & Hf & Hn & Hu & He).
    assert (exchanges (log_call url init s) <= S (exchanges s))%nat as Hle
      by (rewrite exchanges_log_call; destruct (String.eqb url refreshUrl); lia).
    split; [|split; [reflexivity|split; [exact Hle|congruence]]].
    exists (Some p). split; [|split].
    + apply Tasks_executor; [exact Ht|exact Hk].
    + change (exchanges (log_call url init s) <= length (promises s))%nat. lia.
    + repeat split; assumption.
  - destruct Hs as (Ht & Hf & Hn & Hu & He).
    split; [|split; [reflexivity|split; [unfold exchanges; cbn; lia|reflexivity]]].
    exists (Some p). split; [|split].
    + apply Tasks_executor; [exact Ht|exact Hk].
    + exact He.
    + repeat split; assumption.
  - destruct Hs as (Ht & Hf & Hn & Hu & He).
    pose proof (settle_at_unsettled p v _ Hn) as Hs1.
    destruct (IH (settle p v s)) as (C & L & E1 & E2).
    { split; [exact Ht|]. cbn -[unsettled exchanges]. rewrite settle_at_length.
      repeat split; [exact Hf|lia|unfold exchanges in *; cbn [network]; lia]. }
    cbn in L. rewrite settle_at_length in L.
    split; [exact (@paused_from p _ s _ C eq_refl)|].
    split; [exact L|]. split; [exact E1|]. congruence.
  - destruct Hs as (Ht & Hf & Hn & Hu & He).
    pose proof (settle_at_unsettled p v _ Hn) as Hs1.
    destruct (IH (settle p v s)) as (C & L & E1 & E2).
    { split; [exact Ht|]. cbn -[unsettled exchanges]. rewrite settle_at_length.
      repeat split; [exact Hf|lia|exact He]. }
    cbn in L. rewrite settle_at_length in L.
    split; [exact (@paused_from p _ s _ C eq_refl)|].
    split; [exact L|]. split; [exact E1|].
    intros _. apply E2. discriminate.
  - destruct (Hh s) as (Hthis & Hps & Hex & new & Hts & Hnew).
    destruct (IH (h s)) as (C & L & E1 & E2).
    { destruct Hs as (Ht & Hg). split.
      - rewrite Hts. apply Tasks_callers; assumption.
      - rewrite Hthis, Hps, Hex. exact Hg. }
    rewrite Hps, Hex in *.
    split; [exact (@paused_from p _ s _ C Hthis)|]. repeat split; assumption.
  - destruct Hs as (Ht & _ & Hu & He).
    destruct (IH (upd_this f s)) as (C & L & E1 & E2).
    { split; [exact Ht|]. cbn -[unsettled exchanges]. rewrite Hf.
      repeat split; assumption. }
    split; [|split; [exact L|split; [exact E1|intros _; apply E2; discriminate]]].
    destruct C as (o & Ht' & He' & Ho). exists o.
    split; [exact Ht'|]. split; [exact He'|].
    destruct o as [p'|]; [|exact Ho].
    destruct Ho as (_ & Hthis & Hflag & _). rewrite Hthis in Hflag. cbn in Hflag.
    rewrite Hf in Hflag. discriminate.
Qed.

Lemma run_caller (h : Sys -> Sys) (Hh : benign h) (m : Knows) (q : Prog unit) :
  Caller m q ->
  forall s, coherent s ->
    match m with
    | Unknown => True
    | Idle => isRefreshing (this s) = false
    | Busy => isRefreshing (this s) = true
    end ->
    coherent (run_with h q s)
    /\ (isRefreshing (this s) = true ->
        length (promises (run_with h q s)) = length (promises s)
        /\ exchanges (run_with h q s) = exchanges s).
Proof.
  intros Hq.
  induction Hq as [m r|m e|m k Hk IH|m f k Hk IH|m k Hk IH
                   |f ex register k Hf Hex Hreg Hk IH
                   |m url init k Hurl Hk _|m r k Hk _|m p k Hk
                   |m d k Hk IH];
    intros s Hs Hm; cbn [run_with].
  - split; [exact Hs|]. intros _. split; reflexivity.
  - split; [exact Hs|]. intros _. split; reflexivity.
  - apply IH; assumption.
  - apply (IH (upd_store f s)); assumption.
  - apply IH; [exact Hs|]. unfold learn. destruct (isRefreshing (this s)); reflexivity.
  - cbn in Hm. split; [|intros Hbusy; congruence].
    destruct Hs as (o & Ht & He & Ho).
    destruct o as [p0|]; [destruct Ho as (Ho & _); congruence|].
    destruct Ho as (_ & Hu).
    set (p := length (promises (upd_this f s))).
    set (s2 := run_with h (ex p) (add_promise (upd_this f s))).
    destruct (run_executor Hh (Hex p) (s := add_promise (upd_this f s)))
      as ((o & Ht' & He' & Ho') & _).
    { split; [exact Ht|]. cbn -[unsettled exchanges nth_error length]. rewrite Hf.
      split; [reflexivity|]. split; [apply nth_error_snoc|].
      split; [rewrite unsettled_snoc; cbn [isPending]; lia|].
      rewrite length_app. cbn [length]. unfold exchanges in *. cbn [network]. lia. }
    fold s2 in Ht', He', Ho'.
    apply (IH p (upd_this (register p) s2)); [|exact I].
    destruct (Hreg p (this s2)) as (Hkeep & Hset).
    exists o. split; [exact Ht'|]. split; [exact He'|].
    change (this (upd_this (register p) s2)) with (register p (this s2)).
    change (promises (upd_this (register p) s2)) with (promises s2).
    rewrite Hkeep, Hset.
    destruct o as [p'|]; [|exact Ho'].
    destruct Ho' as (-> & _ & Hflag & Hn & Hu'). repeat split; assumption.
  - destruct Hs as (o & Ht & He & Ho).
    assert (exchanges (log_call url init s) = exchanges s) as Hex.
    { rewrite exchanges_log_call. apply String.eqb_neq in Hurl. rewrite Hurl. lia. }
    split; [|intros _; split; [reflexivity|exact Hex]].
    exists o. split; [|split].
    + apply Tasks_callers; [exact Ht|]. constructor; [exact Hk|constructor].
    + change (exchanges (log_call url init s) <= length (promises s))%nat. lia.
    + exact Ho.
  - destruct Hs as (o & Ht & He & Ho).
    split; [|intros _; split; reflexivity].
    exists o. split; [|split; [exact He|exact Ho]].
    apply Tasks_callers; [exact Ht|]. constructor; [exact Hk|constructor].
  - destruct Hs as (o & Ht & He & Ho).
    split; [|intros _; split; reflexivity].
    exists o. split; [|split; [exact He|exact Ho]].
    apply (Tasks_callers (new := [WaitPromise p k]) Ht).
    constructor; [exact Hk|constructor].
  - apply (IH (add_delivered d s)); assumption.
Qed.

(* --------------------------------------------------------------------- *)
(** *** The client follows the protocol *)
(* --------------------------------------------------------------------- *)

Lemma append_same_head (u a b : string) : (u ++ a)%string = (u ++ b)%string -> a = b.
Proof. induction u; cbn; intros H; [exact H|]. injection H. auto. Qed.

(** The fixed endpoints of the stores are not the exchange's. *)
Lemma other_endpoint (e : string) :
  Js.startsWith e "http" = false ->
  ApiClient.cleanEndpoint e <> "users/refresh-token" ->
  ApiClient.formatUrl e <> refreshUrl.
Proof.
  intros Hrel Hne. unfold refreshUrl, ApiClient.formatUrl. rewrite Hrel. cbn.
  intros E. apply append_same_head in E. injection E as E. now apply Hne.
Qed.

Ltac other_url :=
  first
    [ assumption
    | apply (other_endpoint "users/logout"); [reflexivity|discriminate]
    | apply (other_endpoint "users/login"); [reflexivity|discriminate]
    | apply (other_endpoint "users/register"); [reflexivity|discriminate] ].

Ltac protocol_step :=
  first
    [ apply Ca_Ret
    | apply Ca_Throw
    | apply Ca_GetAuth; intro
    | apply Ca_SetAuth
    | apply Ca_GetThis; intro; unfold learn
    | apply Ca_Claim; [intro; reflexivity|intro|intros; split; reflexivity|intro]
    | apply Ca_Fetch; [other_url|intro]
    | apply Ca_ReadBody; intro
    | apply Ca_Await; intro
    | apply Ca_Deliver
    | apply Pa_Ret
    | apply Pa_Throw
    | apply Pa_GetAuth; intro
    | apply Pa_SetAuth
    | apply Pa_Fetch; [other_url|intro]
    | apply Pa_ReadBody; intro
    | apply Pa_Await; intro
    | apply Pa_Deliver
    | apply Ex_Ret
    | apply Ex_GetAuth; intro
    | apply Ex_SetAuth
    | apply Ex_Fetch; intro
    | apply Ex_ReadBody; intro
    | apply Ex_ResolveFresh
    | apply Ex_ResolveSent
    | apply Ex_CallLogout
    | apply Ex_Reset; [intro; reflexivity|]
    | split_match
    | progress autounfold with prog ].

Ltac protocol := repeat (protocol_step; cbn).

Lemma refreshExecutor_protocol (p : PromiseId) :
  Executor p Fresh (ApiClient.refreshExecutor p).
Proof. protocol. Qed.

Lemma logout_passive : Passive AuthStore.logout.
Proof. protocol. Qed.

Lemma callRefreshToken_protocol (caller : nat) : Caller Unknown (callRefreshToken caller).
Proof. unfold callRefreshToken. protocol. Qed.

Lemma callRequest_protocol (caller : nat) (endpoint : string) (options : RequestOptions) :
  ApiClient.formatUrl endpoint <> refreshUrl ->
  Caller Unknown (callRequest caller endpoint options).
Proof. intros Hurl. unfold callRequest. protocol. Qed.


Lemma clientCall_protocol (p : Prog unit) : clientCall p -> Caller Unknown p.
Proof.
  intros [caller endpoint options Hurl|caller| |email password|name email password].
  - now apply callRequest_protocol.
  - apply callRefreshToken_protocol.
  - protocol.
  - unfold AuthActions.login, AuthActions.authenticate. protocol.
  - unfold AuthActions.register, AuthActions.authenticate. protocol.
Qed.

Lemma startLogout_benign : benign startLogout.
Proof. apply run_passive, logout_passive. Qed.

(* --------------------------------------------------------------------- *)
(** *** Every event keeps the page coherent *)
(* --------------------------------------------------------------------- *)

Lemma drain_coherent (n : nat) :
  forall s, coherent s ->
    coherent (drain n s)
    /\ promises (drain n s) = promises s
    /\ exchanges (drain n s) = exchanges s
    /\ this (drain n s) = this s.
Proof.
  induction n as [|n IH]; intros s Hs; cbn [drain]; [repeat split; exact Hs|].
  destruct (take_ready (promises s) (tasks s)) as [[q rest]|] eqn:E;
    [|repeat split; exact Hs].
  destruct Hs as (o & Ht & He & Ho).
  destruct (take_ready_Tasks _ Ht E) as (Hq & Hrest).
  destruct (run_passive Hq startLogout (set_tasks rest s))
    as (Hthis & Hps & Hex & new & Hts & Hnew).
  change (this (set_tasks rest s)) with (this s) in Hthis.
  change (promises (set_tasks rest s)) with (promises s) in Hps.
  change (tasks (set_tasks rest s)) with rest in Hts.
  change (exchanges (set_tasks rest s)) with (exchanges s) in Hex.
  destruct (IH (run q (set_tasks rest s))) as (C & P & X & T).
  - exists o. unfold run. rewrite Hthis, Hps, Hex, Hts.
    split; [now apply Tasks_callers|]. split; assumption.
  - unfold run in *. rewrite P, X, T, Hps, Hex, Hthis. repeat split. exact C.
Qed.

Lemma in_flight (s : Sys) :
  coherent s ->
  (unsettled (promises s) <= 1)%nat
  /\ (unsettled (promises s) = 1%nat <-> isRefreshing (this s) = true).
Proof.
  intros (o & _ & _ & Ho). destruct o as [p|].
  - destruct Ho as (Hf & _ & _ & Hu). rewrite Hu, Hf. split; [lia|tauto].
  - destruct Ho as (Hf & Hu). rewrite Hu, Hf. split; [lia|].
    split; intros H; discriminate.
Qed.

Lemma step_coherent (ev : Event) (s : Sys) :
  clientEvent ev -> coherent s ->
  coherent (step s ev)
  /\ (isRefreshing (this s) = true ->
      length (promises (step s ev)) = length (promises s)
      /\ exchanges (step s ev) = exchanges s).
Proof.
  intros Hev Hs. destruct ev as [p|io outcome|io]; cbn [step].
  - destruct (run_caller startLogout_benign (clientCall_protocol Hev) Hs I) as (C & Q).
    change (run_with startLogout p s) with (run p s) in C, Q.
    change (turn p s) with (drain (S (length (tasks (run p s)))) (run p s)).
    destruct (drain_coherent (S (length (tasks (run p s)))) C) as (C' & P & X & _).
    split; [exact C'|]. intros Hb. rewrite P, X. now apply Q.
  - destruct (take_fetch io (tasks s)) as [[k rest]|] eqn:E;
      [|split; [exact Hs|intros _; split; reflexivity]].
    destruct Hs as (o & Ht & He & Ho).
    assert (coherent (run (k outcome) (set_tasks rest s))
            /\ (isRefreshing (this s) = true ->
                length (promises (run (k outcome) (set_tasks rest s)))
                = length (promises s)
                /\ exchanges (run (k outcome) (set_tasks rest s)) = exchanges s))
      as (C & Q).
    { destruct (take_fetch_Tasks _ Ht E) as [[Hk Hrest]|(p & -> & Hk & Hrest)].
      - destruct (run_caller startLogout_benign (Hk outcome) (s := set_tasks rest s))
          as (C & Q); [exists o; repeat split; assumption|exact I|].
        split; [exact C|exact Q].
      - destruct Ho as (Hf & Hrp & Hn & Hu).
        destruct (run_executor startLogout_benign (Hk outcome) (s := set_tasks rest s))
          as (C & L & _ & X).
        { split; [exact Hrest|]. repeat split; assumption. }
        split; [exact (@paused_coherent p _ _ C Hrp)|].
        intros _. split; [exact L|]. apply X. discriminate. }
    change (turn (k outcome) (set_tasks rest s))
      with (drain (S (length (tasks (run (k outcome) (set_tasks rest s)))))
              (run (k outcome) (set_tasks rest s))).
    destruct (drain_coherent
                (S (length (tasks (run (k outcome) (set_tasks rest s))))) C)
      as (C' & P & X & _).
    split; [exact C'|]. intros Hb. rewrite P, X. now apply Q.
  - destruct (take_body io (tasks s)) as [[q rest]|] eqn:E;
      [|split; [exact Hs|intros _; split; reflexivity]].
    destruct Hs as (o & Ht & He & Ho).
    assert (coherent (run q (set_tasks rest s))
            /\ (isRefreshing (this s) = true ->
                length (promises (run q (set_tasks rest s))) = length (promises s)
                /\ exchanges (run q (set_tasks rest s)) = exchanges s))
      as (C & Q).
    { destruct (take_body_Tasks _ Ht E) as [[Hq Hrest]|(p & -> & Hq & Hrest)].
      - destruct (run_caller startLogout_benign Hq (s := set_tasks rest s))
          as (C & Q); [exists o; repeat split; assumption|exact I|].
        split; [exact C|exact Q].
      - destruct Ho as (Hf & Hrp & Hn & Hu).
        destruct (run_executor startLogout_benign Hq (s := set_tasks rest s))
          as (C & L & _ & X).
        { split; [exact Hrest|]. repeat split; assumption. }
        split; [exact (@paused_coherent p _ _ C Hrp)|].
        intros _. split; [exact L|]. apply X. discriminate. }
    change (turn q (set_tasks rest s))
      with (drain (S (length (tasks (run q (set_tasks rest s)))))
              (run q (set_tasks rest s))).
    destruct (drain_coherent (S (length (tasks (run q (set_tasks rest s))))) C)
      as (C' & P & X & _).
    split; [exact C'|]. intros Hb. rewrite P, X. now apply Q.
Qed.

Lemma exec_coherent (evs : list Event) :
  Forall clientEvent evs -> forall s, coherent s -> coherent (exec s evs).
Proof.
  induction 1 as [|ev evs Hev _ IH]; intros s Hs; [exact Hs|].
  rewrite exec_cons. apply IH. now apply step_coherent.
Qed.

Lemma page_coherent (st : AuthState) : coherent (page st).
Proof.
  exists None. split; [constructor|]. split; [cbn; lia|]. split; reflexivity.
Qed.

(** While the refresh stays in flight, events add no exchange and no
    promise. *)
Lemma exec_in_flight (more : list Event) :
  Forall clientEvent more ->
  forall s, coherent s ->
    (forall k, (k < length more)%nat ->
               isRefreshing (this (exec s (firstn k more))) = true) ->
    length (promises (exec s more)) = length (promises s)
    /\ exchanges (exec s more) = exchanges s.
Proof.
  induction 1 as [|ev more Hev _ IH]; intros s Hs Hbusy; [split; reflexivity|].
  rewrite exec_cons.
  destruct (@step_coherent ev s Hev Hs) as (C & Q).
  destruct Q as (L & X); [apply (Hbusy O); cbn; lia|].
  destruct (IH (step s ev) C) as (L' & X').
  - intros k Hk. specialize (Hbusy (S k)). cbn [firstn] in Hbusy.
    rewrite exec_cons in Hbusy. apply Hbusy. cbn. lia.
  - split; congruence.
Qed.


(** C2.  One refresh at a time.  On a page where the application calls
    [request] (for endpoints other than the exchange's own), [refreshToken],
    [login], [register] and [logout], any number of times and in any order,
    and the network answers in any order:
    at every moment at most one refresh promise is unsettled, and one is
    exactly when [isRefreshing] is set; the [POST users/refresh-token] calls
    never outnumber the refreshes started, so that each refresh sends at
    most one; while a refresh is in flight, [refreshPromise] is its
    unsettled promise, and a call of [refreshToken()], from [request] or
    from outside, suspends on that promise without sending or changing
    anything and goes on with the value the promise is settled with; and
    whatever calls are started and whatever answers arrive while the refresh
    stays in flight, no further exchange is sent and no further refresh is
    started. *)
Theorem one_refresh_at_a_time (st : AuthState) (evs : list Event)
    (Hevs : Forall clientEvent evs) :
  let s := exec (page st) evs in
  (unsettled (promises s) <= 1)%nat
  /\ (unsettled (promises s) = 1%nat <-> isRefreshing (this s) = true)
  /\ (exchanges s <= length (promises s))%nat
  /\ (isRefreshing (this s) = true ->
      exists p,
        refreshPromise (this s) = Some p
        /\ nth_error (promises s) p = Some None
        /\ forall k : bool -> Prog unit,
             run (x <- ApiClient.refreshToken ;; k x) s = suspend (WaitPromise p k) s)
  /\ (forall more,
        Forall clientEvent more ->
        (forall n, (n < length more)%nat ->
                   isRefreshing (this (exec s (firstn n more))) = true) ->
        exchanges (exec s more) = exchanges s
        /\ length (promises (exec s more)) = length (promises s)).
Proof.
  cbv zeta.
  pose proof (exec_coherent Hevs (page_coherent st)) as C.
  destruct (in_flight C) as (H1 & H2).
  split; [exact H1|]. split; [exact H2|]. split; [|split].
  - destruct C as (o & _ & He & _). exact He.
  - intros Hbusy. destruct C as (o & _ & _ & Ho).
    destruct o as [p|]; [|destruct Ho; congruence].
    destruct Ho as (_ & Hp & Hn & _). exists p.
    split; [exact Hp|]. split; [exact Hn|].
    intros k. unfold run, ApiClient.refreshToken, ApiClient.awaitRefreshPromise.
    cbn. rewrite Hbusy. cbn. rewrite Hp. reflexivity.
  - intros more Hmore Hstay.
    destruct (exec_in_flight Hmore C Hstay) as (L & X). split; assumption.
Qed.

End SingleFlight.

Section SingleFlightRun.
#[local] Existing Instance Browser.runtime.
Import Scenario.

(** Two calls answered 401: the second learns of it while the refresh of
    the first is in flight. *)
Lemma one_refresh_at_a_time_witness :
  let evs := [Start (callRequest 0 "items" ApiClient.noOptions);
              Start (callRequest 1 "drafts" ApiClient.noOptions);
              FetchSettles 0 (inl unauthorizedEmpty); BodyRead 2;
              FetchSettles 1 (inl unauthorizedEmpty); BodyRead 4] in
  let s := exec (page (session "a1" "r1")) evs in
  Forall Coordinator.clientEvent evs
  /\ (Coordinator.unsettled (promises s) <= 1)%nat
  /\ (Coordinator.exchanges s <= length (promises s))%nat
  /\ isRefreshing (this s) = true
  /\ map call_url (network s)
     = ["http://host/api/items"; "http://host/api/drafts";
        "http://host/api/users/refresh-token"]
  /\ promises s = [None].
Proof.
  cbv zeta.
  assert (Forall Coordinator.clientEvent
            [Start (callRequest 0 "items" ApiClient.noOptions);
             Start (callRequest 1 "drafts" ApiClient.noOptions);
             FetchSettles 0 (inl unauthorizedEmpty); BodyRead 2;
             FetchSettles 1 (inl unauthorizedEmpty); BodyRead 4]) as Hevs.
  { repeat constructor; intros H; discriminate H. }
  destruct (@one_refresh_at_a_time Browser.runtime (session "a1" "r1") _ Hevs)
    as (H1 & _ & H3 & _).
  split; [exact Hevs|]. split; [exact H1|]. split; [exact H3|]. repeat split.
Defined.
End SingleFlightRun.

(* ===================================================================== *)
(** ** Regular expressions: the matcher decides the language *)
(* ===================================================================== *)

Section RegexFacts.

Import Regex.

Lemma string_app_nil_r (s : string) : s ++ EmptyString = s.
Proof. induction s; simpl; congruence. Qed.

Lemma string_app_assoc (s1 s2 s3 : string) : (s1 ++ s2) ++ s3 = s1 ++ (s2 ++ s3).
Proof. induction s1; simpl; congruence. Qed.

Lemma string_app_length (s1 s2 : string) :
  String.length (s1 ++ s2) = (String.length s1 + String.length s2)%nat.
Proof. induction s1; simpl; congruence. Qed.

Lemma string_app_eq_nil (s1 s2 : string) : s1 ++ s2 = EmptyString -> s1 = EmptyString /\ s2 = EmptyString.
Proof. destruct s1; simpl; [auto|discriminate]. Qed.

Lemma seq_inv (r1 r2 : re) (s : string) :
  Lang (Seq r1 r2) s -> exists s1 s2, s = s1 ++ s2 /\ Lang r1 s1 /\ Lang r2 s2.
Proof. intros H. inversion H; subst. eauto. Qed.

Lemma class_inv (p : ascii -> bool) (s : string) :
  Lang (Class p) s -> exists c, s = String c EmptyString /\ p c = true.
Proof. intros H. inversion H; subst. eauto. Qed.

Lemma alt_inv (r1 r2 : re) (s : string) : Lang (Alt r1 r2) s -> Lang r1 s \/ Lang r2 s.
Proof. intros H. inversion H; subst; auto. Qed.

Lemma nullable_spec (r : re) : nullable r = true <-> Lang r EmptyString.
Proof.
  induction r as [| |p|r1 IH1 r2 IH2|r1 IH1 r2 IH2|r IH]; simpl.
  - split; [discriminate|]. intros H; inversion H.
  - split; [constructor|reflexivity].
  - split; [discriminate|]. intros H; inversion H.
  - rewrite Bool.andb_true_iff, IH1, IH2. split.
    + intros [H1 H2]. change EmptyString with (EmptyString ++ EmptyString). now constructor.
    + intros H. destruct (seq_inv H) as (s1 & s2 & E & H1 & H2).
      symmetry in E. destruct (string_app_eq_nil _ _ E) as [-> ->]. auto.
  - rewrite Bool.orb_true_iff, IH1, IH2. split.
    + intros [H|H]; [now apply L_AltL|now apply L_AltR].
    + apply alt_inv.
  - split; [constructor|reflexivity].
Qed.

(** A word of [r*] that begins with [c] begins with a word of [r] that
    begins with [c]. *)
Lemma star_cons_inv (r : re) (w : string) :
  Lang (Star r) w ->
  forall c s, w = String c s ->
  exists s1 s2, s = s1 ++ s2 /\ Lang r (String c s1) /\ Lang (Star r) s2.
Proof.
  intros H. remember (Star r) as q eqn:Eq.
  induction H; try discriminate Eq.
  - intros c s E. discriminate.
  - injection Eq as ->. intros c s E.
    destruct s1 as [|c1 s1'].
    + simpl in E. apply (IHLang2 eq_refl c s E).
    + simpl in E. injection E as -> <-.
      exists s1', s2. auto.
Qed.

Lemma deriv_spec (r : re) : forall c s, Lang (deriv c r) s <-> Lang r (String c s).
Proof.
  induction r as [| |p|r1 IH1 r2 IH2|r1 IH1 r2 IH2|r IH]; intros c s; simpl.
  - split; intros H; inversion H.
  - split; intros H; inversion H.
  - destruct (p c) eqn:Hp; split; intros H.
    + inversion H; subst. now constructor.
    + inversion H; subst. constructor.
    + inversion H.
    + inversion H; subst. congruence.
  - assert (Lang (Seq (deriv c r1) r2) s -> Lang (Seq r1 r2) (String c s)) as Hseq.
    { intros H'. destruct (seq_inv H') as (s1 & s2 & -> & H1 & H2).
      change (String c (s1 ++ s2)) with (String c s1 ++ s2).
      constructor; [now apply IH1|assumption]. }
    split.
    + intros H.
      destruct (nullable r1) eqn:Hn; [|now apply Hseq].
      destruct (alt_inv H) as [H'|H']; [now apply Hseq|].
      change (String c s) with (EmptyString ++ String c s).
      constructor; [now apply nullable_spec|now apply IH2].
    + intros H. destruct (seq_inv H) as (s1 & s2 & E & H1 & H2).
      destruct s1 as [|c1 s1'].
      * simpl in E. subst s2.
        assert (nullable r1 = true) as Hn by now apply nullable_spec.
        rewrite Hn. apply L_AltR. now apply IH2.
      * simpl in E. injection E as <- ->.
        assert (Lang (Seq (deriv c r1) r2) (s1' ++ s2)) as Hs
          by (constructor; [now apply IH1|assumption]).
        destruct (nullable r1); [now apply L_AltL|assumption].
  - split; intros H.
    + destruct (alt_inv H) as [H'|H'];
        [apply L_AltL; now apply IH1|apply L_AltR; now apply IH2].
    + destruct (alt_inv H) as [H'|H'];
        [apply L_AltL; now apply IH1|apply L_AltR; now apply IH2].
  - split.
    + intros H. destruct (seq_inv H) as (s1 & s2 & -> & H1 & H2).
      change (String c (s1 ++ s2)) with (String c s1 ++ s2).
      constructor; [now apply IH|assumption].
    + intros H.
      destruct (star_cons_inv H eq_refl) as (s1 & s2 & -> & H1 & H2).
      constructor; [now apply IH|assumption].
Qed.

Lemma matches_spec (s : string) : forall r, matches r s = true <-> Lang r s.
Proof.
  induction s as [|c s IH]; intros r; simpl.
  - apply nullable_spec.
  - rewrite IH. apply deriv_spec.
Qed.

(** The words of a starred class are the words over the class. *)
Lemma star_class (p : ascii -> bool) (s : string) :
  Lang (Star (Class p)) s <-> Utils.allChars p s = true.
Proof.
  split.
  - intros H. remember (Star (Class p)) as q eqn:Eq.
    induction H; try discriminate Eq; [reflexivity|].
    injection Eq as ->. destruct (class_inv H) as (c & -> & Hc). simpl.
    rewrite Hc. now apply IHLang2.
  - induction s as [|c s IH]; simpl; intros H; [constructor|].
    apply Bool.andb_true_iff in H as [Hc Hs].
    change (String c s) with (String c EmptyString ++ s).
    constructor; [now constructor|now apply IH].
Qed.

Lemma plus_class (p : ascii -> bool) (s : string) :
  Lang (Plus (Class p)) s <-> s <> EmptyString /\ Utils.allChars p s = true.
Proof.
  split.
  - intros H. destruct (seq_inv H) as (s1 & s2 & -> & H1 & H2).
    destruct (class_inv H1) as (c & -> & Hc). simpl. split; [discriminate|].
    rewrite Hc. now apply star_class.
  - intros [Hne H]. destruct s as [|c s]; [congruence|]. simpl in H.
    apply Bool.andb_true_iff in H as [Hc Hs].
    change (String c s) with (String c EmptyString ++ s).
    constructor; [now constructor|now apply star_class].
Qed.

Lemma atLeastTwo_class (p : ascii -> bool) (s : string) :
  Lang (AtLeastTwo (Class p)) s <->
  Utils.allChars p s = true /\ (2 <= String.length s)%nat.
Proof.
  split.
  - intros H. destruct (seq_inv H) as (s1 & s2 & -> & H1 & H2).
    destruct (class_inv H1) as (c1 & -> & Hc1).
    destruct (seq_inv H2) as (s3 & s4 & -> & H3 & H4).
    destruct (class_inv H3) as (c2 & -> & Hc2). simpl.
    rewrite Hc1, Hc2. split; [now apply star_class|lia].
  - intros [H Hl]. destruct s as [|c1 [|c2 s]]; simpl in Hl; try lia.
    simpl in H.
    apply Bool.andb_true_iff in H as [Hc1 H].
    apply Bool.andb_true_iff in H as [Hc2 Hs].
    change (String c1 (String c2 s)) with (String c1 EmptyString ++ (String c2 EmptyString ++ s)).
    constructor; [now constructor|].
    constructor; [now constructor|now apply star_class].
Qed.

End RegexFacts.

(* ===================================================================== *)
(** ** [lib/utils.ts]: which addresses pass *)
(* ===================================================================== *)

Section EmailFacts.

Import Regex.

(** X17.  [validateEmail] accepts exactly the strings [local@domain.tld]
    with a non-empty [local] over letters, digits and [._%+-], a non-empty
    [domain] over letters, digits, [.] and [-], and a [tld] of at least two
    letters. *)
Theorem validateEmail_shape (email : string) :
  Utils.validateEmail email = true <->
  exists l d t,
    email = l ++ "@" ++ d ++ "." ++ t
    /\ l <> EmptyString /\ Utils.allChars Utils.isLocalChar l = true
    /\ d <> EmptyString /\ Utils.allChars Utils.isDomainChar d = true
    /\ Utils.allChars Utils.isLetter t = true /\ (2 <= String.length t)%nat.
Proof.
  unfold Utils.validateEmail. rewrite matches_spec. unfold Utils.emailRegex. split.
  - intros H.
    destruct (seq_inv H) as (l & s1 & -> & Hl & H1).
    destruct (seq_inv H1) as (a & s2 & -> & Ha & H2).
    destruct (seq_inv H2) as (d & s3 & -> & Hd & H3).
    destruct (seq_inv H3) as (p & t & -> & Hp & Ht).
    destruct (class_inv Ha) as (c & -> & Hc).
    destruct (class_inv Hp) as (c' & -> & Hc').
    apply Ascii.eqb_eq in Hc, Hc'. subst c c'.
    apply plus_class in Hl as [Hl1 Hl2].
    apply plus_class in Hd as [Hd1 Hd2].
    apply atLeastTwo_class in Ht as [Ht1 Ht2].
    exists l, d, t. repeat split; assumption.
  - intros (l & d & t & -> & Hl1 & Hl2 & Hd1 & Hd2 & Ht1 & Ht2).
    constructor; [now apply plus_class|].
    constructor; [now constructor|].
    constructor; [now apply plus_class|].
    constructor; [now constructor|].
    now apply atLeastTwo_class.
Qed.

End EmailFacts.

(* ===================================================================== *)
(** ** [lib/api.ts]: the two formatters *)
(* ===================================================================== *)

Section ApiPathFacts.

Context {rt : Runtime}.

Lemma endsWith_spec (p s : string) :
  Api.endsWith s p = true <-> exists pre, s = pre ++ p.
Proof.
  induction s as [|c s IH]; cbn [Api.endsWith].
  - rewrite Bool.orb_false_r, String.eqb_eq. split.
    + intros <-. now exists EmptyString.
    + intros [pre E]. symmetry in E.
      now destruct (string_app_eq_nil _ _ E) as [_ ->].
  - rewrite Bool.orb_true_iff, String.eqb_eq, IH. split.
    + intros [<-|[pre ->]]; [now exists EmptyString|now exists (String c pre)].
    + intros [[|c' pre] E]; simpl in E; [now left|].
      injection E as -> ->. right. now exists pre.
Qed.

Lemma endsWith_app (pre p : string) : Api.endsWith (pre ++ p) p = true.
Proof. apply endsWith_spec. now exists pre. Qed.

Lemma formattedPath_slash (path : string) :
  Js.startsWith path "/" = false ->
  Api.formattedPath ("/" ++ path) = Api.formattedPath path.
Proof.
  intros H. unfold Api.formattedPath. rewrite H.
  destruct path; reflexivity.
Qed.

(** X15.  [formatApiPath] puts the path, with a leading slash added when it
    has none, behind a base that ends with [/api]: the configured URL
    itself when it already ends so, the URL followed by [/api] otherwise.
    A path that does not begin with a slash and the same path behind one
    slash are formatted alike. *)
Theorem formatApiPath_prefix (path : string) :
  let base := if Api.endsWith Api.API_URL "/api"
              then Api.API_URL else Api.API_URL ++ "/api" in
  Api.formatApiPath path = base ++ Api.formattedPath path
  /\ Api.endsWith base "/api" = true
  /\ Js.startsWith (Api.formattedPath path) "/" = true
  /\ (Js.startsWith path "/" = false ->
      Api.formatApiPath ("/" ++ path) = Api.formatApiPath path).
Proof.
  cbv zeta. unfold Api.formatApiPath.
  destruct (Api.endsWith Api.API_URL "/api") eqn:E.
  - split; [reflexivity|]. split; [exact E|]. split.
    + unfold Api.formattedPath. destruct (Js.startsWith path "/") eqn:Hs; [exact Hs|reflexivity].
    + intros H. now rewrite formattedPath_slash.
  - split; [now rewrite string_app_assoc|]. split; [apply endsWith_app|]. split.
    + unfold Api.formattedPath. destruct (Js.startsWith path "/") eqn:Hs; [exact Hs|reflexivity].
    + intros H. now rewrite formattedPath_slash.
Qed.

Lemma endsWith_api_no_slash (u : string) :
  Api.endsWith u "/api" = true -> Js.endsWithSlash u = false.
Proof.
  intros H. apply endsWith_spec in H as [pre ->].
  induction pre as [|c pre IH]; [reflexivity|].
  simpl. destruct (pre ++ "/api") eqn:E; [|exact IH].
  destruct pre; discriminate.
Qed.

Lemma string_app_inv_head (u a b : string) : u ++ a = u ++ b -> a = b.
Proof. induction u; simpl; intros H; [exact H|]. injection H. auto. Qed.

Lemma slash_cleanEndpoint (p : string) :
  "/" ++ ApiClient.cleanEndpoint p = Api.formattedPath p.
Proof.
  unfold ApiClient.cleanEndpoint, Api.formattedPath.
  destruct p as [|c p]; [reflexivity|].
  destruct (Js.startsWith (String c p) "/") eqn:H; [|reflexivity].
  cbn [Js.startsWith] in H. rewrite Bool.andb_true_iff in H. destruct H as [H _].
  apply Ascii.eqb_eq in H. subst c. reflexivity.
Qed.

(** X16.  The two clients read the same [VITE_API_URL].  When it is set,
    does not end with a slash, and the path is not an absolute URL, the
    pipeline's [formatUrl] and [formatApiPath] build the same URL exactly
    when the configured URL ends with [/api]; when it does not,
    [formatApiPath] inserts [/api] and [formatUrl] does not. *)
Theorem formatters_agree (u path : string)
    (Hset : VITE_API_URL = Some u)
    (Hne : Js.nonEmpty u = true)
    (Hslash : Js.endsWithSlash u = false)
    (Hrel : Js.startsWith path "http" = false) :
  ApiClient.formatUrl path = u ++ Api.formattedPath path
  /\ (Api.endsWith u "/api" = true ->
      Api.formatApiPath path = ApiClient.formatUrl path)
  /\ (Api.endsWith u "/api" = false ->
      Api.formatApiPath path = u ++ "/api" ++ Api.formattedPath path
      /\ Api.formatApiPath path <> ApiClient.formatUrl path).
Proof.
  assert (ApiClient.API_URL = u) as E1 by (unfold ApiClient.API_URL; now rewrite Hset, Hne).
  assert (Api.API_URL = u) as E2 by (unfold Api.API_URL; now rewrite Hset, Hne).
  assert (ApiClient.formatUrl path = u ++ Api.formattedPath path) as F.
  { unfold ApiClient.formatUrl, ApiClient.baseUrl. rewrite Hrel, E1, Hslash.
    now rewrite <- slash_cleanEndpoint. }
  split; [exact F|]. unfold Api.formatApiPath. rewrite E2. split.
  - intros H. now rewrite H, F.
  - intros H. rewrite H. split; [reflexivity|].
    rewrite F. intros C. apply string_app_inv_head in C.
    apply (f_equal String.length) in C. rewrite string_app_length in C.
    simpl in C. lia.
Qed.

End ApiPathFacts.

(* ===================================================================== *)
(** ** The list of templates *)
(* ===================================================================== *)

Section TemplateFacts.

Import TemplateStore.

Lemma sameId_refl (a : option string) : sameId a a = true.
Proof. destruct a; simpl; [apply String.eqb_refl|reflexivity]. Qed.

Lemma sameId_eq (a b : option string) : sameId a b = true <-> a = b.
Proof.
  destruct a, b; simpl; try (split; [discriminate|congruence]).
  - rewrite String.eqb_eq. split; congruence.
  - split; reflexivity.
Qed.

Lemma filter_idem {A : Type} (f : A -> bool) (l : list A) :
  filter f (filter f l) = filter f l.
Proof.
  induction l as [|a l IH]; simpl; [reflexivity|].
  destruct (f a) eqn:E; simpl; [rewrite E|]; congruence.
Qed.

(** X18.  [deleteTemplate] removes the templates whose [_id] is the given
    one and no other: a template stored without [_id] is never removed.
    Deleting twice is deleting once, and the selected template is left as it
    was, also when it is the one deleted. *)
Theorem deleteTemplate_removes (templateId : string) (st : State) :
  (forall t, In t (templates (deleteTemplate templateId st)) <->
             In t (templates st) /\ template_id t <> Some templateId)
  /\ (forall t, In t (templates st) -> template_id t = None ->
                In t (templates (deleteTemplate templateId st)))
  /\ deleteTemplate templateId (deleteTemplate templateId st)
     = deleteTemplate templateId st
  /\ selectedTemplate (deleteTemplate templateId st) = selectedTemplate st.
Proof.
  assert (forall t, In t (templates (deleteTemplate templateId st)) <->
                    In t (templates st) /\ template_id t <> Some templateId) as H.
  { intros t. unfold deleteTemplate. cbn [templates].
    rewrite filter_In, Bool.negb_true_iff.
    split; intros [Hin Hid]; split; try assumption.
    - intros E. apply sameId_eq in E. congruence.
    - destruct (sameId (template_id t) (Some templateId)) eqn:E; [|reflexivity].
      apply sameId_eq in E. contradiction. }
  split; [exact H|]. split.
  - intros t Hin Hnone. apply H. split; [assumption|congruence].
  - split; [|reflexivity].
    unfold deleteTemplate. cbn [templates selectedTemplate].
    now rewrite filter_idem.
Qed.

(** X19.  [updateTemplate] keeps the number of templates; afterwards every
    template is the new one or an old one with another [_id]; updating
    twice is updating once; and updating a template that was deleted does
    not bring it back. *)
Theorem updateTemplate_replaces (template : EmailTemplate) (st : State) :
  length (templates (updateTemplate template st)) = length (templates st)
  /\ (forall t, In t (templates (updateTemplate template st)) ->
        t = template
        \/ (In t (templates st) /\ template_id t <> template_id template))
  /\ updateTemplate template (updateTemplate template st) = updateTemplate template st
  /\ (forall templateId, template_id template = Some templateId ->
        updateTemplate template (deleteTemplate templateId st)
        = deleteTemplate templateId st).
Proof.
  unfold updateTemplate, deleteTemplate. cbn [templates selectedTemplate].
  split; [apply length_map|]. split; [|split].
  - intros t Hin. apply in_map_iff in Hin as (t0 & E & Hin).
    destruct (sameId (template_id t0) (template_id template)) eqn:S; [now left|].
    right. subst t0. split; [assumption|].
    intros C. apply sameId_eq in C. congruence.
  - f_equal. rewrite map_map. apply map_ext. intros t.
    destruct (sameId (template_id t) (template_id template)) eqn:S.
    + now rewrite sameId_refl.
    + now rewrite S.
  - intros templateId Hid. f_equal. rewrite Hid.
    induction (templates st) as [|t l IH]; simpl; [reflexivity|].
    destruct (sameId (template_id t) (Some templateId)) eqn:S; simpl; [exact IH|].
    rewrite S. now rewrite IH.
Qed.

(** X20.  Adding a template whose [_id] is not yet stored and deleting that
    [_id] gives the list back. *)
Theorem addTemplate_deleteTemplate (template : EmailTemplate) (templateId : string)
    (st : State)
    (Hid : template_id template = Some templateId)
    (Hfresh : forall t, In t (templates st) -> template_id t <> Some templateId) :
  deleteTemplate templateId (addTemplate template st) = st.
Proof.
  destruct st as [ts sel]. unfold deleteTemplate, addTemplate.
  cbn [templates selectedTemplate] in *. f_equal.
  rewrite filter_app. simpl. rewrite Hid. simpl. rewrite String.eqb_refl. simpl.
  rewrite app_nil_r.
  induction ts as [|t l IH]; simpl; [reflexivity|].
  destruct (sameId (template_id t) (Some templateId)) eqn:S.
  - apply sameId_eq in S. exfalso. apply (Hfresh t); [now left|exact S].
  - simpl. rewrite IH; [reflexivity|]. intros t' Hin. apply Hfresh. now right.
Qed.

End TemplateFacts.

(* ===================================================================== *)
(** ** The list of applications *)
(* ===================================================================== *)

Section ApplicationFacts.

Import ApplicationStore.

Lemma find_app {A : Type} (f : A -> bool) (l1 l2 : list A) :
  find f (l1 ++ l2) = match find f l1 with Some a => Some a | None => find f l2 end.
Proof.
  induction l1 as [|a l IH]; simpl; [reflexivity|].
  destruct (f a); [reflexivity|exact IH].
Qed.

(** X21.  After [addApplication], [getApplication] finds what it found
    before; the application just added is found under its new id only when
    no stored application already has that id. *)
Theorem getApplication_addApplication (newId appId : string)
    (application : NewApplication) (applications : list Application) :
  getApplication appId (addApplication newId application applications)
  = match getApplication appId applications with
    | Some old => Some old
    | None =>
        if String.eqb newId appId then Some (created newId application) else None
    end
  /\ length (addApplication newId application applications)
     = S (length applications).
Proof.
  unfold getApplication, addApplication. split.
  - rewrite find_app. destruct (find _ applications); [reflexivity|].
    cbn. destruct (String.eqb newId appId); reflexivity.
  - rewrite length_app. simpl. lia.
Qed.

(** X22.  After [removeApplication], no application is found under the
    removed id, every other id finds what it found before, and removing an
    id that was just added on top of a list without it gives the list
    back. *)
Theorem removeApplication_getApplication (appId : string)
    (applications : list Application) :
  getApplication appId (removeApplication appId applications) = None
  /\ (forall other, other <> appId ->
        getApplication other (removeApplication appId applications)
        = getApplication other applications)
  /\ (forall application,
        getApplication appId applications = None ->
        removeApplication appId (addApplication appId application applications)
        = applications).
Proof.
  unfold getApplication, removeApplication, addApplication. split; [|split].
  - induction applications as [|a l IH]; simpl; [reflexivity|].
    destruct (String.eqb (id a) appId) eqn:E; simpl; [exact IH|].
    now rewrite E.
  - intros other Hne.
    induction applications as [|a l IH]; simpl; [reflexivity|].
    destruct (String.eqb (id a) appId) eqn:E; simpl.
    + apply String.eqb_eq in E.
      destruct (String.eqb (id a) other) eqn:E'; [|exact IH].
      apply String.eqb_eq in E'. congruence.
    + destruct (String.eqb (id a) other); [reflexivity|exact IH].
  - intros application Hnone. rewrite filter_app. simpl.
    rewrite String.eqb_refl. simpl. rewrite app_nil_r.
    induction applications as [|a l IH]; simpl in *; [reflexivity|].
    destruct (String.eqb (id a) appId) eqn:E; [discriminate|].
    simpl. now rewrite IH.
Qed.

(** X23.  [incrementFollowUpCount] keeps the applications and their ids in
    place; the application found under the given id afterwards is the one
    found before with [lastFollowUp] set and its count raised by one as a JS
    number is: exactly for a count from -2^53 up to, and not including,
    2^53, while at 2^53 the count stays what it was; every other id finds
    what it found before; and drafts stay drafts. *)
Theorem incrementFollowUpCount_getApplication (now appId : string)
    (applications : list Application) :
  map id (incrementFollowUpCount now appId applications) = map id applications
  /\ getApplication appId (incrementFollowUpCount now appId applications)
     = option_map (followedUp now) (getApplication appId applications)
  /\ (forall app, - 2 ^ 53 <= followUpCount app < 2 ^ 53 ->
        followUpCount (followedUp now app) = followUpCount app + 1)
  /\ (forall app, followUpCount app = 2 ^ 53 ->
        followUpCount (followedUp now app) = 2 ^ 53)
  /\ (forall other, other <> appId ->
        getApplication other (incrementFollowUpCount now appId applications)
        = getApplication other applications)
  /\ map status (incrementFollowUpCount now appId applications)
     = map status applications.
Proof.
  unfold incrementFollowUpCount, getApplication.
  split; [|split; [|split; [|split; [|split]]]].
  - rewrite map_map. apply map_ext. intros a.
    destruct (String.eqb (id a) appId); reflexivity.
  - induction applications as [|a l IH]; simpl; [reflexivity|].
    destruct (String.eqb (id a) appId) eqn:E; simpl; [|rewrite E; exact IH].
    cbn. now rewrite E.
  - intros app [Hlo Hhi]. cbn [followedUp followUpCount]. unfold plusOne.
    apply Z.leb_le in Hlo. apply Z.ltb_lt in Hhi. now rewrite Hlo, Hhi.
  - intros app E. cbn [followedUp followUpCount]. rewrite E. reflexivity.
  - intros other Hne.
    induction applications as [|a l IH]; simpl; [reflexivity|].
    destruct (String.eqb (id a) appId) eqn:E; simpl.
    + apply String.eqb_eq in E.
      destruct (String.eqb (id a) other) eqn:E'; [|exact IH].
      apply String.eqb_eq in E'. congruence.
    + destruct (String.eqb (id a) other); [reflexivity|exact IH].
  - rewrite map_map. apply map_ext. intros a.
    destruct (String.eqb (id a) appId); reflexivity.
Qed.

End ApplicationFacts.

(* ===================================================================== *)
(** ** More of the pipeline *)
(* ===================================================================== *)

#[export] Hint Unfold
  ApiMethods.get ApiMethods.put ApiMethods.patch ApiMethods.delete
  AuthActions.authenticate AuthActions.login AuthActions.register
  AuthActions.clearError : prog.

Ltac returns_step leaf :=
  first
    [ apply Rt_Ret; leaf
    | apply Rt_Throw
    | apply Rt_GetAuth; intro
    | apply Rt_SetAuth
    | apply Rt_GetThis; intro
    | apply Rt_SetThis
    | apply Rt_Fetch; intro
    | apply Rt_ReadBody; intro
    | apply Rt_NewPromise; intro
    | apply Rt_Resolve
    | apply Rt_Await; intro
    | apply Rt_CallLogout
    | apply Rt_Deliver
    | split_match
    | progress autounfold with prog ].

Section MorePipeline.

Context {rt : Runtime}.

Ltac next_turn := rewrite exec_cons; unfold step at 1, turn, run; cbn -[exec].

(* --------------------------------------------------------------------- *)
(** *** The shape of a result *)
(* --------------------------------------------------------------------- *)

Lemma orElse_truthy (a : option JsonValue) (b : JsonValue) :
  Json.truthy b = true -> Json.truthy (Json.orElse a b) = true.
Proof.
  intros H. unfold Json.orElse. destruct a as [v|]; [|exact H].
  destruct (Json.truthy v) eqn:E; assumption.
Qed.

Lemma errorMessage_truthy (d : JsonValue) (r : Response) :
  Json.truthy (ApiClient.errorMessage d r) = true.
Proof.
  unfold ApiClient.errorMessage. do 2 apply orElse_truthy.
  destruct (Js.nonEmpty (resp_statusText r)) eqn:E; [exact E|reflexivity].
Qed.

Lemma truthy_not_null (v : JsonValue) : Json.truthy v = true -> v <> JNull.
Proof. intros H E. subst v. discriminate. Qed.

Lemma wellShaped_finish (response : Response) (d e : JsonValue) :
  e = JNull \/ (e = JStr "Invalid JSON response" /\ d = JNull) ->
  wellShaped {| data := d;
                error := if negb (resp_ok response)
                         then ApiClient.errorMessage d response else e;
                status := resp_status response |}.
Proof.
  intros He. unfold wellShaped, resp_ok. cbn [data error status].
  destruct ((200 <=? resp_status response) && (resp_status response <=? 299));
    cbn [negb]; split; intros H; try discriminate.
  - exact He.
  - split; [apply truthy_not_null|left]; apply errorMessage_truthy.
Qed.

Lemma wellShaped_fixed (m : string) (code : Z) :
  (200 <=? code) && (code <=? 299) = false ->
  Js.nonEmpty m = true \/ code = 0 ->
  wellShaped {| data := JNull; error := JStr m; status := code |}.
Proof.
  intros Hc Hm. unfold wellShaped. cbn [data error status]. rewrite Hc.
  split; intros H; [|discriminate].
  split; [discriminate|]. destruct Hm as [Hm| ->]; [now left|now right].
Qed.

(** X13.  Whatever [request] returns: a status outside 200-299 comes with
    an [error] that is not [null], and that is truthy unless the result is
    the one of a network failure (status 0, [data] [null]); a status inside
    200-299 comes with [error] [null], or with ["Invalid JSON response"]
    and [data] [null]. *)
Theorem request_result_shape (endpoint : string) (options : RequestOptions) :
  Returns
    (fun r =>
       ((200 <=? status r) && (status r <=? 299) = false ->
        error r <> JNull
        /\ (Json.truthy (error r) = true \/ (status r = 0 /\ data r = JNull)))
       /\ ((200 <=? status r) && (status r <=? 299) = true ->
           error r = JNull
           \/ (error r = JStr "Invalid JSON response" /\ data r = JNull)))
    (ApiClient.request endpoint options).
Proof.
  change (Returns wellShaped (ApiClient.request endpoint options)).
  repeat (returns_step
            ltac:(first [ apply wellShaped_finish; auto
                        | apply wellShaped_fixed; [reflexivity|auto]
                        | unfold ApiClient.networkFailure;
                          apply wellShaped_fixed; [reflexivity|auto] ]);
          cbn).
Qed.

(* --------------------------------------------------------------------- *)
(** *** The first turn of a call *)
(* --------------------------------------------------------------------- *)

(** The [fetch] that a call issues in its first turn, on a page whose store
    holds the access token [a]. *)
Lemma request_first_turn (caller : nat) (endpoint : string) (options : RequestOptions)
    (s : Sys) (a : string) :
  ApiClient.accessToken_of (store s) = Some a ->
  network (run (callRequest caller endpoint options) s)
  = (network s ++
     [{| call_io := next_io s;
         call_url := ApiClient.formatUrl endpoint;
         call_init :=
           {| init_method := ApiClient.or_default (opt_method options) GET;
              init_headers :=
                if ApiClient.or_default (opt_requiresAuth options) true
                then obj_set "Authorization" ("Bearer " ++ a)%string
                       (spread ApiClient.jsonHeaders
                          (ApiClient.or_default (opt_headers options) []))
                else spread ApiClient.jsonHeaders
                       (ApiClient.or_default (opt_headers options) []);
              init_body := ApiClient.bodyOf (opt_body options) |} |}])%list.
Proof.
  intros Ha. unfold run, callRequest, ApiClient.request.
  destruct (ApiClient.or_default (opt_requiresAuth options) true); cbn.
  - rewrite Ha. reflexivity.
  - reflexivity.
Qed.

(** X14.  A body is sent only when it is truthy.  [post], [put] and
    [patch] issue one [fetch] with their method and with
    [JSON.stringify(body)] as its body when [body] is truthy; for a falsy
    [body] ([0], the empty string, [false], [null]) the request goes out
    without a body.  [get] and [delete] send the body of their options, if
    it is truthy.  The method that the options may carry is never used. *)
Theorem body_sent_when_truthy (caller : nat) (endpoint : string) (body : JsonValue)
    (options : RequestOptions) (s : Sys) (a : string)
    (Ha : ApiClient.accessToken_of (store s) = Some a) :
  let sent (p : Prog ApiResponse) :=
    map (fun c => (init_method (call_init c), init_body (call_init c)))
        (skipn (length (network s))
           (network (run (r <- p ;; deliver (GotResponse caller r)) s))) in
  let payload := if Json.truthy body then Some (JSON_stringify body) else None in
  sent (ApiClient.post endpoint body options) = [(POST, payload)]
  /\ sent (ApiMethods.put endpoint body options) = [(PUT, payload)]
  /\ sent (ApiMethods.patch endpoint body options) = [(PATCH, payload)]
  /\ sent (ApiMethods.get endpoint options)
     = [(GET, ApiClient.bodyOf (opt_body options))]
  /\ sent (ApiMethods.delete endpoint options)
     = [(DELETE, ApiClient.bodyOf (opt_body options))].
Proof.
  cbv zeta.
  assert (forall o : RequestOptions,
            map (fun c => (init_method (call_init c), init_body (call_init c)))
              (skipn (length (network s))
                 (network (run (callRequest caller endpoint o) s)))
            = [(ApiClient.or_default (opt_method o) GET, ApiClient.bodyOf (opt_body o))])
    as H.
  { intros o. rewrite (request_first_turn caller endpoint o s Ha).
    rewrite skipn_app, skipn_all, Nat.sub_diag. reflexivity. }
  repeat split.
  - apply (H (ApiMethods.withMethodAndBody POST body options)).
  - apply (H (ApiMethods.withMethodAndBody PUT body options)).
  - apply (H (ApiMethods.withMethodAndBody PATCH body options)).
  - apply (H (ApiMethods.withMethod GET options)).
  - apply (H (ApiMethods.withMethod DELETE options)).
Qed.

(* --------------------------------------------------------------------- *)
(** *** Joining a refresh *)
(* --------------------------------------------------------------------- *)

(** X9.  [refreshToken()] called while a refresh is in flight starts
    nothing: no [fetch] is issued, no promise is created, the store and the
    client's fields are left alone; the caller waits on the promise of the
    refresh in flight and gets the value that promise settles with. *)
Theorem refreshToken_joins (caller : nat) (s : Sys) (p : PromiseId)
    (Hbusy : isRefreshing (this s) = true)
    (Hp : refreshPromise (this s) = Some p) :
  exists k,
    run (callRefreshToken caller) s = suspend (WaitPromise p k) s
    /\ (forall v s2, run (k v) s2 = add_delivered (GotBoolean caller v) s2).
Proof.
  unfold run, callRefreshToken, ApiClient.refreshToken. cbn.
  rewrite Hbusy. cbn. rewrite Hp. cbn.
  eexists. split; [reflexivity|]. intros v s2. reflexivity.
Qed.

(* --------------------------------------------------------------------- *)
(** *** Login and registration never reject *)
(* --------------------------------------------------------------------- *)

Lemma authenticate_no_throw (endpoint : string) (body : JsonValue) :
  NoThrow (AuthActions.authenticate endpoint body).
Proof. nothrow. Qed.

(** X6.  [login] and [register] never reject: on no path do they end in
    an exception, and on a page where they are called, requests are made
    and the network answers in any order, no rejection is left unhandled. *)
Theorem login_never_rejects (name email password : string) (st : AuthState)
    (evs : list Event) (Hevs : Forall calmEvent evs) :
  NoThrow (AuthActions.login email password)
  /\ NoThrow (AuthActions.register name email password)
  /\ unhandled
       (exec (page st)
          (Start (AuthActions.login email password)
           :: Start (AuthActions.register name email password) :: evs)) = [].
Proof.
  split; [apply authenticate_no_throw|]. split; [apply authenticate_no_throw|].
  apply exec_calm.
  - constructor; [apply authenticate_no_throw|].
    constructor; [apply authenticate_no_throw|exact Hevs].
  - split; [reflexivity|constructor].
Qed.

End MorePipeline.
(* ===================================================================== *)
(** ** Signing in *)
(* ===================================================================== *)

Section SigningIn.

Context {rt : Runtime}.

Ltac next_turn := rewrite exec_cons; unfold step at 1, turn, run; cbn -[exec].

Lemma login_success_sys (endpoint : string) (body : JsonValue) (st : AuthState)
    (r : Response) (t : string) (d : JsonValue) (tk : AuthTokens) (u : User) :
  Json.truthy body = true ->
  resp_ok r = true ->
  resp_body r = Some t ->
  Js.nonEmpty t = true ->
  ApiClient.isJsonResponse (resp_contentType r) (Some t) = true ->
  JSON_parse t = Some d ->
  AuthActions.tokensIn d = Some tk ->
  Js.nonEmpty (accessToken tk) = true ->
  AuthActions.userIn d = Some u ->
  exec (page st)
    [Start (AuthActions.authenticate endpoint body); FetchSettles 0 (inl r); BodyRead 1]
  = {| store := {| user := Some u; tokens := Some tk; isAuthenticated := true;
                   isLoading := false; auth_error := None |};
       this := {| isRefreshing := false; refreshPromise := None |};
       promises := []; tasks := []; next_io := 2%nat;
       network := [{| call_io := 0%nat;
                      call_url := ApiClient.formatUrl endpoint;
                      call_init := {| init_method := POST;
                                      init_headers := ApiClient.jsonHeaders;
                                      init_body := Some (JSON_stringify body) |} |}];
       delivered := []; unhandled := [] |}.
Proof.
  intros Hb Hok Hbody Ht Hjson Hparse Htk Hacc Hu.
  unfold page, AuthActions.authenticate, ApiClient.post, ApiClient.request.
  next_turn. rewrite Hb. cbn -[exec].
  next_turn. next_turn. rewrite Hbody. cbn -[exec].
  rewrite Bool.andb_false_r. cbn -[exec].
  unfold ApiClient.parseResponse, ApiClient.truthyText, ApiClient.parse.
  rewrite Hjson. cbn -[exec].
  unfold Js.orNull. rewrite Ht. cbn -[exec]. rewrite Hparse. cbn -[exec].
  rewrite Hok. cbn -[exec]. rewrite Htk. cbn -[exec]. rewrite Hacc. cbn -[exec].
  rewrite Hu. cbn. reflexivity.
Qed.


Lemma exec_snoc (s : Sys) (evs : list Event) (ev : Event) :
  exec s (evs ++ [ev]) = step (exec s evs) ev.
Proof. unfold exec. rewrite fold_left_app. reflexivity. Qed.


(** X2.  The token that [login] stores is the one the next request
    carries: after a successful login, a call that requires authentication
    is sent at once, with [Authorization: Bearer <accessToken>] of the pair
    just stored, and no refresh is needed. *)
Theorem login_then_request_carries_token (caller : nat) (endpoint : string)
    (options : RequestOptions) (email password : string) (st : AuthState)
    (r : Response) (t : string) (d : JsonValue) (tk : AuthTokens) (u : User)
    (Hok : resp_ok r = true)
    (Hbody : resp_body r = Some t)
    (Ht : Js.nonEmpty t = true)
    (Hjson : ApiClient.isJsonResponse (resp_contentType r) (Some t) = true)
    (Hparse : JSON_parse t = Some d)
    (Htk : AuthActions.tokensIn d = Some tk)
    (Hacc : Js.nonEmpty (accessToken tk) = true)
    (Hu : AuthActions.userIn d = Some u)
    (Hauth : ApiClient.or_default (opt_requiresAuth options) true = true) :
  let s :=
    exec (page st)
      ([Start (AuthActions.login email password); FetchSettles 0 (inl r); BodyRead 1]
       ++ [Start (callRequest caller endpoint options)]) in
  map (fun c => (call_url c, init_headers (call_init c))) (skipn 1 (network s))
  = [(ApiClient.formatUrl endpoint,
      obj_set "Authorization" ("Bearer " ++ accessToken tk)%string
        (spread ApiClient.jsonHeaders (ApiClient.or_default (opt_headers options) [])))]
  /\ delivered s = [].
Proof.
  cbv zeta. rewrite exec_snoc. unfold AuthActions.login.
  rewrite (@login_success_sys "users/login"
             (JObj [("email", JStr email); ("password", JStr password)])
             st r t d tk u eq_refl Hok Hbody Ht Hjson Hparse Htk Hacc Hu).
  unfold step, turn, run, callRequest, ApiClient.request.
  rewrite Hauth. cbn. unfold Js.orNull. rewrite Hacc. cbn. split; reflexivity.
Qed.




(** X4.  A login whose [fetch] is rejected.  The session is kept,
    [isLoading] is false again, and [error] is the message of the thrown
    [Error], ["Network error"] for a thrown value that is not an [Error];
    an [Error] with an empty message is reported as
    ["No authentication token received"]. *)
Theorem login_fetch_rejected (email password : string) (st : AuthState) (e : Thrown) :
  store (exec (page st)
           [Start (AuthActions.login email password); FetchSettles 0 (inr e)])
  = {| user := user st; tokens := tokens st; isAuthenticated := isAuthenticated st;
       isLoading := false;
       auth_error :=
         Some match e with
              | ErrorObject m =>
                  if Js.nonEmpty m then m else "No authentication token received"
              | NotAnError => "Network error"
              end |}.
Proof.
  unfold page, AuthActions.login, AuthActions.authenticate, ApiClient.post,
    ApiClient.request.
  next_turn. next_turn.
  destruct e as [m|]; [destruct m|]; reflexivity.
Qed.

Lemma turn_run (p : Prog unit) (s s' : Sys) :
  s' = run p s -> turn p s = drain (S (length (tasks s'))) s'.
Proof. intros ->. reflexivity. Qed.

(** A turn evaluated in two stages: first the task, as an equation on the
    state it leaves, then the microtasks. *)
Ltac begin_turn E :=
  rewrite exec_cons; unfold step at 1; cbn -[exec turn];
  match goal with
  | |- context [turn ?p ?s] =>
      let s1 := fresh "s1" in
      remember (run p s) as s1 eqn:E;
      rewrite (@turn_run p s s1 E); unfold run in E
  end.

Ltac settle_login E :=
  repeat first
    [ rewrite errorMessage_truthy in E
    | match goal with H : resp_body _ = _ |- _ => rewrite H in E end
    | progress cbn -[ApiClient.errorMessage ApiClient.isJsonResponse
                     AuthActions.tokensIn AuthActions.userIn Js.nonEmpty
                     JsConvert.toString] in E
    | match type of E with
      | context [ApiClient.isJsonResponse ?a ?b] =>
          destruct (ApiClient.isJsonResponse a b) eqn:?
      | context [JSON_parse ?a] => destruct (JSON_parse a) eqn:?
      | context [resp_ok ?a] => destruct (resp_ok a) eqn:?
      | context [AuthActions.tokensIn ?a] => destruct (AuthActions.tokensIn a) eqn:?
      | context [AuthActions.userIn ?a] => destruct (AuthActions.userIn a) eqn:?
      | context [Js.nonEmpty ?a] => destruct (Js.nonEmpty a) eqn:?
      end ].

Ltac login_turn :=
  let E := fresh "E" in
  begin_turn E; settle_login E; subst; cbn -[exec].

Ltac all_or_nothing :=
  split; [reflexivity|];
  first [ left; split; [reflexivity|]; split; [reflexivity|];
          do 2 eexists; repeat split; eassumption
        | right; repeat split; eexists; reflexivity ].

(** X5.  [login] signs in completely or not at all.  Whatever the network
    does with the call (an answer of any status, a body that cannot be read
    or is not JSON, a rejected [fetch]), where a body that parses has
    [tokens] and [user] of the declared types, once the call is over
    [isLoading] is false and the store is in one of two states: signed in,
    with a user, a pair whose access token is not empty, [isAuthenticated]
    true and no error; or with the user, the tokens and [isAuthenticated] it
    had before the call, and an error message. *)
Theorem login_all_or_nothing (email password : string) (st : AuthState)
    (outcome : Response + Thrown)
    (Htyped : forall r t d,
        outcome = inl r -> resp_body r = Some t -> JSON_parse t = Some d ->
        Typed.tokenFields d = true /\ Typed.userFields d = true) :
  let st' :=
    store (exec (page st)
             [Start (AuthActions.login email password);
              FetchSettles 0 outcome; BodyRead 1; BodyRead 2]) in
  isLoading st' = false
  /\ ((isAuthenticated st' = true /\ auth_error st' = None
       /\ exists u tk, user st' = Some u /\ tokens st' = Some tk
                       /\ Js.nonEmpty (accessToken tk) = true)
      \/ (user st' = user st /\ tokens st' = tokens st
          /\ isAuthenticated st' = isAuthenticated st
          /\ exists m, auth_error st' = Some m)).
Proof.
  clear Htyped. cbv zeta.
  unfold page, AuthActions.login, AuthActions.authenticate, ApiClient.post,
    ApiClient.request, ApiClient.parseResponse, ApiClient.truthyText, ApiClient.parse,
    Js.orNull.
  next_turn. destruct outcome as [r|e].
  - next_turn. rewrite Bool.andb_false_r.
    destruct (resp_body r) as [t|] eqn:Hbody;
      login_turn; try login_turn; rewrite ?exec_cons, exec_nil; cbn; all_or_nothing.
  - next_turn. destruct e as [m|]; [destruct m|]; cbn; all_or_nothing.
Qed.


End SigningIn.
(* ===================================================================== *)
(** ** Refreshing and signing out *)
(* ===================================================================== *)

Section Refreshing.

Context {rt : Runtime}.

Ltac next_turn := rewrite exec_cons; unfold step at 1, turn, run; cbn -[exec].

(** X7.  A refresh that succeeds.  [refreshToken()] on an idle client
    whose store holds a refresh token posts that token, without an
    [Authorization] header, to [users/refresh-token]; when the answer is 2xx
    and its body parses to a value whose [tokens] are of the declared type
    (absent, [null], or an object with string fields), [data.tokens]
    replaces the tokens of the store (also when the body carries none), the
    user, [isAuthenticated], [isLoading] and [error] are kept, the result is
    [true], and the client is idle again. *)
Theorem refresh_stores_tokens (caller : nat) (st : AuthState) (r0 : string)
    (r : Response) (tb : string) (dj : JsonValue) (newTokens : option AuthTokens)
    (Hrt : ApiClient.refreshToken_of st = Some r0)
    (Hok : resp_ok r = true)
    (Hrb : resp_body r = Some tb)
    (Hparse : JSON_parse tb = Some dj)
    (Htyped : Typed.tokenFields dj = true)
    (Htokens : ApiClient.tokensOf dj = Ret newTokens) :
  let s := exec (page st)
             [Start (callRefreshToken caller); FetchSettles 0 (inl r); BodyRead 1] in
  store s = {| user := user st; tokens := newTokens;
               isAuthenticated := isAuthenticated st;
               isLoading := isLoading st; auth_error := auth_error st |}
  /\ this s = {| isRefreshing := false; refreshPromise := None |}
  /\ delivered s = [GotBoolean caller true]
  /\ map (fun c => (call_url c, call_init c)) (network s)
     = [(ApiClient.formatUrl "users/refresh-token",
         {| init_method := POST;
            init_headers := [("Content-Type", "application/json")];
            init_body := Some (JSON_stringify (JObj [("refreshToken", JStr r0)])) |})]
  /\ tasks s = [].
Proof.
  clear Htyped. cbv zeta.
  unfold page, callRefreshToken, ApiClient.refreshToken, ApiClient.refreshExecutor.
  next_turn. rewrite Hrt. cbn -[exec].
  next_turn. rewrite Hok. cbn -[exec].
  next_turn. rewrite Hrb. cbn -[exec]. rewrite Hparse. cbn -[exec].
  rewrite Htokens. cbn. repeat split.
Qed.


(** X8.  A refresh that fails otherwise than by a refusal.  When the
    [fetch] of [users/refresh-token] is rejected, when the body of a 2xx
    answer cannot be read or is not JSON, and when it is the JSON [null],
    the result is [false], the client is idle again, and [logout()] has been
    started: its [users/logout] call is on the network and, as it is not
    awaited, the session is still in the store. *)
Theorem refresh_failure_modes (caller : nat) (st : AuthState) (a r0 : string)
    (Hacc : ApiClient.accessToken_of st = Some a)
    (Hrt : ApiClient.refreshToken_of st = Some r0) :
  let failed (s : Sys) :=
    delivered s = [GotBoolean caller false]
    /\ this s = {| isRefreshing := false; refreshPromise := None |}
    /\ promises s = [Some false]
    /\ map call_url (skipn 1 (network s)) = [ApiClient.formatUrl "users/logout"]
    /\ store s = st in
  (forall e : Thrown,
     failed (exec (page st) [Start (callRefreshToken caller); FetchSettles 0 (inr e)]))
  /\ (forall r : Response,
        resp_ok r = true ->
        resp_body r = None
        \/ (exists tb, resp_body r = Some tb
                       /\ (JSON_parse tb = None \/ JSON_parse tb = Some JNull)) ->
        failed (exec (page st)
                  [Start (callRefreshToken caller); FetchSettles 0 (inl r); BodyRead 1])).
Proof.
  cbv zeta. split.
  - intros e.
    unfold page, callRefreshToken, ApiClient.refreshToken, ApiClient.refreshExecutor.
    next_turn. rewrite Hrt. cbn -[exec].
    next_turn. unfold startLogout, AuthStore.logout, ApiClient.post, ApiClient.request.
    cbn. rewrite Hacc. cbn. rewrite Hacc. cbn. repeat split.
  - intros r Hok Hbody.
    unfold page, callRefreshToken, ApiClient.refreshToken, ApiClient.refreshExecutor.
    next_turn. rewrite Hrt. cbn -[exec].
    next_turn. rewrite Hok. cbn -[exec].
    next_turn.
    unfold startLogout, AuthStore.logout, ApiClient.post, ApiClient.request.
    destruct Hbody as [Hb|[tb [Hb [Hp|Hp]]]]; rewrite Hb; cbn; try rewrite Hp; cbn;
      rewrite Hacc; cbn; rewrite Hacc; cbn; repeat split.
Qed.

(** The calls on the network once a 401 has been answered by a refresh. *)
Lemma retry_network (caller : nat) (endpoint : string) (options : RequestOptions)
    (st : AuthState) (a r0 : string) (first refreshed : Response)
    (tb : string) (dj : JsonValue) (tk : AuthTokens) (a' : string) :
  ApiClient.or_default (opt_requiresAuth options) true = true ->
  ApiClient.or_default (opt_skipRefreshToken options) false = false ->
  ApiClient.accessToken_of st = Some a ->
  ApiClient.refreshToken_of st = Some r0 ->
  resp_status first = 401 ->
  resp_ok refreshed = true ->
  resp_body refreshed = Some tb ->
  JSON_parse tb = Some dj ->
  ApiClient.tokensOf dj = Ret (Some tk) ->
  Js.orNull (accessToken tk) = Some a' ->
  map (fun c => init_headers (call_init c))
    (network (exec (page st)
                [Start (callRequest caller endpoint options);
                 FetchSettles 0 (inl first); BodyRead 1;
                 FetchSettles 2 (inl refreshed); BodyRead 3]))
  = [obj_set "Authorization" ("Bearer " ++ a)%string
       (spread ApiClient.jsonHeaders (ApiClient.or_default (opt_headers options) []));
     ApiClient.jsonHeaders;
     spread [("Content-Type", "application/json");
             ("Authorization", ("Bearer " ++ a')%string)]
       (ApiClient.or_default (opt_headers options) [])].
Proof.
  intros Hauth Hskip Htok Hrt H401 Hok Hrb Hparse Htokens Hnew.
  unfold page, callRequest, ApiClient.request.
  rewrite Hauth, Hskip.
  next_turn. rewrite Htok. cbn -[exec].
  next_turn. rewrite H401. cbn -[exec].
  next_turn.
  destruct (resp_body first) as [t1|] eqn:Hb1; cbn -[exec];
    unfold ApiClient.refreshExecutor; cbn -[exec]; rewrite Hrt; cbn -[exec];
    (next_turn; rewrite Hok; cbn -[exec]);
    (next_turn; rewrite Hrb; cbn -[exec]; rewrite Hparse; cbn -[exec];
     rewrite Htokens; cbn -[exec]; rewrite Hnew; cbn); reflexivity.
Qed.

Lemma obj_get_obj_set_same (k v : string) (obj : Headers) :
  obj_get k (obj_set k v obj) = Some v.
Proof.
  induction obj as [|[k' v'] rest IH]; cbn [obj_set obj_get].
  - rewrite String.eqb_refl. reflexivity.
  - destruct (String.eqb k k') eqn:E; cbn [obj_get]; rewrite ?String.eqb_refl, ?E; auto.
Qed.

Lemma obj_get_obj_set_other (k k' v : string) (obj : Headers) :
  String.eqb k k' = false -> obj_get k (obj_set k' v obj) = obj_get k obj.
Proof.
  intros Hk. induction obj as [|[k2 v2] rest IH]; cbn [obj_set obj_get].
  - rewrite Hk. reflexivity.
  - destruct (String.eqb k' k2) eqn:E; cbn [obj_get].
    + apply String.eqb_eq in E. subst k2. rewrite Hk. reflexivity.
    + rewrite IH. reflexivity.
Qed.

Lemma obj_get_spread (k : string) (extra base : Headers) :
  obj_get k (spread base extra)
  = match lastBinding k extra with
    | Some w => Some w
    | None => obj_get k base
    end.
Proof.
  unfold spread. revert base.
  induction extra as [|[k' v'] rest IH]; intros base; cbn [fold_left lastBinding fst snd].
  - reflexivity.
  - rewrite IH. destruct (lastBinding k rest) as [w|]; [reflexivity|].
    destruct (String.eqb k k') eqn:E.
    + apply String.eqb_eq in E. subst k'. apply obj_get_obj_set_same.
    + apply obj_get_obj_set_other. exact E.
Qed.

(** X11.  Who sets [Authorization].  On the first attempt the token of the
    store is written over the headers of the caller, so an [Authorization]
    header that the caller passes is replaced.  On the retry after a refresh
    the headers of the caller are written over the new token, so there the
    caller's [Authorization] is what is sent, and the refreshed token only
    when the caller passed none.  [Content-Type] is the caller's on both. *)
Theorem authorization_header_precedence (caller : nat) (endpoint : string)
    (options : RequestOptions) (st : AuthState) (a r0 : string)
    (first refreshed : Response) (tb : string) (dj : JsonValue) (tk : AuthTokens)
    (a' : string)
    (Hauth : ApiClient.or_default (opt_requiresAuth options) true = true)
    (Hskip : ApiClient.or_default (opt_skipRefreshToken options) false = false)
    (Htok : ApiClient.accessToken_of st = Some a)
    (Hrt : ApiClient.refreshToken_of st = Some r0)
    (H401 : resp_status first = 401)
    (Hok : resp_ok refreshed = true)
    (Hrb : resp_body refreshed = Some tb)
    (Hparse : JSON_parse tb = Some dj)
    (Htokens : ApiClient.tokensOf dj = Ret (Some tk))
    (Hnew : Js.orNull (accessToken tk) = Some a') :
  let sent :=
    map (fun c => init_headers (call_init c))
      (network (exec (page st)
                  [Start (callRequest caller endpoint options);
                   FetchSettles 0 (inl first); BodyRead 1;
                   FetchSettles 2 (inl refreshed); BodyRead 3])) in
  let own := ApiClient.or_default (opt_headers options) [] in
  map (obj_get "Authorization") sent
  = [Some ("Bearer " ++ a)%string;
     None;
     Some (ApiClient.or_default (lastBinding "Authorization" own)
             ("Bearer " ++ a')%string)]
  /\ map (obj_get "Content-Type") sent
     = [Some (ApiClient.or_default (lastBinding "Content-Type" own) "application/json");
        Some "application/json";
        Some (ApiClient.or_default (lastBinding "Content-Type" own) "application/json")].
Proof.
  cbv zeta.
  rewrite (@retry_network caller endpoint options st a r0 first refreshed tb dj tk a'
             Hauth Hskip Htok Hrt H401 Hok Hrb Hparse Htokens Hnew).
  cbn [map]. rewrite obj_get_obj_set_same.
  rewrite (@obj_get_obj_set_other "Content-Type" "Authorization" _ _ eq_refl).
  rewrite !obj_get_spread.
  destruct (lastBinding "Authorization" (ApiClient.or_default (opt_headers options) []));
    destruct (lastBinding "Content-Type" (ApiClient.or_default (opt_headers options) []));
    split; reflexivity.
Qed.

(** X12.  Signing out.  Without an access token in the store [logout]
    sends nothing and clears the session at once.  With one it posts [{}] to
    [users/logout] with the token, and the session stays in the store until
    that call is over; it is cleared then, whether the [fetch] was rejected
    or answered, with any status but 401 and any content.  [isLoading] and
    [error] are left as they are, and no rejection escapes. *)
Theorem logout_clears_session (st : AuthState) :
  let cleared :=
    {| user := None; tokens := None; isAuthenticated := false;
       isLoading := isLoading st; auth_error := auth_error st |} in
  (ApiClient.accessToken_of st = None ->
   let s := exec (page st) [Start AuthStore.logout] in
   store s = cleared /\ network s = [] /\ tasks s = [])
  /\ (forall a, ApiClient.accessToken_of st = Some a ->
        (let s := exec (page st) [Start AuthStore.logout] in
         store s = st
         /\ map (fun c => (call_url c, call_init c)) (network s)
            = [(ApiClient.formatUrl "users/logout",
                {| init_method := POST;
                   init_headers := [("Content-Type", "application/json");
                                    ("Authorization", ("Bearer " ++ a)%string)];
                   init_body := Some (JSON_stringify (JObj [])) |})])
        /\ (forall e,
              let s := exec (page st) [Start AuthStore.logout; FetchSettles 0 (inr e)] in
              store s = cleared /\ tasks s = [] /\ unhandled s = [])
        /\ (forall r,
              resp_status r <> 401 ->
              let s := exec (page st)
                         [Start AuthStore.logout; FetchSettles 0 (inl r);
                          BodyRead 1; BodyRead 2] in
              store s = cleared /\ tasks s = [] /\ unhandled s = []
              /\ length (network s) = 1%nat)).
Proof.
  cbv zeta. split.
  - intros Hnone. unfold page, AuthStore.logout.
    next_turn. rewrite Hnone. cbn. repeat split.
  - intros a Ha. split; [|split].
    + unfold page, AuthStore.logout, ApiClient.post, ApiClient.request.
      next_turn. rewrite Ha. cbn. rewrite Ha. cbn. split; reflexivity.
    + intros e. unfold page, AuthStore.logout, ApiClient.post, ApiClient.request.
      next_turn. rewrite Ha. cbn -[exec]. rewrite Ha. cbn -[exec].
      next_turn. repeat split.
    + intros r H401. apply Z.eqb_neq in H401.
      unfold page, AuthStore.logout, ApiClient.post, ApiClient.request.
      next_turn. rewrite Ha. cbn -[exec]. rewrite Ha. cbn -[exec].
      next_turn. rewrite H401. cbn -[exec].
      unfold ApiClient.parseResponse, ApiClient.truthyText, ApiClient.parse, Js.orNull.
      destruct (resp_body r) as [t|] eqn:Hb.
      * next_turn. rewrite Hb. cbn -[exec].
        destruct (ApiClient.isJsonResponse (resp_contentType r) (Some t));
          cbn -[exec];
          destruct (Js.nonEmpty t); cbn -[exec];
          try (destruct (JSON_parse t); cbn -[exec]);
          next_turn; try rewrite Hb; cbn;
          try (destruct (JSON_parse t); cbn); repeat split.
      * next_turn. rewrite Hb. cbn -[exec].
        destruct (ApiClient.isJsonResponse (resp_contentType r) None);
          cbn -[exec]; next_turn; try rewrite Hb; cbn; repeat split.
Qed.

End Refreshing.
(* ===================================================================== *)
(** ** The examples, run *)
(* ===================================================================== *)

Section MoreScenarios.

#[local] Existing Instance Browser.runtime.

Import Scenario Examples.

(** At [http://host/api] the two formatters agree. *)
Lemma formatters_agree_witness :
  VITE_API_URL = Some "http://host/api"
  /\ Js.nonEmpty "http://host/api" = true
  /\ Js.endsWithSlash "http://host/api" = false
  /\ Js.startsWith "health" "http" = false
  /\ Api.endsWith "http://host/api" "/api" = true
  /\ ApiClient.formatUrl "health" = "http://host/api/health"
  /\ Api.formatApiPath "health" = ApiClient.formatUrl "health".
Proof.
  assert (VITE_API_URL = Some "http://host/api") as Hset by reflexivity.
  assert (Js.nonEmpty "http://host/api" = true) as Hne by reflexivity.
  assert (Js.endsWithSlash "http://host/api" = false) as Hslash by reflexivity.
  assert (Js.startsWith "health" "http" = false) as Hrel by reflexivity.
  assert (Api.endsWith "http://host/api" "/api" = true) as Hapi by reflexivity.
  destruct (@formatters_agree Browser.runtime "http://host/api" "health"
              Hset Hne Hslash Hrel) as (F & A & _).
  split; [exact Hset|]. split; [exact Hne|]. split; [exact Hslash|].
  split; [exact Hrel|]. split; [exact Hapi|]. split; [exact F|]. exact (A Hapi).
Defined.

(** A template added to a list that holds two others, one of them without
    an id, and deleted again. *)
Lemma addTemplate_deleteTemplate_witness :
  TemplateStore.template_id coverLetter = Some "t1"
  /\ (forall t, In t (TemplateStore.templates twoTemplates) ->
                TemplateStore.template_id t <> Some "t1")
  /\ TemplateStore.templates (TemplateStore.addTemplate coverLetter twoTemplates)
     = [reminder; unsaved; coverLetter]
  /\ TemplateStore.deleteTemplate "t1" (TemplateStore.addTemplate coverLetter twoTemplates)
     = twoTemplates.
Proof.
  assert (TemplateStore.template_id coverLetter = Some "t1") as Hid by reflexivity.
  assert (forall t, In t (TemplateStore.templates twoTemplates) ->
                    TemplateStore.template_id t <> Some "t1") as Hfresh
    by (intros t [<-|[<-|[]]]; discriminate).
  split; [exact Hid|]. split; [exact Hfresh|]. split; [reflexivity|].
  exact (addTemplate_deleteTemplate coverLetter twoTemplates Hid Hfresh).
Defined.

(** [post] with the empty string as its body sends no body. *)
Lemma body_sent_when_truthy_witness :
  ApiClient.accessToken_of (store (page (session "a1" "r1"))) = Some "a1"
  /\ map (fun c => (init_method (call_init c), init_body (call_init c)))
       (network (run (r <- ApiClient.post "notes" (JStr EmptyString) ApiClient.noOptions ;;
                      deliver (GotResponse 0 r))
                   (page (session "a1" "r1"))))
     = [(POST, None)].
Proof.
  assert (ApiClient.accessToken_of (store (page (session "a1" "r1"))) = Some "a1")
    as Ha by reflexivity.
  split; [exact Ha|].
  exact (proj1 (@body_sent_when_truthy Browser.runtime 0 "notes" (JStr EmptyString)
                  ApiClient.noOptions (page (session "a1" "r1")) "a1" Ha)).
Defined.

(** A second caller of [refreshToken()] waits on promise 0. *)
Lemma refreshToken_joins_witness :
  isRefreshing (this refreshing) = true
  /\ refreshPromise (this refreshing) = Some 0%nat
  /\ exists k,
       run (callRefreshToken 1) refreshing = suspend (WaitPromise 0%nat k) refreshing
       /\ (forall v s2, run (k v) s2 = add_delivered (GotBoolean 1 v) s2).
Proof.
  assert (isRefreshing (this refreshing) = true) as Hbusy by reflexivity.
  assert (refreshPromise (this refreshing) = Some 0%nat) as Hp by reflexivity.
  split; [exact Hbusy|]. split; [exact Hp|].
  exact (@refreshToken_joins Browser.runtime 1%nat refreshing 0%nat Hbusy Hp).
Defined.

(** Both calls on one page, the login answered first. *)
Lemma login_never_rejects_witness :
  Forall calmEvent [FetchSettles 0 (inl welcome); BodyRead 2]
  /\ unhandled
       (exec (page loggedOut)
          [Start (AuthActions.login "alice@example.org" "pw");
           Start (AuthActions.register "Alice" "alice@example.org" "pw");
           FetchSettles 0 (inl welcome); BodyRead 2]) = [].
Proof.
  assert (Forall calmEvent [FetchSettles 0 (inl welcome); BodyRead 2]) as Hevs
    by (repeat constructor).
  split; [exact Hevs|].
  exact (proj2 (proj2 (@login_never_rejects Browser.runtime "Alice" "alice@example.org"
                         "pw" loggedOut _ Hevs))).
Defined.


(** ... and the next call carries her token. *)
Lemma login_then_request_carries_token_witness :
  resp_ok welcome = true
  /\ resp_body welcome = Some (Browser.print welcomeData)
  /\ Js.nonEmpty (Browser.print welcomeData) = true
  /\ ApiClient.isJsonResponse (resp_contentType welcome)
       (Some (Browser.print welcomeData)) = true
  /\ JSON_parse (Browser.print welcomeData) = Some welcomeData
  /\ AuthActions.tokensIn welcomeData
     = Some {| accessToken := "a1"; refreshToken := "r1" |}
  /\ Js.nonEmpty "a1" = true
  /\ AuthActions.userIn welcomeData = Some alice
  /\ ApiClient.or_default (opt_requiresAuth ApiClient.noOptions) true = true
  /\ map (fun c => (call_url c, init_headers (call_init c)))
       (skipn 1
          (network
             (exec (page loggedOut)
                [Start (AuthActions.login "alice@example.org" "pw");
                 FetchSettles 0 (inl welcome); BodyRead 1;
                 Start (callRequest 0 "items" ApiClient.noOptions)])))
     = [("http://host/api/items",
         [("Content-Type", "application/json"); ("Authorization", "Bearer a1")])].
Proof.
  assert (resp_ok welcome = true) as Hok by reflexivity.
  assert (resp_body welcome = Some (Browser.print welcomeData)) as Hbody by reflexivity.
  assert (Js.nonEmpty (Browser.print welcomeData) = true) as Ht by reflexivity.
  assert (ApiClient.isJsonResponse (resp_contentType welcome)
            (Some (Browser.print welcomeData)) = true) as Hjson by reflexivity.
  assert (JSON_parse (Browser.print welcomeData) = Some welcomeData) as Hparse
    by reflexivity.
  assert (AuthActions.tokensIn welcomeData
          = Some {| accessToken := "a1"; refreshToken := "r1" |}) as Htk by reflexivity.
  assert (Js.nonEmpty (accessToken {| accessToken := "a1"; refreshToken := "r1" |}) = true)
    as Hacc by reflexivity.
  assert (AuthActions.userIn welcomeData = Some alice) as Hu by reflexivity.
  assert (ApiClient.or_default (opt_requiresAuth ApiClient.noOptions) true = true)
    as Hauth by reflexivity.
  repeat (split; [assumption|]).
  exact (proj1 (@login_then_request_carries_token Browser.runtime 0 "items"
                  ApiClient.noOptions "alice@example.org" "pw" loggedOut welcome _ _ _ _
                  Hok Hbody Ht Hjson Hparse Htk Hacc Hu Hauth)).
Defined.

(** Whatever becomes of the call, here it is answered with the session. *)
Lemma login_all_or_nothing_witness :
  (forall r t d,
      @inl Response Thrown welcome = inl r -> resp_body r = Some t ->
      JSON_parse t = Some d ->
      Typed.tokenFields d = true /\ Typed.userFields d = true)
  /\ isLoading
       (store (exec (page loggedOut)
                 [Start (AuthActions.login "alice@example.org" "pw");
                  FetchSettles 0 (inl welcome); BodyRead 1; BodyRead 2])) = false
  /\ isAuthenticated
       (store (exec (page loggedOut)
                 [Start (AuthActions.login "alice@example.org" "pw");
                  FetchSettles 0 (inl welcome); BodyRead 1; BodyRead 2])) = true.
Proof.
  assert (forall r t d,
             @inl Response Thrown welcome = inl r -> resp_body r = Some t ->
             JSON_parse t = Some d ->
             Typed.tokenFields d = true /\ Typed.userFields d = true) as Htyped.
  { intros r t d E Hb Hp. injection E as <-. cbn in Hb. injection Hb as <-.
    vm_compute in Hp. injection Hp as <-. split; reflexivity. }
  split; [exact Htyped|].
  split; [exact (proj1 (@login_all_or_nothing Browser.runtime "alice@example.org" "pw"
                          loggedOut (inl welcome) Htyped))|].
  reflexivity.
Defined.


(** The refresh brings the pair [a2], [r2]. *)
Lemma refresh_stores_tokens_witness :
  ApiClient.refreshToken_of (session "a1" "r1") = Some "r1"
  /\ resp_ok newTokens = true
  /\ resp_body newTokens = Some (Browser.print freshData)
  /\ JSON_parse (Browser.print freshData) = Some freshData
  /\ Typed.tokenFields freshData = true
  /\ ApiClient.tokensOf freshData = Ret (Some freshPair)
  /\ store (exec (page (session "a1" "r1"))
              [Start (callRefreshToken 0); FetchSettles 0 (inl newTokens); BodyRead 1])
     = session "a2" "r2"
  /\ delivered (exec (page (session "a1" "r1"))
                  [Start (callRefreshToken 0); FetchSettles 0 (inl newTokens); BodyRead 1])
     = [GotBoolean 0 true].
Proof.
  assert (ApiClient.refreshToken_of (session "a1" "r1") = Some "r1") as Hrt by reflexivity.
  assert (resp_ok newTokens = true) as Hok by reflexivity.
  assert (resp_body newTokens = Some (Browser.print freshData)) as Hrb by reflexivity.
  assert (JSON_parse (Browser.print freshData) = Some freshData) as Hparse by reflexivity.
  assert (Typed.tokenFields freshData = true) as Htyped by reflexivity.
  assert (ApiClient.tokensOf freshData = Ret (Some freshPair)) as Htokens by reflexivity.
  destruct (@refresh_stores_tokens Browser.runtime 0 (session "a1" "r1") "r1" newTokens
              _ _ _ Hrt Hok Hrb Hparse Htyped Htokens) as (S & _ & D & _).
  do 6 (split; [assumption|]). split; [exact S|exact D].
Defined.

(** The refresh call is cut off. *)
Lemma refresh_failure_modes_witness :
  ApiClient.accessToken_of (session "a1" "r1") = Some "a1"
  /\ ApiClient.refreshToken_of (session "a1" "r1") = Some "r1"
  /\ delivered (exec (page (session "a1" "r1"))
                  [Start (callRefreshToken 0); FetchSettles 0 (inr NotAnError)])
     = [GotBoolean 0 false]
  /\ map call_url
       (network (exec (page (session "a1" "r1"))
                   [Start (callRefreshToken 0); FetchSettles 0 (inr NotAnError)]))
     = ["http://host/api/users/refresh-token"; "http://host/api/users/logout"].
Proof.
  assert (ApiClient.accessToken_of (session "a1" "r1") = Some "a1") as Hacc by reflexivity.
  assert (ApiClient.refreshToken_of (session "a1" "r1") = Some "r1") as Hrt by reflexivity.
  destruct (proj1 (@refresh_failure_modes Browser.runtime 0 (session "a1" "r1") "a1" "r1"
                     Hacc Hrt) NotAnError) as (D & _).
  split; [exact Hacc|]. split; [exact Hrt|]. split; [exact D|]. reflexivity.
Defined.

(** A caller with credentials of its own: they are replaced on the first
    attempt and sent on the retry. *)
Lemma authorization_header_precedence_witness :
  ApiClient.or_default (opt_requiresAuth withOwnCredentials) true = true
  /\ ApiClient.or_default (opt_skipRefreshToken withOwnCredentials) false = false
  /\ ApiClient.accessToken_of (session "a1" "r1") = Some "a1"
  /\ ApiClient.refreshToken_of (session "a1" "r1") = Some "r1"
  /\ resp_status unauthorized = 401
  /\ resp_ok newTokens = true
  /\ resp_body newTokens = Some (Browser.print freshData)
  /\ JSON_parse (Browser.print freshData) = Some freshData
  /\ ApiClient.tokensOf freshData = Ret (Some freshPair)
  /\ Js.orNull (accessToken freshPair) = Some "a2"
  /\ map (obj_get "Authorization")
       (map (fun c => init_headers (call_init c))
          (network (exec (page (session "a1" "r1"))
                      [Start (callRequest 0 "items" withOwnCredentials);
                       FetchSettles 0 (inl unauthorized); BodyRead 1;
                       FetchSettles 2 (inl newTokens); BodyRead 3])))
     = [Some "Bearer a1"; None; Some "Basic dXNlcjpwdw=="].
Proof.
  assert (ApiClient.or_default (opt_requiresAuth withOwnCredentials) true = true)
    as Hauth by reflexivity.
  assert (ApiClient.or_default (opt_skipRefreshToken withOwnCredentials) false = false)
    as Hskip by reflexivity.
  assert (ApiClient.accessToken_of (session "a1" "r1") = Some "a1") as Htok by reflexivity.
  assert (ApiClient.refreshToken_of (session "a1" "r1") = Some "r1") as Hrt by reflexivity.
  assert (resp_status unauthorized = 401) as H401 by reflexivity.
  assert (resp_ok newTokens = true) as Hok by reflexivity.
  assert (resp_body newTokens = Some (Browser.print freshData)) as Hrb by reflexivity.
  assert (JSON_parse (Browser.print freshData) = Some freshData) as Hparse by reflexivity.
  assert (ApiClient.tokensOf freshData = Ret (Some freshPair)) as Htokens by reflexivity.
  assert (Js.orNull (accessToken freshPair) = Some "a2") as Hnew by reflexivity.
  repeat (split; [assumption|]).
  exact (proj1 (@authorization_header_precedence Browser.runtime 0 "items"
                  withOwnCredentials (session "a1" "r1") "a1" "r1" unauthorized newTokens
                  _ _ _ _ Hauth Hskip Htok Hrt H401 Hok Hrb Hparse Htokens Hnew)).
Defined.

End MoreScenarios.
